(** * LightTools: the conversion and reconciliation core of plugin.py

    A shallow embedding of [LightTools/Contents/Server Plugin/plugin.py].

    Modelling conventions.
    - Python [int] is [Z]; [bool] is [bool]; [str] is [string], read as the
      UTF-8 bytes of the Python string.
    - Python [float] is [pyfloat]: a finite float is the exact rational it
      denotes, next to negative zero, the two infinities and NaN.  Finite
      arithmetic is exact: binary64 rounding and overflow are not modelled.
    - A method that can raise returns a [result]; a method that logs, talks
      to the Indigo host or touches plugin fields runs in the monad [M]:
      a function of the [Host] (the tables of the Indigo server and its
      answers, read only) and of the [State] (the plugin fields, and the
      trace [events] of log lines, host commands and lock operations in
      program order). *)

From Stdlib Require Import ZArith QArith Qround String Ascii List Lia Lqa Bool.
From stdpp Require Import base option list gmap strings.

Local Open Scope string_scope.
Local Open Scope Z_scope.

(** ** Python values *)

Module Py.

(** The exception classes the plugin can meet.  [JSONDecodeError] is a
    subclass of [ValueError]; all of them are subclasses of [Exception]. *)
Inductive exn :=
  | ValueError | JSONDecodeError | TypeError | KeyError | IndexError
  | AttributeError | ZeroDivisionError | OverflowError | UnboundLocalError
  | HostError.

Global Instance exn_eq_dec : EqDecision exn.
Proof. solve_decision. Defined.

Definition is_ValueError (e : exn) : bool :=
  match e with ValueError | JSONDecodeError => true | _ => false end.

Definition is_TypeError (e : exn) : bool :=
  match e with TypeError => true | _ => false end.

Inductive result (A : Type) :=
  | Ok (a : A)
  | Raise (e : exn).
Arguments Ok {A} a.
Arguments Raise {A} e.

Definition rbind {A B} (r : result A) (k : A → result B) : result B :=
  match r with Ok a => k a | Raise e => Raise e end.

(** [try: body  except (classes): handler] on a pure computation. *)
Definition try_except {A} (body : result A) (catches : exn → bool)
    (handler : exn → result A) : result A :=
  match body with
  | Ok a => Ok a
  | Raise e => if catches e then handler e else Raise e
  end.

Global Instance result_ret : MRet result := @Ok.
Global Instance result_bind : MBind result := λ A B k r, rbind r k.
Global Instance result_fmap : FMap result := λ A B f r,
  rbind r (λ a, Ok (f a)).

(** *** Floats *)

Inductive pyfloat :=
  | Fin (q : Q)      (* a finite float, +0.0 included *)
  | NegZero          (* -0.0 *)
  | PInf | NInf | NaN.

Definition Qzero (q : Q) : bool := Qnum q =? 0.
Definition Qneg (q : Q) : bool := Qnum q <? 0.
Definition Qltb (a b : Q) : bool := negb (Qle_bool b a).

(** The finite value of a float, when it has one. *)
Definition fin_val (x : pyfloat) : option Q :=
  match x with Fin q => Some q | NegZero => Some 0%Q | _ => None end.

Definition is_zero (x : pyfloat) : bool :=
  match x with Fin q => Qzero q | NegZero => true | _ => false end.

(** The sign bit. *)
Definition signbit (x : pyfloat) : bool :=
  match x with Fin q => Qneg q | NegZero | NInf => true | _ => false end.

(** A finite result with the sign the IEEE rules give a zero. *)
Definition signed (neg_zero : bool) (q : Q) : pyfloat :=
  if Qzero q && neg_zero then NegZero else Fin q.

Definition float_of_int (z : Z) : pyfloat := Fin (inject_Z z).

Definition py_neg (x : pyfloat) : pyfloat :=
  match x with
  | Fin q => signed true (- q)
  | NegZero => Fin 0
  | PInf => NInf | NInf => PInf | NaN => NaN
  end.

(** [x + y] *)
Definition py_add (x y : pyfloat) : pyfloat :=
  match x, y with
  | NaN, _ | _, NaN => NaN
  | PInf, NInf | NInf, PInf => NaN
  | PInf, _ | _, PInf => PInf
  | NInf, _ | _, NInf => NInf
  | NegZero, NegZero => NegZero
  | NegZero, Fin b => Fin b
  | Fin a, NegZero => Fin a
  | Fin a, Fin b => Fin (a + b)
  end.

(** [x - y] *)
Definition py_sub (x y : pyfloat) : pyfloat := py_add x (py_neg y).

(** [x * y] *)
Definition py_mul (x y : pyfloat) : pyfloat :=
  let s := xorb (signbit x) (signbit y) in
  match fin_val x, fin_val y with
  | Some a, Some b => signed s (a * b)
  | _, _ =>
      match x, y with
      | NaN, _ | _, NaN => NaN
      | _, _ => if is_zero x || is_zero y then NaN
                else if s then NInf else PInf
      end
  end.

(** [x / y]; Python raises on a zero divisor. *)
Definition py_truediv (x y : pyfloat) : result pyfloat :=
  let s := xorb (signbit x) (signbit y) in
  if is_zero y then Raise ZeroDivisionError
  else Ok match fin_val x, fin_val y with
          | Some a, Some b => signed s (a / b)
          | Some _, None =>
              match y with NaN => NaN | _ => signed s 0 end
          | None, Some _ =>
              match x with NaN => NaN | _ => if s then NInf else PInf end
          | None, None => NaN
          end.

(** Comparisons; every comparison with NaN is false. *)
Definition py_lt (x y : pyfloat) : bool :=
  match x, y with
  | NaN, _ | _, NaN => false
  | _, NInf | PInf, _ => false
  | NInf, _ | _, PInf => true
  | _, _ => match fin_val x, fin_val y with
            | Some a, Some b => Qltb a b
            | _, _ => false
            end
  end.

Definition py_le (x y : pyfloat) : bool :=
  match x, y with
  | NaN, _ | _, NaN => false
  | NInf, _ | _, PInf => true
  | _, NInf | PInf, _ => false
  | _, _ => match fin_val x, fin_val y with
            | Some a, Some b => Qle_bool a b
            | _, _ => false
            end
  end.

Definition py_gt (x y : pyfloat) : bool := py_lt y x.
Definition py_ge (x y : pyfloat) : bool := py_le y x.

(** Round half to even, on an exact rational. *)
Definition round_half_even (q : Q) : Z :=
  let f := Qfloor q in
  let r := (q - inject_Z f)%Q in
  match (r ?= 1 # 2)%Q with
  | Lt => f
  | Gt => f + 1
  | Eq => if Z.even f then f else f + 1
  end.

(** [round(x)]: the nearest [int], ties to even. *)
Definition py_round (x : pyfloat) : result Z :=
  match x with
  | Fin q => Ok (round_half_even q)
  | NegZero => Ok 0
  | PInf | NInf => Raise OverflowError
  | NaN => Raise ValueError
  end.

Definition pow10 (n : nat) : Z := 10 ^ Z.of_nat n.

(** [round(x, ndigits)] for [ndigits >= 0]: a float again. *)
Definition py_round_ndigits (x : pyfloat) (ndigits : nat) : pyfloat :=
  match x with
  | Fin q =>
      let n := round_half_even (q * inject_Z (pow10 ndigits)) in
      signed (Qneg q) (n # Z.to_pos (pow10 ndigits))
  | _ => x
  end.

(** [x] is finite and denotes the rational [q]. *)
Definition denotes (x : pyfloat) (q : Q) : Prop :=
  ∃ a, fin_val x = Some a ∧ (a == q)%Q.

(** *** Decimal text *)

(** The white space [int()] and [float()] strip: the ASCII characters for
    which [str.isspace] holds. *)
Definition is_space (c : ascii) : bool :=
  let n := N_of_ascii c in
  ((9 <=? n) && (n <=? 13) || (28 <=? n) && (n <=? 32))%N.

Definition digit_of_char (c : ascii) : option N :=
  let n := N_of_ascii c in
  if ((48 <=? n) && (n <=? 57))%N then Some (n - 48)%N else None.

Definition is_digit (c : ascii) : bool :=
  match digit_of_char c with Some _ => true | None => false end.

Definition digit_char (d : N) : ascii := ascii_of_N (48 + d).

Definition lower (c : ascii) : ascii :=
  let n := N_of_ascii c in
  if ((65 <=? n) && (n <=? 90))%N then ascii_of_N (n + 32) else c.

Fixpoint lower_string (s : string) : string :=
  match s with
  | "" => ""
  | String c s' => String (lower c) (lower_string s')
  end.

Fixpoint lstrip (s : string) : string :=
  match s with
  | String c s' => if is_space c then lstrip s' else s
  | "" => ""
  end.

Definition strip (s : string) : string :=
  String.rev (lstrip (String.rev (lstrip s))).

(** Every character of the string passes the test. *)
Fixpoint string_forall (P : ascii → bool) (s : string) : bool :=
  match s with
  | "" => true
  | String c s' => P c && string_forall P s'
  end.

Definition not_space (c : ascii) : bool := negb (is_space c).

Definition not_underscore (c : ascii) : bool :=
  negb (bool_decide (c = "_"%char)).

(** Neither white space nor an underscore. *)
Definition plain (c : ascii) : bool := not_space c && not_underscore c.

(** The number a string of digits denotes, continuing [acc]. *)
Fixpoint digits_value (s : string) (acc : N) : N :=
  match s with
  | "" => acc
  | String c s' => digits_value s' (10 * acc + default 0%N (digit_of_char c))
  end.

Definition no_leading_digit (t : string) : bool :=
  match t with String c _ => negb (is_digit c) | "" => true end.

(** The text of a sign. *)
Definition sign_text (neg : bool) : string := if neg then "-" else "".

(** The number of digits after the decimal point, for a text that ends in a
    point and digits. *)
Fixpoint after_point (s : string) : option string :=
  match s with
  | "" => None
  | String c s' => if bool_decide (c = "."%char) then Some s' else after_point s'
  end.

Definition decimal_places (s : string) : option nat :=
  match after_point s with
  | Some f => if string_forall is_digit f then Some (String.length f) else None
  | None => None
  end.

(** ['.' in s] and the like: does the character occur in the string. *)
Fixpoint contains_char (c : ascii) (s : string) : bool :=
  match s with
  | "" => false
  | String c' s' => bool_decide (c = c') || contains_char c s'
  end.

(** An underscore in a numeric literal is legal only between two digits;
    the legal ones are dropped before the number is read. *)
Fixpoint drop_underscores (prev : option ascii) (s : string) : option string :=
  match s with
  | "" => if bool_decide (prev = Some "_"%char) then None else Some ""
  | String c s' =>
      if bool_decide (c = "_"%char) then
        if from_option is_digit false prev
        then drop_underscores (Some c) s' else None
      else if bool_decide (prev = Some "_"%char) && negb (is_digit c) then None
      else String c <$> drop_underscores (Some c) s'
  end.

(** Reads the longest prefix of digits, continuing the value [acc]. *)
Fixpoint scan_digits (s : string) (acc : N) (cnt : nat) : N * nat * string :=
  match s with
  | String c s' =>
      match digit_of_char c with
      | Some d => scan_digits s' (10 * acc + d)%N (S cnt)
      | None => (acc, cnt, s)
      end
  | "" => (acc, cnt, "")
  end.

Definition split_sign (s : string) : bool * string :=
  match s with
  | String "-" s' => (true, s')
  | String "+" s' => (false, s')
  | _ => (false, s)
  end.

(** [int(s)] for a [str] argument, base 10. *)
Definition int_of_string (s : string) : result Z :=
  match drop_underscores None (strip s) with
  | None => Raise ValueError
  | Some t =>
      let '(neg, body) := split_sign t in
      let '(n, cnt, rest) := scan_digits body 0 0 in
      if bool_decide (cnt ≠ 0%nat ∧ rest = "")
      then Ok (if neg then - Z.of_N n else Z.of_N n)
      else Raise ValueError
  end.

(** The exponent part [e][+-]digits; without a digit nothing is read. *)
Definition scan_exponent (s : string) : Z * string :=
  match s with
  | String c s' =>
      if bool_decide (lower c = "e"%char) then
        let '(neg, body) := split_sign s' in
        let '(n, cnt, rest) := scan_digits body 0 0 in
        if bool_decide (cnt = 0%nat) then (0, s)
        else (if neg then - Z.of_N n else Z.of_N n, rest)
      else (0, s)
  | "" => (0, "")
  end.

(** [m * 10^e] as an exact rational. *)
Definition scale10 (m e : Z) : Q :=
  if 0 <=? e then inject_Z (m * 10 ^ e) else m # Z.to_pos (10 ^ (- e)).

Definition parse_inf_or_nan (neg : bool) (body : string) : option pyfloat :=
  let l := lower_string body in
  if bool_decide (l = "inf" ∨ l = "infinity")
  then Some (if neg then NInf else PInf)
  else if bool_decide (l = "nan") then Some NaN else None.

(** [float(s)] for a [str] argument. *)
Definition float_of_string (s : string) : result pyfloat :=
  match drop_underscores None (strip s) with
  | None => Raise ValueError
  | Some t =>
      let '(neg, body) := split_sign t in
      let '(i, ni, r1) := scan_digits body 0 0 in
      let '(m, nf, r2) :=
        match r1 with
        | String "." r => scan_digits r i 0
        | _ => (i, 0%nat, r1)
        end in
      if bool_decide (ni + nf = 0)%nat then
        match parse_inf_or_nan neg body with
        | Some x => Ok x
        | None => Raise ValueError
        end
      else
        let '(e, r3) := scan_exponent r2 in
        if bool_decide (r3 = "") then
          let q := scale10 (Z.of_N m) (e - Z.of_nat nf) in
          Ok (if neg then signed true (- q) else Fin q)
        else Raise ValueError
  end.

(** The decimal digits of a natural number, most significant first. *)
Fixpoint digits_fuel (fuel : nat) (n : N) (acc : string) : string :=
  match fuel with
  | O => acc
  | S fuel' =>
      let acc' := String (digit_char (n mod 10)) acc in
      if (n <? 10)%N then acc' else digits_fuel fuel' (n / 10) acc'
  end.

Definition str_of_N (n : N) : string :=
  digits_fuel (S (N.to_nat (N.log2 n))) n "".

(** [str(z)] for an [int]. *)
Definition str_of_int (z : Z) : string :=
  if z <? 0 then "-" +:+ str_of_N (Z.abs_N z) else str_of_N (Z.abs_N z).

(** The last [width] decimal digits of [n], zero padded. *)
Fixpoint pad_digits (width : nat) (n : N) (acc : string) : string :=
  match width with
  | O => acc
  | S w => pad_digits w (n / 10) (String (digit_char (n mod 10)) acc)
  end.

(** *** [repr] of a float

    Python prints the shortest decimal that reads back as the same float.
    For an exact decimal fraction that is the fraction itself; any other
    rational is first cut to 17 significant digits. *)

(** The smallest [k' >= k] with [a * 10^k'] integral, if the search finds
    one, and that integer. *)
Fixpoint find_scale (fuel k : nat) (a : Q) : option (N * nat) :=
  let x := Qred (a * inject_Z (pow10 k)) in
  if (Qden x =? 1)%positive then Some (Z.to_N (Qnum x), k)
  else match fuel with
       | O => None
       | S fuel' => find_scale fuel' (S k) a
       end.

(** The least [j >= k] with [a * 10^j >= 1], for [0 < a]. *)
Fixpoint first_unit (fuel k : nat) (a : Q) : nat :=
  match fuel with
  | O => k
  | S fuel' =>
      if Qle_bool 1 (a * inject_Z (pow10 k)) then k
      else first_unit fuel' (S k) a
  end.

(** [floor (log10 a)] for [0 < a]. *)
Definition decimal_exponent (a : Q) : Z :=
  let i := Z.to_N (Qfloor a) in
  if (0 <? i)%N then Z.of_nat (String.length (str_of_N i)) - 1
  else - Z.of_nat (first_unit (Pos.size_nat (Qden a)) 1 a).

(** [a] as [m / 10^k] with [k] least, for [0 < a]. *)
Definition cut17 (a : Q) : N * nat :=
  let e := decimal_exponent a in
  let m := round_half_even (a * scale10 1 (16 - e)) in
  let a' := scale10 m (e - 16) in
  default (0%N, 0%nat) (find_scale (Pos.size_nat (Qden a')) 0 a').

Definition shortest_decimal (a : Q) : N * nat :=
  match find_scale (Pos.size_nat (Qden a)) 0 a with
  | Some (m, k) => if (m <? 10 ^ 17)%N then (m, k) else cut17 a
  | None => cut17 a
  end.

Fixpoint rstrip_zeros_rev (s : string) : string :=
  match s with
  | String "0" s' => rstrip_zeros_rev s'
  | _ => s
  end.

(** Fixed notation: the integer part, a point, [k] digits (or [0]). *)
Definition repr_fixed (m : N) (k : nat) : string :=
  let p := Z.to_N (pow10 k) in
  str_of_N (m / p) +:+ "." +:+
  match k with O => "0" | _ => pad_digits k (m mod p) "" end.

(** Exponent notation: [d.ddde+XX], the exponent with two digits at least. *)
Definition repr_exp (m : N) (k : nat) : string :=
  let ds := str_of_N m in
  let e := Z.of_nat (String.length ds) - 1 - Z.of_nat k in
  let sig := String.rev (rstrip_zeros_rev (String.rev ds)) in
  let mant := match sig with
              | String d "" => String d ""
              | String d tl => String d ("." +:+ tl)
              | "" => "0"
              end in
  mant +:+ "e" +:+ (if e <? 0 then "-" else "+") +:+
  (if Z.abs e <? 10 then "0" else "") +:+ str_of_N (Z.abs_N e).

Definition repr_pos (a : Q) : string :=
  let '(m, k) := shortest_decimal a in
  let a' := (Z.of_N m # Z.to_pos (pow10 k))%Q in
  if Qle_bool (1 # 10000) a' && Qltb a' (inject_Z (10 ^ 16))
  then repr_fixed m k else repr_exp m k.

(** [str(x)] for a [float]. *)
Definition str_of_float (x : pyfloat) : string :=
  match x with
  | NaN => "nan"
  | PInf => "inf"
  | NInf => "-inf"
  | NegZero => "-0.0"
  | Fin q =>
      if Qzero q then "0.0"
      else if Qneg q then "-" +:+ repr_pos (- q) else repr_pos q
  end.

(** *** Dynamically typed values

    What a plugin property, a device state or a decoded JSON document can
    hold.  A [dict] keeps its insertion order. *)

#[warnings="-register-all"]
Inductive pyval :=
  | PNone
  | PBool (b : bool)
  | PInt (z : Z)
  | PFloat (x : pyfloat)
  | PStr (s : string)
  | PList (l : list pyval)
  | PDict (d : list (string * pyval)).

(** [d.get(k)] on an insertion-ordered dict. *)
Fixpoint dict_get {V} (k : string) (d : list (string * V)) : option V :=
  match d with
  | [] => None
  | (k', v) :: d' => if bool_decide (k = k') then Some v else dict_get k d'
  end.

(** [d[k] = v]: an existing key keeps its place. *)
Fixpoint dict_set {V} (k : string) (v : V) (d : list (string * V))
    : list (string * V) :=
  match d with
  | [] => [(k, v)]
  | (k', v') :: d' =>
      if bool_decide (k = k') then (k, v) :: d' else (k', v') :: dict_set k v d'
  end.

(** Truth value testing: [if not x]. *)
Definition py_truthy (v : pyval) : bool :=
  match v with
  | PNone => false
  | PBool b => b
  | PInt z => negb (z =? 0)
  | PFloat x => negb (is_zero x)
  | PStr s => negb (bool_decide (s = ""))
  | PList l => negb (bool_decide (l = []))
  | PDict d => negb (bool_decide (d = []))
  end.

(** The number a value denotes in a comparison ([True == 1 == 1.0]). *)
Definition num_val (v : pyval) : option pyfloat :=
  match v with
  | PBool b => Some (float_of_int (if b then 1 else 0))
  | PInt z => Some (float_of_int z)
  | PFloat x => Some x
  | _ => None
  end.

Definition float_eq (x y : pyfloat) : bool :=
  match x, y with
  | PInf, PInf | NInf, NInf => true
  | _, _ => match fin_val x, fin_val y with
            | Some a, Some b => Qeq_bool a b
            | _, _ => false
            end
  end.

(** [a == b] *)
Fixpoint py_eq (a b : pyval) {struct a} : bool :=
  match a, b with
  | PNone, PNone => true
  | PStr s, PStr t => bool_decide (s = t)
  | PList l1, PList l2 =>
      (fix go (l1 l2 : list pyval) : bool :=
         match l1, l2 with
         | [], [] => true
         | x :: l1', y :: l2' => py_eq x y && go l1' l2'
         | _, _ => false
         end) l1 l2
  | PDict d1, PDict d2 =>
      bool_decide (length d1 = length d2) &&
      (fix go (d1 : list (string * pyval)) : bool :=
         match d1 with
         | [] => true
         | (k, v) :: d1' =>
             match dict_get k d2 with
             | Some v' => py_eq v v'
             | None => false
             end && go d1'
         end) d1
  | _, _ =>
      match num_val a, num_val b with
      | Some x, Some y => float_eq x y
      | _, _ => false
      end
  end.

(** [float(v)] *)
Definition py_float (v : pyval) : result pyfloat :=
  match v with
  | PStr s => float_of_string s
  | PInt z => Ok (float_of_int z)
  | PBool b => Ok (float_of_int (if b then 1 else 0))
  | PFloat x => Ok x
  | _ => Raise TypeError
  end.

(** [int(v)]; a float is truncated towards zero. *)
Definition py_int (v : pyval) : result Z :=
  match v with
  | PStr s => int_of_string s
  | PInt z => Ok z
  | PBool b => Ok (if b then 1 else 0)
  | PFloat (Fin q) => Ok (Z.quot (Qnum q) (Zpos (Qden q)))
  | PFloat NegZero => Ok 0
  | PFloat NaN => Raise ValueError
  | PFloat _ => Raise OverflowError
  | _ => Raise TypeError
  end.

Definition hex_digit (n : N) : ascii :=
  if (n <? 10)%N then ascii_of_N (48 + n) else ascii_of_N (87 + n).

(** The body of [repr(s)] for a [str], quoted with [quote]. *)
Fixpoint repr_chars (quote : ascii) (s : string) : string :=
  match s with
  | "" => ""
  | String c s' =>
      let n := N_of_ascii c in
      (if bool_decide (c = quote ∨ c = "\"%char) then String "\" (String c "")
       else if (n =? 10)%N then "\n"
       else if (n =? 13)%N then "\r"
       else if (n =? 9)%N then "\t"
       else if ((n <? 32) || (n =? 127))%N then
         String "\" (String "x" (String (hex_digit (n / 16))
                                   (String (hex_digit (n mod 16)) "")))
       else String c "") +:+ repr_chars quote s'
  end.

(** The double quote character. *)
Definition dquote : ascii := ascii_of_N 34.

Definition repr_str (s : string) : string :=
  let q : ascii :=
    if contains_char "'" s && negb (contains_char dquote s)
    then dquote else "'"%char in
  String q (repr_chars q s) +:+ String q "".

Definition join_comma (l : list string) : string :=
  match l with
  | [] => ""
  | x :: l' => fold_left (λ acc y, acc +:+ ", " +:+ y) l' x
  end.

(** [repr(v)] *)
Fixpoint py_repr (v : pyval) : string :=
  match v with
  | PNone => "None"
  | PBool b => if b then "True" else "False"
  | PInt z => str_of_int z
  | PFloat x => str_of_float x
  | PStr s => repr_str s
  | PList l => "[" +:+ join_comma (map py_repr l) +:+ "]"
  | PDict d =>
      "{" +:+ join_comma (map (λ kv, repr_str kv.1 +:+ ": " +:+ py_repr kv.2) d)
          +:+ "}"
  end.

(** [str(v)] *)
Definition py_str (v : pyval) : string :=
  match v with PStr s => s | _ => py_repr v end.

(** ['.' in v]: substring test on a [str], membership on a container. *)
Definition py_contains (needle : ascii) (v : pyval) : result bool :=
  match v with
  | PStr s => Ok (contains_char needle s)
  | PList l => Ok (existsb (py_eq (PStr (String needle ""))) l)
  | PDict d => Ok (bool_decide (is_Some (dict_get (String needle "") d)))
  | _ => Raise TypeError
  end.

(** [v[k]] with a string key. *)
Definition py_getitem (v : pyval) (k : string) : result pyval :=
  match v with
  | PDict d => match dict_get k d with
               | Some x => Ok x
               | None => Raise KeyError
               end
  | _ => Raise TypeError
  end.

(** [v.get(k)]: [None] for a missing key. *)
Definition py_get (v : pyval) (k : string) : result pyval :=
  match v with
  | PDict d => Ok (default PNone (dict_get k d))
  | _ => Raise AttributeError
  end.

End Py.

(** ** Relay-pair quantizer *)

Module Relay.

(** [Plugin._relay_states_to_level] *)
Definition _relay_states_to_level (relay1_on relay2_on : bool) : Z :=
  if negb relay1_on && negb relay2_on then 0
  else if relay1_on && negb relay2_on then 33
  else if negb relay1_on && relay2_on then 66
  else 100.

(** The first [if] chain of [Plugin._level_to_relay_states]. *)
Definition rounded_level (level : Z) : Z :=
  if level <=? 16 then 0
  else if level <=? 49 then 33
  else if level <=? 83 then 66
  else 100.

(** [Plugin._level_to_relay_states] *)
Definition _level_to_relay_states (level : Z) : bool * bool :=
  let rounded_level := rounded_level level in
  if rounded_level =? 0 then (false, false)
  else if rounded_level =? 33 then (true, false)
  else if rounded_level =? 66 then (false, true)
  else (true, true).

(** The four levels a relay pair can show. *)
Definition canonical_levels : list Z := [0; 33; 66; 100].

End Relay.

(** ** [json.loads]

    A lexer that walks the text once and a parser that walks the tokens
    once, with an explicit stack of the containers under construction. *)

Module Json.
Import Py.

Inductive token :=
  | TLBrace | TRBrace | TLBracket | TRBracket | TColon | TComma
  | TString (s : string)
  | TAtom (s : string).       (* a number or one of the literal names *)

Definition is_json_space (c : ascii) : bool :=
  let n := N_of_ascii c in
  ((n =? 32) || (n =? 9) || (n =? 10) || (n =? 13))%N.

Definition punctuation (c : ascii) : option token :=
  if bool_decide (c = "{"%char) then Some TLBrace
  else if bool_decide (c = "}"%char) then Some TRBrace
  else if bool_decide (c = "["%char) then Some TLBracket
  else if bool_decide (c = "]"%char) then Some TRBracket
  else if bool_decide (c = ":"%char) then Some TColon
  else if bool_decide (c = ","%char) then Some TComma
  else None.

(** The characters of numbers and literal names. *)
Definition is_atom_char (c : ascii) : bool :=
  let n := N_of_ascii c in
  ((48 <=? n) && (n <=? 57) || (65 <=? n) && (n <=? 90)
   || (97 <=? n) && (n <=? 122) || (n =? 43) || (n =? 45) || (n =? 46))%N.

Definition hex_value (c : ascii) : option N :=
  let n := N_of_ascii c in
  if ((48 <=? n) && (n <=? 57))%N then Some (n - 48)%N
  else if ((65 <=? n) && (n <=? 70))%N then Some (n - 55)%N
  else if ((97 <=? n) && (n <=? 102))%N then Some (n - 87)%N
  else None.

(** The UTF-8 bytes of a code point, last byte first. *)
Definition utf8_rev (cp : N) : string :=
  let byte (n : N) := ascii_of_N n in
  let cont (n : N) := byte (128 + n mod 64)%N in
  if (cp <? 128)%N then String (byte cp) ""
  else if (cp <? 2048)%N then
    String (cont cp) (String (byte (192 + cp / 64)%N) "")
  else if (cp <? 65536)%N then
    String (cont cp) (String (cont (cp / 64)%N)
      (String (byte (224 + cp / 4096)%N) ""))
  else
    String (cont cp) (String (cont (cp / 64)%N) (String (cont (cp / 4096)%N)
      (String (byte (240 + cp / 262144)%N) ""))).

Inductive lex_mode :=
  | LStart
  | LAtom (rev_chars : string)
  | LStr (rev_chars : string) (high : option N)
      (* inside a string; [high]: a high surrogate that waits for its low *)
  | LEsc (rev_chars : string) (high : option N)
  | LUni (rev_chars : string) (high : option N) (read : nat) (acc : N).

(** The text so far with a waiting high surrogate written out. *)
Definition flush (high : option N) (rev_chars : string) : string :=
  match high with
  | Some hi => utf8_rev hi +:+ rev_chars
  | None => rev_chars
  end.

(** A character met between tokens. *)
Definition start_char (c : ascii) (acc : list token)
    : option (lex_mode * list token) :=
  if is_json_space c then Some (LStart, acc)
  else if bool_decide (c = dquote) then Some (LStr "" None, acc)
  else match punctuation c with
       | Some t => Some (LStart, t :: acc)
       | None => if is_atom_char c then Some (LAtom (String c ""), acc)
                 else None
       end.

(** The character an escape letter stands for. *)
Definition escape_char (c : ascii) : option ascii :=
  if bool_decide (c = dquote) then Some dquote
  else if bool_decide (c = "\"%char) then Some "\"%char
  else if bool_decide (c = "/"%char) then Some "/"%char
  else if bool_decide (c = "b"%char) then Some (ascii_of_N 8)
  else if bool_decide (c = "f"%char) then Some (ascii_of_N 12)
  else if bool_decide (c = "n"%char) then Some (ascii_of_N 10)
  else if bool_decide (c = "r"%char) then Some (ascii_of_N 13)
  else if bool_decide (c = "t"%char) then Some (ascii_of_N 9)
  else None.

(** A complete [\uXXXX] unit [u] joins the text. *)
Definition push_unit (rev_chars : string) (high : option N) (u : N) : lex_mode :=
  match high with
  | Some hi =>
      if ((56320 <=? u) && (u <=? 57343))%N then
        LStr (utf8_rev (65536 + (hi - 55296) * 1024 + (u - 56320))%N
              +:+ rev_chars) None
      else if ((55296 <=? u) && (u <=? 56319))%N then
        LStr (flush high rev_chars) (Some u)
      else LStr (utf8_rev u +:+ flush high rev_chars) None
  | None =>
      if ((55296 <=? u) && (u <=? 56319))%N then LStr rev_chars (Some u)
      else LStr (utf8_rev u +:+ rev_chars) None
  end.

Fixpoint lex (s : string) (mode : lex_mode) (acc : list token)
    : option (list token) :=
  match s with
  | "" =>
      match mode with
      | LStart => Some (rev acc)
      | LAtom a => Some (rev (TAtom (String.rev a) :: acc))
      | _ => None
      end
  | String c s' =>
      match mode with
      | LStart =>
          match start_char c acc with
          | Some (mode', acc') => lex s' mode' acc'
          | None => None
          end
      | LAtom a =>
          if is_atom_char c then lex s' (LAtom (String c a)) acc
          else match start_char c (TAtom (String.rev a) :: acc) with
               | Some (mode', acc') => lex s' mode' acc'
               | None => None
               end
      | LStr a high =>
          if bool_decide (c = dquote)
          then lex s' LStart (TString (String.rev (flush high a)) :: acc)
          else if bool_decide (c = "\"%char) then lex s' (LEsc a high) acc
          else if (N_of_ascii c <? 32)%N then None
          else lex s' (LStr (String c (flush high a)) None) acc
      | LEsc a high =>
          if bool_decide (c = "u"%char) then lex s' (LUni a high 0 0) acc
          else match escape_char c with
               | Some e => lex s' (LStr (String e (flush high a)) None) acc
               | None => None
               end
      | LUni a high read n =>
          match hex_value c with
          | Some d =>
              let n' := (16 * n + d)%N in
              if bool_decide (read = 3%nat) then lex s' (push_unit a high n') acc
              else lex s' (LUni a high (S read) n') acc
          | None => None
          end
      end
  end.

(** The number grammar: an optional minus; a zero, or a nonzero digit and
    more digits; optionally a point and one digit at least; optionally an
    exponent letter, a sign and one digit at least.  The result tells
    whether a fraction or an exponent is present. *)
Definition json_number (a : string) : option bool :=
  let body := match a with String "-" r => r | _ => a end in
  let after_int :=
    match body with
    | String "0" r => Some r
    | String c _ =>
        if is_digit c then Some (scan_digits body 0 0).2 else None
    | "" => None
    end in
  match after_int with
  | None => None
  | Some r1 =>
      let after_frac :=
        match r1 with
        | String "." r =>
            let '(_, cnt, r') := scan_digits r 0 0 in
            if bool_decide (cnt = 0%nat) then None else Some (true, r')
        | _ => Some (false, r1)
        end in
      match after_frac with
      | None => None
      | Some (has_frac, r2) =>
          match r2 with
          | "" => Some has_frac
          | String c r =>
              if bool_decide (lower c = "e"%char) then
                let r := match r with
                         | String "-" r' | String "+" r' => r'
                         | _ => r
                         end in
                let '(_, cnt, r') := scan_digits r 0 0 in
                if bool_decide (cnt ≠ 0%nat ∧ r' = "") then Some true else None
              else None
          end
      end
  end.

Definition to_option {A} (r : result A) : option A :=
  match r with Ok a => Some a | Raise _ => None end.

Definition atom_value (a : string) : option pyval :=
  if bool_decide (a = "null") then Some PNone
  else if bool_decide (a = "true") then Some (PBool true)
  else if bool_decide (a = "false") then Some (PBool false)
  else if bool_decide (a = "NaN") then Some (PFloat NaN)
  else if bool_decide (a = "Infinity") then Some (PFloat PInf)
  else if bool_decide (a = "-Infinity") then Some (PFloat NInf)
  else match json_number a with
       | Some true => PFloat <$> to_option (float_of_string a)
       | Some false => PInt <$> to_option (int_of_string a)
       | None => None
       end.

(** A container under construction. *)
Inductive frame :=
  | FArr (rev_elems : list pyval)
  | FObj (d : list (string * pyval)) (key : string).

Inductive parse_state :=
  | PValue (stack : list frame)        (* a value must follow *)
  | PValueOrEnd (rest : list frame)    (* just after an opening bracket *)
  | PKeyOrEnd (rest : list frame)      (* just after an opening brace *)
  | PKey (d : list (string * pyval)) (rest : list frame)
  | PColon (d : list (string * pyval)) (key : string) (rest : list frame)
  | PAfter (v : pyval) (stack : list frame).  (* a value is complete *)

Definition value_token (t : token) (stack : list frame) : option parse_state :=
  match t with
  | TString s => Some (PAfter (PStr s) stack)
  | TAtom a => (λ v, PAfter v stack) <$> atom_value a
  | TLBracket => Some (PValueOrEnd stack)
  | TLBrace => Some (PKeyOrEnd stack)
  | _ => None
  end.

Definition parse_step (st : parse_state) (t : token) : option parse_state :=
  match st with
  | PValue stack => value_token t stack
  | PValueOrEnd rest =>
      match t with
      | TRBracket => Some (PAfter (PList []) rest)
      | _ => value_token t (FArr [] :: rest)
      end
  | PKeyOrEnd rest =>
      match t with
      | TRBrace => Some (PAfter (PDict []) rest)
      | TString k => Some (PColon [] k rest)
      | _ => None
      end
  | PKey d rest =>
      match t with
      | TString k => Some (PColon d k rest)
      | _ => None
      end
  | PColon d k rest =>
      match t with
      | TColon => Some (PValue (FObj d k :: rest))
      | _ => None
      end
  | PAfter v stack =>
      match stack, t with
      | FArr elems :: rest, TComma => Some (PValue (FArr (v :: elems) :: rest))
      | FArr elems :: rest, TRBracket =>
          Some (PAfter (PList (rev (v :: elems))) rest)
      | FObj d k :: rest, TComma => Some (PKey (dict_set k v d) rest)
      | FObj d k :: rest, TRBrace => Some (PAfter (PDict (dict_set k v d)) rest)
      | _, _ => None
      end
  end.

Fixpoint parse_tokens (ts : list token) (st : parse_state) : option pyval :=
  match ts with
  | [] => match st with PAfter v [] => Some v | _ => None end
  | t :: ts' =>
      match parse_step st t with
      | Some st' => parse_tokens ts' st'
      | None => None
      end
  end.

(** [json.loads(s)] for a [str] argument. *)
Definition loads (s : string) : result pyval :=
  match lex s LStart [] ≫= (λ ts, parse_tokens ts (PValue [])) with
  | Some v => Ok v
  | None => Raise JSONDecodeError
  end.

End Json.

(** ** The Indigo host and the plugin object

    The host is the external collaborator: a table of devices and of
    variables the plugin reads, and commands the plugin sends.  A command is
    recorded in the event trace together with whether the host accepted it;
    a refused command raises.  Reads see one snapshot of the tables. *)

Module Indigo.
Import Py.

Record Device := {
  dev_id : Z;
  dev_name : string;
  deviceTypeId : string;
  pluginId : string;
  class_name : string;             (* dev.__class__.__name__ *)
  brightness : option Z;           (* None: the class has no such attribute *)
  onState : option bool;
  speedLevel : option Z;
  hvacMode : option Z;
  fanMode : option Z;
  coolSetpoint : option pyfloat;
  heatSetpoint : option pyfloat;
  states : list (string * pyval);  (* dev.states *)
  pluginProps : gmap string pyval; (* dev.pluginProps *)
}.

Record IndigoVar := {
  var_id : Z;
  var_name : string;
  var_value : string;
}.

Inductive Command :=
  | SetBrightness (dev : Z) (value : pyval)  (* indigo.dimmer.setBrightness *)
  | TurnOn (dev : Z)                         (* indigo.device.turnOn *)
  | TurnOff (dev : Z)                        (* indigo.device.turnOff *)
  | SetHvacMode (dev : Z) (mode : Z)         (* indigo.thermostat.setHvacMode *)
  | SetFanMode (dev : Z) (mode : Z)
  | SetCoolSetpoint (dev : Z) (value : pyval)
  | SetHeatSetpoint (dev : Z) (value : pyval)
  | SetSpeedLevel (dev : Z) (value : pyval)  (* indigo.speedcontrol.setSpeedLevel *)
  | UpdateValue (var : Z) (value : pyval)    (* indigo.variable.updateValue *)
  | UpdateStateOnServer (dev : Z) (key : string) (value : pyval)
  | ReplacePluginPropsOnServer (dev : Z) (props : gmap string pyval).

Inductive LogLevel := Debug | Info | Warning | Error.

Inductive Lock := flash_lock | scene_lock | relay2_lock.

Inductive Event :=
  | Log (level : LogLevel) (msg : string) (exc : option exn)
      (* the text of the f-string, and the exception it interpolates *)
  | Call (c : Command) (accepted : bool)
  | Acquire (l : Lock)
  | Release (l : Lock).

Record Host := {
  devices : gmap Z Device;          (* indigo.devices *)
  variables : gmap Z IndigoVar;      (* indigo.variables *)
  accepts : Command → bool;         (* does the host carry the command out *)
  stop_seen : nat → bool;           (* what the n-th look at the job's stop
                                       event finds: is it set *)
}.

(** The fields of the [Plugin] object the modelled methods use. *)
Record Self := {
  last_variable_values : gmap string string;
  last_device_brightness : gmap Z Z;
  flash_threads : gset string;      (* the keys of the dict of threads *)
  flash_stop_events : gset string;  (* the keys of the dict of stop events *)
  flashing_devices : gset Z;
}.

Record State := {
  self : Self;
  events : list Event;              (* oldest first *)
  looks : nat;                      (* looks at the stop event so far *)
}.

Definition M (A : Type) : Type := Host → State → result A * State.

Global Instance M_ret : MRet M := λ A a _ st, (Ok a, st).
Global Instance M_bind : MBind M := λ A B k m h st,
  match m h st with
  | (Ok a, st') => k a h st'
  | (Raise e, st') => (Raise e, st')
  end.

Definition raise {A} (e : exn) : M A := λ _ st, (Raise e, st).

Definition lift {A} (r : result A) : M A := λ _ st, (r, st).

Definition emit (ev : Event) : M unit := λ _ st,
  (Ok (), {| self := self st; events := events st ++ [ev]; looks := looks st |}).

Definition log (level : LogLevel) (msg : string) : M unit :=
  emit (Log level msg None).

Definition log_exc (level : LogLevel) (msg : string) (e : exn) : M unit :=
  emit (Log level msg (Some e)).

(** A command to the host; a refused one raises. *)
Definition call (c : Command) : M unit := λ h st,
  let ok := accepts h c in
  let st' := {| self := self st; events := events st ++ [Call c ok];
                looks := looks st |} in
  (if ok then Ok () else Raise HostError, st').

(** [indigo.devices[id]] *)
Definition get_device (id : Z) : M Device := λ h st,
  (match devices h !! id with Some d => Ok d | None => Raise KeyError end, st).

(** [indigo.variables[id]] *)
Definition get_variable (id : Z) : M IndigoVar := λ h st,
  (match variables h !! id with Some v => Ok v | None => Raise KeyError end, st).

Definition get_self : M Self := λ _ st, (Ok (self st), st).

Definition modify_self (f : Self → Self) : M unit := λ _ st,
  (Ok (), {| self := f (self st); events := events st; looks := looks st |}).

(** One look at the stop event of the running job. *)
Definition look_stop : M bool := λ h st,
  (Ok (stop_seen h (looks st)),
   {| self := self st; events := events st; looks := S (looks st) |}).

(** [try: body  except <classes> as e: handler e] *)
Definition try_catch {A} (body : M A) (catches : exn → bool)
    (handler : exn → M A) : M A := λ h st,
  match body h st with
  | (Raise e, st') => if catches e then handler e h st' else (Raise e, st')
  | r => r
  end.

(** [except Exception] and a bare [except:] catch every modelled class. *)
Definition any_exception (e : exn) : bool := true.

(** [try: body  finally: cleanup] *)
Definition try_finally {A} (body : M A) (cleanup : M unit) : M A := λ h st,
  let '(r, st') := body h st in
  match cleanup h st' with
  | (Ok _, st'') => (r, st'')
  | (Raise e, st'') => (Raise e, st'')
  end.

(** [with lock: body] *)
Definition with_lock {A} (l : Lock) (body : M A) : M A :=
  emit (Acquire l);; try_finally body (emit (Release l)).

(** [for x in xs: body x] *)
Fixpoint for_each {A} (xs : list A) (body : A → M unit) : M unit :=
  match xs with
  | [] => mret ()
  | x :: xs' => body x;; for_each xs' body
  end.

(** A [for] loop whose body may [return r]: [Some r] leaves the loop and the
    function. *)
Fixpoint for_return {A R} (xs : list A) (body : A → M (option R))
    : M (option R) :=
  match xs with
  | [] => mret None
  | x :: xs' =>
      r ← body x;
      match r with
      | Some _ => mret r
      | None => for_return xs' body
      end
  end.

(** Setters of the plugin fields. *)
Definition set_last_variable_values (m : gmap string string) (s : Self) :=
  {| last_variable_values := m;
     last_device_brightness := last_device_brightness s;
     flash_threads := flash_threads s;
     flash_stop_events := flash_stop_events s;
     flashing_devices := flashing_devices s |}.

Definition set_last_device_brightness (m : gmap Z Z) (s : Self) :=
  {| last_variable_values := last_variable_values s;
     last_device_brightness := m;
     flash_threads := flash_threads s;
     flash_stop_events := flash_stop_events s;
     flashing_devices := flashing_devices s |}.

Definition set_flash_threads (m : gset string) (s : Self) :=
  {| last_variable_values := last_variable_values s;
     last_device_brightness := last_device_brightness s;
     flash_threads := m;
     flash_stop_events := flash_stop_events s;
     flashing_devices := flashing_devices s |}.

Definition set_flash_stop_events (m : gset string) (s : Self) :=
  {| last_variable_values := last_variable_values s;
     last_device_brightness := last_device_brightness s;
     flash_threads := flash_threads s;
     flash_stop_events := m;
     flashing_devices := flashing_devices s |}.

Definition set_flashing_devices (m : gset Z) (s : Self) :=
  {| last_variable_values := last_variable_values s;
     last_device_brightness := last_device_brightness s;
     flash_threads := flash_threads s;
     flash_stop_events := flash_stop_events s;
     flashing_devices := m |}.

End Indigo.

(** ** The plugin: scale converter *)

Module Plugin.
Import Py Indigo.

(** The device with another property bag. *)
Definition with_props (props : gmap string pyval) (dev : Device) : Device :=
  {| dev_id := dev_id dev; dev_name := dev_name dev;
     deviceTypeId := deviceTypeId dev; pluginId := pluginId dev;
     class_name := class_name dev; brightness := brightness dev;
     onState := onState dev; speedLevel := speedLevel dev;
     hvacMode := hvacMode dev; fanMode := fanMode dev;
     coolSetpoint := coolSetpoint dev; heatSetpoint := heatSetpoint dev;
     states := states dev; pluginProps := props |}.

(** [dev.pluginProps.get(key, default)] *)
Definition props_get (dev : Device) (key : string) (dflt : pyval) : pyval :=
  default dflt (pluginProps dev !! key).

(** [Plugin._get_scale_params] *)
Definition _get_scale_params (dev : Device) : M (pyfloat * pyfloat * bool) :=
  try_catch
    (let scale_min_str := props_get dev "scaleMin" (PStr "0") in
     let scale_max_str := props_get dev "scaleMax" (PStr "100") in
     scale_min ← lift (py_float scale_min_str);
     scale_max ← lift (py_float scale_max_str);
     if py_ge scale_min scale_max then
       log Warning ("Invalid scale range for " +:+ dev_name dev
                    +:+ ", using defaults 0-100");;
       mret (Fin 0, Fin 100, false)
     else
       in_min ← lift (py_contains "." scale_min_str);
       in_max ← lift (py_contains "." scale_max_str);
       let has_decimal_in_string := in_min || in_max in
       let scale_range := py_sub scale_max scale_min in
       let is_small_range := py_le scale_range (float_of_int 10) in
       let is_float_scale := has_decimal_in_string || is_small_range in
       mret (scale_min, scale_max, is_float_scale))
    (λ e, is_ValueError e || is_TypeError e)
    (λ _, mret (Fin 0, Fin 100, false)).

(** [Plugin._variable_to_brightness]: (brightness, was_clamped,
    clamped_value), the first and the last [None] for a value that is no
    number. *)
Definition _variable_to_brightness (var_value : pyval)
    (scale_min scale_max : pyfloat) : result (option Z * bool * option pyfloat) :=
  try_except
    (value ← py_float var_value;
     let '(value, was_clamped) :=
       if py_lt value scale_min then (scale_min, true)
       else if py_gt value scale_max then (scale_max, true)
       else (value, false) in
     let scale_range := py_sub scale_max scale_min in
     ratio ← py_truediv (py_sub value scale_min) scale_range;
     let brightness := py_mul ratio (float_of_int 100) in
     rounded ← py_round brightness;
     mret (Some rounded, was_clamped, Some value))
    (λ e, is_ValueError e || is_TypeError e)
    (λ _, mret (None, false, None)).

(** [Plugin._brightness_to_variable] *)
Definition _brightness_to_variable (brightness : Z)
    (scale_min scale_max : pyfloat) (is_float_scale : bool) : result string :=
  let brightness := Z.max 0 (Z.min 100 brightness) in
  let scale_range := py_sub scale_max scale_min in
  ratio ← py_truediv (float_of_int brightness) (Fin 100);
  let value := py_add (py_mul ratio scale_range) scale_min in
  if is_float_scale then
    if py_le scale_range (float_of_int 1) then
      mret (str_of_float (py_round_ndigits value 2))
    else if py_le scale_range (float_of_int 10) then
      mret (str_of_float (py_round_ndigits value 2))
    else
      mret (str_of_float (py_round_ndigits value 1))
  else
    rounded ← py_round value;
    mret (str_of_int rounded).

(** The clamped level and the rescaled value of [_brightness_to_variable]
    in exact arithmetic. *)
Definition clamp_level (brightness : Z) : Z := Z.max 0 (Z.min 100 brightness).

Definition rescaled (brightness : Z) (mn mx : Q) : Q :=
  (inject_Z (clamp_level brightness) / 100 * (mx - mn) + mn)%Q.

(** The digits [_brightness_to_variable] rounds a float scale to. *)
Definition scale_digits (mn mx : Q) : nat :=
  if Qle_bool (mx - mn) 10 then 2%nat else 1%nat.

(** The distance between two neighbouring texts of a scale: 1 on an
    integer scale, 0.01 or 0.1 on a float scale. *)
Definition render_step (mn mx : Q) (isf : bool) : Q :=
  if isf then 1 # Z.to_pos (pow10 (scale_digits mn mx)) else 1.

(** A device whose two scale properties are the given strings. *)
Definition scaled (scale_min_str scale_max_str : string) (dev : Device) : Device :=
  with_props (<["scaleMin" := PStr scale_min_str]>
                (<["scaleMax" := PStr scale_max_str]> (pluginProps dev))) dev.

(** What [_get_scale_params] returns on two strings, by the sentence of the
    specification. *)
Definition scale_params_of (smin smax : string) : pyfloat * pyfloat * bool :=
  match float_of_string smin, float_of_string smax with
  | Ok mn, Ok mx =>
      if py_ge mn mx then (Fin 0, Fin 100, false)
      else (mn, mx,
            contains_char "." smin || contains_char "." smax
            || py_le (py_sub mx mn) (Fin 10))
  | _, _ => (Fin 0, Fin 100, false)
  end.

End Plugin.

(** ** The plugin: scene snapshots *)

Module Scene.
Import Py Indigo Plugin.

(** [s.replace(old, '')] for a non-empty [old]: every occurrence goes, left
    to right; [skip] counts the characters of an occurrence still to drop. *)
Fixpoint remove_all (old s : string) (skip : nat) : string :=
  match s with
  | "" => ""
  | String c s' =>
      match skip with
      | S k => remove_all old s' k
      | O => if String.prefix old s
             then remove_all old s' (String.length old - 1)
             else String c (remove_all old s' 0)
      end
  end.

(** [dev.attribute]: an attribute the class lacks raises. *)
Definition attr {A} (a : option A) : M A :=
  match a with Some x => mret x | None => raise AttributeError end.

(** [d[k]] on a dict the plugin built itself. *)
Definition dict_item (d : list (string * pyval)) (k : string) : result pyval :=
  match dict_get k d with Some v => Ok v | None => Raise KeyError end.

(** The first state key that is [position] in any letter case. *)
Definition position_key (dev : Device) : option (string * pyval) :=
  find (λ kv, bool_decide (lower_string kv.1 = "position")) (states dev).

(** [Plugin._get_device_scene_state] *)
Definition _get_device_scene_state (dev : Device) : M (list (string * pyval)) :=
  let class_name := class_name dev in
  if bool_decide (class_name = "DimmerDevice") then
    b ← attr (brightness dev);
    on ← attr (onState dev);
    mret [("type", PStr "dimmer"); ("brightness", PInt b); ("onState", PBool on)]
  else if bool_decide (class_name = "RelayDevice") then
    on ← attr (onState dev);
    mret [("type", PStr "relay"); ("onState", PBool on)]
  else if bool_decide (class_name = "ThermostatDevice") then
    hvac ← attr (hvacMode dev);
    fan ← attr (fanMode dev);
    cool ← attr (coolSetpoint dev);
    heat ← attr (heatSetpoint dev);
    mret [("type", PStr "thermostat"); ("hvacMode", PInt hvac);
          ("fanMode", PInt fan); ("coolSetpoint", PFloat cool);
          ("heatSetpoint", PFloat heat)]
  else if bool_decide (class_name = "SpeedControlDevice") then
    let speed := default 0 (speedLevel dev) in
    on ← attr (onState dev);
    mret [("type", PStr "fan"); ("speedLevel", PInt speed); ("onState", PBool on)]
  else
    match position_key dev with
    | Some (_, v) => mret [("type", PStr "blind"); ("position", v)]
    | None => mret []
    end.

(** [json.loads(v)]: only a [str] is a document. *)
Definition json_loads (v : pyval) : result pyval :=
  match v with
  | PStr s => Json.loads s
  | _ => Raise TypeError
  end.

(** [v.items()] *)
Definition py_items (v : pyval) : result (list (string * pyval)) :=
  match v with
  | PDict d => Ok d
  | _ => Raise AttributeError
  end.

(** [saved[k] != current[k]], for the fields compared as they are. *)
Definition field_differs (saved_state : pyval) (current_state : list (string * pyval))
    (k : string) : result bool :=
  s ← py_getitem saved_state k;
  c ← dict_item current_state k;
  mret (negb (py_eq s c)).

(** The device entry of the loop of [_check_scene_match], after the device
    was found: [Some false] stands for [return False], [None] for going on
    with the next entry. *)
Definition compare_device (saved_state : pyval)
    (current_state : list (string * pyval)) : result (option bool) :=
  ty ← py_getitem saved_state "type";
  if negb (py_eq ty (default PNone (dict_get "type" current_state))) then
    mret (Some false)
  else if py_eq ty (PStr "dimmer") then
    d ← field_differs saved_state current_state "brightness";
    if (d : bool) then mret (Some false) else
    d ← field_differs saved_state current_state "onState";
    if (d : bool) then mret (Some false) else mret None
  else if py_eq ty (PStr "relay") then
    d ← field_differs saved_state current_state "onState";
    if (d : bool) then mret (Some false) else mret None
  else if py_eq ty (PStr "thermostat") then
    sh ← py_getitem saved_state "hvacMode";
    ch ← (dict_item current_state "hvacMode" ≫= py_int);
    if negb (py_eq sh (PInt ch)) then mret (Some false) else
    sf ← py_getitem saved_state "fanMode";
    cf ← (dict_item current_state "fanMode" ≫= py_int);
    if negb (py_eq sf (PInt cf)) then mret (Some false) else
    sc ← py_getitem saved_state "coolSetpoint";
    cc ← (dict_item current_state "coolSetpoint" ≫= py_float);
    if negb (py_eq sc (PFloat cc)) then mret (Some false) else
    sh ← py_getitem saved_state "heatSetpoint";
    ch ← (dict_item current_state "heatSetpoint" ≫= py_float);
    if negb (py_eq sh (PFloat ch)) then mret (Some false) else mret None
  else if py_eq ty (PStr "fan") then
    d ← field_differs saved_state current_state "speedLevel";
    if (d : bool) then mret (Some false) else
    d ← field_differs saved_state current_state "onState";
    if (d : bool) then mret (Some false) else mret None
  else if py_eq ty (PStr "blind") then
    s ← py_getitem saved_state "position";
    if negb (py_eq s (default PNone (dict_get "position" current_state)))
    then mret (Some false) else mret None
  else mret None.

Definition invalid_saved_state (scene_dev : Device) : string :=
  "Scene '" +:+ dev_name scene_dev +:+
  "': Invalid saved state data. Please save the scene state again.".

(** One entry of the loop of [_check_scene_match]. *)
Definition check_item (scene_dev : Device) (item : string * pyval)
    : M (option bool) :=
  let '(item_key, saved_state) := item in
  if String.prefix "device_" item_key then
    let dev_id_str := remove_all "device_" item_key 0 in
    found ← try_catch
      (dev_id ← lift (int_of_string dev_id_str);
       dev ← get_device dev_id;
       mret (Some dev))
      any_exception
      (λ _, log Warning ("Scene '" +:+ dev_name scene_dev +:+
                         "': Monitored device ID " +:+ dev_id_str +:+
                         " no longer exists. Please reconfigure the scene.");;
            mret None);
    match found with
    | None => mret (Some false)
    | Some dev =>
        current_state ← _get_device_scene_state dev;
        lift (compare_device saved_state current_state)
    end
  else if String.prefix "variable_" item_key then
    let var_id_str := remove_all "variable_" item_key 0 in
    try_catch
      (var_id ← lift (int_of_string var_id_str);
       var ← get_variable var_id;
       let current_value := var_value var in
       v ← lift (py_getitem saved_state "value");
       let saved_value := py_str v in
       log Debug ("Checking variable '" +:+ var_name var +:+ "': saved='"
                  +:+ saved_value +:+ "', current='" +:+ current_value +:+ "'");;
       if bool_decide (saved_value ≠ current_value)
       then mret (Some false) else mret None)
      any_exception
      (λ _, log Warning ("Scene '" +:+ dev_name scene_dev +:+
                         "': Monitored variable ID " +:+ var_id_str +:+
                         " no longer exists. Please reconfigure the scene.");;
            mret (Some false))
  else mret None.

(** [Plugin._check_scene_match] *)
Definition _check_scene_match (scene_dev : Device) : M bool :=
  try_catch
    (let saved_states_str := props_get scene_dev "savedStates" (PStr "") in
     if negb (py_truthy saved_states_str) then mret false
     else
       parsed ← try_catch
         (saved_states ← lift (json_loads saved_states_str);
          mret (Some saved_states))
         is_ValueError
         (λ _, log Error (invalid_saved_state scene_dev);; mret None);
       match parsed with
       | None => mret false
       | Some saved_states =>
           items ← lift (py_items saved_states);
           r ← for_return items (check_item scene_dev);
           mret (default true r)
       end)
    any_exception
    (λ e, log_exc Error ("Error checking scene match for "
                         +:+ dev_name scene_dev +:+ ": ") e;;
          mret false).

(** [indigo.kHvacMode(v)], [indigo.kFanMode(v)]: the enumeration value of an
    integer. *)
Definition enum_of (v : pyval) : result Z :=
  match v with
  | PInt z => Ok z
  | PBool b => Ok (if b then 1 else 0)
  | _ => Raise TypeError
  end.

(** [self.logger.error(traceback.format_exc())] *)
Definition log_traceback (e : exn) : M unit :=
  log_exc Error "Traceback (most recent call last):" e.

(** The device entry of the loop of [_apply_scene_state]. *)
Definition apply_device (dev_id : Z) (saved_state : pyval) : M unit :=
  ty ← lift (py_getitem saved_state "type");
  if py_eq ty (PStr "dimmer") then
    b ← lift (py_getitem saved_state "brightness");
    call (SetBrightness dev_id b)
  else if py_eq ty (PStr "relay") then
    on ← lift (py_getitem saved_state "onState");
    if py_truthy on then call (TurnOn dev_id) else call (TurnOff dev_id)
  else if py_eq ty (PStr "thermostat") then
    hvac_mode ← lift (py_getitem saved_state "hvacMode" ≫= enum_of);
    fan_mode ← lift (py_getitem saved_state "fanMode" ≫= enum_of);
    call (SetHvacMode dev_id hvac_mode);;
    call (SetFanMode dev_id fan_mode);;
    cool ← lift (py_getitem saved_state "coolSetpoint");
    call (SetCoolSetpoint dev_id cool);;
    heat ← lift (py_getitem saved_state "heatSetpoint");
    call (SetHeatSetpoint dev_id heat)
  else if py_eq ty (PStr "fan") then
    speed ← lift (py_getitem saved_state "speedLevel");
    call (SetSpeedLevel dev_id speed)
  else if py_eq ty (PStr "blind") then
    position ← lift (py_getitem saved_state "position");
    call (SetBrightness dev_id position)
  else mret ().

(** One entry of the loop of [_apply_scene_state]. *)
Definition apply_item (item : string * pyval) : M unit :=
  let '(item_key, saved_state) := item in
  if String.prefix "device_" item_key then
    let dev_id_str := remove_all "device_" item_key 0 in
    try_catch
      (dev_id ← lift (int_of_string dev_id_str);
       dev ← get_device dev_id;
       apply_device dev_id saved_state)
      any_exception
      (λ e, log_exc Error ("Error applying state to device "
                           +:+ dev_id_str +:+ ": ") e)
  else if String.prefix "variable_" item_key then
    let var_id_str := remove_all "variable_" item_key 0 in
    try_catch
      (var_id ← lift (int_of_string var_id_str);
       var ← get_variable var_id;
       v ← lift (py_getitem saved_state "value");
       log Info ("Setting variable '" +:+ var_name var +:+ "' to '"
                 +:+ py_str v +:+ "'");;
       call (UpdateValue var_id v))
      any_exception
      (λ e, log_exc Error ("Error applying state to variable "
                           +:+ var_id_str +:+ ": ") e;;
            log_traceback e)
  else mret ().

(** [Plugin._apply_scene_state] *)
Definition _apply_scene_state (scene_dev : Device) : M unit :=
  try_catch
    (let saved_states_str := props_get scene_dev "savedStates" (PStr "") in
     if negb (py_truthy saved_states_str) then
       log Warning ("Scene '" +:+ dev_name scene_dev +:+ "' has no saved state")
     else
       parsed ← try_catch
         (saved_states ← lift (json_loads saved_states_str);
          mret (Some saved_states))
         is_ValueError
         (λ _, log Error (invalid_saved_state scene_dev);; mret None);
       match parsed with
       | None => mret ()
       | Some saved_states =>
           items ← lift (py_items saved_states);
           for_each items apply_item
       end)
    any_exception
    (λ e, log_exc Error ("Error applying scene state for "
                         +:+ dev_name scene_dev +:+ ": ") e).

(** The device with the given saved snapshot text. *)
Definition with_saved (s : string) (dev : Device) : Device :=
  with_props (<["savedStates" := PStr s]> (pluginProps dev)) dev.

(** The state after one more event. *)
Definition logged (ev : Event) (st : State) : State :=
  {| self := self st; events := events st ++ [ev]; looks := looks st |}.

(** A small world for examples: a scene device, a dimmer (id 12) and a
    variable (id 7); the host accepts every command. *)
Definition no_device : Device :=
  {| dev_id := 0; dev_name := ""; deviceTypeId := ""; pluginId := "";
     class_name := "Device"; brightness := None; onState := None;
     speedLevel := None; hvacMode := None; fanMode := None;
     coolSetpoint := None; heatSetpoint := None; states := [];
     pluginProps := ∅ |}.

Definition example_scene : Device :=
  {| dev_id := 1; dev_name := "Evening"; deviceTypeId := "SceneDevice";
     pluginId := "com.lighttools"; class_name := "RelayDevice";
     brightness := None; onState := Some false;
     speedLevel := None; hvacMode := None; fanMode := None;
     coolSetpoint := None; heatSetpoint := None;
     states := [("onOffState", PBool false)];
     pluginProps := ∅ |}.

Definition example_dimmer : Device :=
  {| dev_id := 12; dev_name := "Lamp"; deviceTypeId := "dimmer";
     pluginId := "other"; class_name := "DimmerDevice";
     brightness := Some 50; onState := Some true;
     speedLevel := None; hvacMode := None; fanMode := None;
     coolSetpoint := None; heatSetpoint := None;
     states := [("brightnessLevel", PInt 50)];
     pluginProps := ∅ |}.

Definition example_host : Host :=
  {| devices := {[ 1 := example_scene; 12 := example_dimmer ]};
     variables := {[ 7 := {| var_id := 7; var_name := "mode"; var_value := "ON" |} ]};
     accepts := λ _, true;
     stop_seen := λ _, false |}.

Definition initial_state : State :=
  {| self := {| last_variable_values := ∅; last_device_brightness := ∅;
                flash_threads := ∅; flash_stop_events := ∅;
                flashing_devices := ∅ |};
     events := []; looks := 0 |}.

End Scene.

(** ** The plugin: device start *)

Module Lifecycle.
Import Py Relay Indigo Plugin Scene.

(** [hasattr(v, '__iter__') and not isinstance(v, str)] *)
Definition iterable_not_str (v : pyval) : bool :=
  match v with PList _ | PDict _ => true | _ => false end.

(** [list(v)[0]] *)
Definition first_item (v : pyval) : result pyval :=
  match v with
  | PList (x :: _) => Ok x
  | PDict ((k, _) :: _) => Ok (PStr k)
  | PList [] | PDict [] => Raise IndexError
  | _ => Raise TypeError
  end.

(** [Plugin._extract_var_id] *)
Definition _extract_var_id (var_id_str : pyval) : result (option Z) :=
  if negb (py_truthy var_id_str) then mret None
  else
    unpacked ←
      (if iterable_not_str var_id_str then
         try_except
           (v ← (if py_truthy var_id_str then first_item var_id_str
                 else mret (PStr ""));
            mret (Some v))
           (λ e, bool_decide (e = IndexError) || is_TypeError e)
           (λ _, mret None)
       else mret (Some var_id_str));
    match unpacked with
    | None => mret None
    | Some var_id_str =>
        if negb (py_truthy var_id_str) then mret None
        else try_except (Some <$> py_int var_id_str)
               (λ e, is_ValueError e || is_TypeError e)
               (λ _, mret None)
    end.

(** [Plugin._get_relay_states] *)
Definition _get_relay_states (relay1_id relay2_id : pyval) : M (bool * bool) :=
  try_catch
    (id1 ← lift (py_int relay1_id);
     relay1 ← get_device id1;
     id2 ← lift (py_int relay2_id);
     relay2 ← get_device id2;
     on1 ← attr (onState relay1);
     on2 ← attr (onState relay2);
     mret (on1, on2))
    any_exception
    (λ e, log_exc Error "Error getting relay states: " e;; mret (false, false)).

(** [f"{dev.id}_{var_id}"] *)
Definition cache_key (dev : Device) (var_id : Z) : string :=
  str_of_int (dev_id dev) +:+ "_" +:+ str_of_int var_id.

(** The dimmer branch of the first [deviceStartComm], inside its [try]. *)
Definition start_dimmer (dev : Device) (var_id : Z) : M unit :=
  var ← get_variable var_id;
  '(scale_min, scale_max, is_float_scale) ← _get_scale_params dev;
  result ← lift (_variable_to_brightness (PStr (var_value var)) scale_min scale_max);
  let '(brightness, was_clamped, clamped_value) :=
    match result with
    | (Some b, wc, cv) => (Some b, wc, cv)
    | (None, _, _) => (None, false, None)
    end in
  '(brightness, var_value', new_var_value) ←
    match brightness with
    | None =>
        log Warning ("Invalid variable value '" +:+ var_value var +:+ "' for "
                     +:+ dev_name dev +:+ ", resetting to minimum");;
        new_var_value ← lift (_brightness_to_variable 0 scale_min scale_max
                                is_float_scale);
        call (UpdateValue var_id (PStr new_var_value));;
        mret (0, None, Some new_var_value)
    | Some b =>
        if was_clamped then
          new_var_value ← lift (_brightness_to_variable b scale_min scale_max
                                  is_float_scale);
          log Warning ("Variable value '" +:+ var_value var
                       +:+ "' out of range for " +:+ dev_name dev
                       +:+ ", correcting to " +:+ new_var_value);;
          call (UpdateValue var_id (PStr new_var_value));;
          mret (b, Some new_var_value, Some new_var_value)
        else mret (b, Some (var_value var), None)
    end;
  (* var_value if not was_clamped else new_var_value: a local that was never
     assigned raises *)
  cached ← (if negb was_clamped
            then match var_value' with
                 | Some v => mret v
                 | None => raise UnboundLocalError
                 end
            else match new_var_value with
                 | Some v => mret v
                 | None => raise UnboundLocalError
                 end);
  modify_self (λ s, set_last_variable_values
                      (<[cache_key dev var_id := cached]> (last_variable_values s)) s);;
  modify_self (λ s, set_last_device_brightness
                      (<[dev_id dev := brightness]> (last_device_brightness s)) s);;
  call (UpdateStateOnServer (dev_id dev) "brightnessLevel" (PInt brightness)).

Definition speed_names : list string := ["off"; "low"; "medium"; "high"].

(** The two relay branches of the first [deviceStartComm] share their
    shape; [kind] is the device type. *)
Definition start_relay2 (dev : Device) (kind : string) : M unit :=
  try_catch
    (let relay1_id := default PNone (pluginProps dev !! "relay1Device") in
     let relay2_id := default PNone (pluginProps dev !! "relay2Device") in
     if negb (py_truthy relay1_id) || negb (py_truthy relay2_id) then
       log Warning (kind +:+ " '" +:+ dev_name dev +:+ "' is not fully configured")
     else
       '(relay1_on, relay2_on) ← _get_relay_states relay1_id relay2_id;
       let level := _relay_states_to_level relay1_on relay2_on in
       if bool_decide (kind = "Relay2Dimmer") then
         call (UpdateStateOnServer (dev_id dev) "brightnessLevel" (PInt level));;
         call (UpdateStateOnServer (dev_id dev) "onOffState" (PBool (0 <? level)));;
         log Info ("Relay2Dimmer '" +:+ dev_name dev +:+ "' initialized at "
                   +:+ str_of_int level +:+ "%")
       else
         let speed_index := if 0 <? level then level / 33 else 0 in
         name ← lift (match speed_names !! Z.to_nat speed_index with
                      | Some n => Ok n
                      | None => Raise IndexError
                      end);
         log Info ("Relay2Fan '" +:+ dev_name dev +:+ "' initialized at "
                   +:+ name +:+ " (index: " +:+ str_of_int speed_index +:+ ")"))
    any_exception
    (λ e, log_exc Error ("Error initializing " +:+ kind +:+ " "
                         +:+ dev_name dev +:+ ": ") e).

(** The first [def deviceStartComm] of the class body. *)
Definition deviceStartComm_first (dev : Device) : M unit :=
  if bool_decide (deviceTypeId dev = "myDimmerType") then
    var_id ← lift (_extract_var_id
                     (props_get dev "variableId" (PStr "")));
    match var_id with
    | None | Some 0 => mret ()
    | Some var_id =>
        try_catch (start_dimmer dev var_id) any_exception
          (λ e, log_exc Error "Error in deviceStartComm: " e;; log_traceback e)
    end
  else if bool_decide (deviceTypeId dev = "SceneDevice") then
    try_catch
      (matches ← _check_scene_match dev;
       call (UpdateStateOnServer (dev_id dev) "onOffState" (PBool matches));;
       log Info ("Scene '" +:+ dev_name dev +:+ "' initialized: "
                 +:+ (if (matches : bool) then "ON" else "OFF")))
      any_exception
      (λ e, log_exc Error ("Error initializing scene " +:+ dev_name dev +:+ ": ") e)
  else if bool_decide (deviceTypeId dev = "Relay2Dimmer") then
    start_relay2 dev "Relay2Dimmer"
  else if bool_decide (deviceTypeId dev = "Relay2Fan") then
    start_relay2 dev "Relay2Fan"
  else mret ().

(** The second [def deviceStartComm] of the class body. *)
Definition deviceStartComm_second (dev : Device) : M unit :=
  let props := pluginProps dev in
  if bool_decide (deviceTypeId dev = "myColorType") then
    let props := <["SupportsColor" := PBool true]> props in
    let props := delete "IsLockSubType" props in
    call (ReplacePluginPropsOnServer (dev_id dev) props)
  else if bool_decide (deviceTypeId dev = "myLockType") then
    let props := <["IsLockSubType" := PBool true]> props in
    let props := delete "SupportsColor" props in
    call (ReplacePluginPropsOnServer (dev_id dev) props)
  else mret ().

(** A [def] of the class body: a hook called with a device, or a method
    of another shape. *)
Inductive member :=
  | DeviceHook (f : Device → M unit)
  | Method.

(** The [def] statements of [class Plugin], in source order. *)
Definition class_body : list (string * member) :=
  [("__init__", Method); ("getVariableList", Method);
   ("getDeviceList", Method); ("_extract_var_id", Method);
   ("_get_brightness", Method); ("_get_scale_params", Method);
   ("_variable_to_brightness", Method); ("_brightness_to_variable", Method);
   ("_flash_device_thread", Method); ("flashLamps", Method);
   ("cancelAllFlashes", Method); ("getSceneDeviceList", Method);
   ("getSceneRelayList", Method); ("getSceneThermostatList", Method);
   ("getSceneFanList", Method); ("getSceneBlindList", Method);
   ("getActionGroupList", Method); ("getRelayList", Method);
   ("_get_relay_states", Method); ("_relay_states_to_level", Method);
   ("_level_to_relay_states", Method); ("_apply_relay_states", Method);
   ("_get_device_scene_state", Method); ("saveSceneState", Method);
   ("compareSceneState", Method); ("_check_scene_match", Method);
   ("_apply_scene_state", Method); ("_execute_action_group", Method);
   ("deviceStartComm", DeviceHook deviceStartComm_first);
   ("deviceUpdated", Method); ("actionControlDimmerRelay", Method);
   ("handleDimmerAction", Method); ("actionControlSpeedControl", Method);
   ("actionControlDevice", Method); ("runConcurrentThread", Method);
   ("startup", Method); ("shutdown", Method);
   ("deviceStartComm", DeviceHook deviceStartComm_second);
   ("validateDeviceConfigUi", Method); ("actionControlDevice", Method)].

(** Executing a class body binds each name in turn in the class
    namespace, a dict: a later [def] of a name replaces the earlier one. *)
Definition class_namespace (body : list (string * member))
    : list (string * member) :=
  fold_left (λ ns d, dict_set d.1 d.2 ns) body [].

(** [plugin.deviceStartComm(dev)]: the attribute is looked up in the class
    namespace. *)
Definition deviceStartComm (dev : Device) : M unit :=
  match dict_get "deviceStartComm" (class_namespace class_body) with
  | Some (DeviceHook f) => f dev
  | _ => raise AttributeError
  end.

(** The device with another type id. *)
Definition with_type (type_id : string) (dev : Device) : Device :=
  {| dev_id := dev_id dev; dev_name := dev_name dev;
     deviceTypeId := type_id; pluginId := pluginId dev;
     class_name := class_name dev; brightness := brightness dev;
     onState := onState dev; speedLevel := speedLevel dev;
     hvacMode := hvacMode dev; fanMode := fanMode dev;
     coolSetpoint := coolSetpoint dev; heatSetpoint := heatSetpoint dev;
     states := states dev; pluginProps := pluginProps dev |}.

End Lifecycle.

(** ** The plugin: flash sequencer *)

Module Flash.
Import Py Indigo Plugin Scene.

(** An entry of [original_states]: the dict with the keys type, brightness
    and on. *)
Inductive original_state :=
  | ODimmer (brightness : Z) (on : bool)
  | ORelay (on : bool).

(** One round of the first loop of [_flash_device_thread]. *)
Definition capture_one (original_states : list (string * original_state))
    (dev_id : string) : M (list (string * original_state)) :=
  try_catch
    (id ← lift (int_of_string dev_id);
     dev ← get_device id;
     match brightness dev with
     | Some b =>
         on ← attr (onState dev);
         mret (dict_set dev_id (ODimmer b on) original_states)
     | None =>
         on ← attr (onState dev);
         mret (dict_set dev_id (ORelay on) original_states)
     end)
    any_exception
    (λ e, log_exc Error ("Error getting original state for device "
                         +:+ dev_id +:+ ": ") e;;
          mret original_states).

Fixpoint capture (device_ids : list string)
    (original_states : list (string * original_state))
    : M (list (string * original_state)) :=
  match device_ids with
  | [] => mret original_states
  | dev_id :: rest =>
      original_states ← capture_one original_states dev_id;
      capture rest original_states
  end.

(** [with self.flash_lock: for dev_id in device_ids:
      self.flashing_devices.add(int(dev_id))] *)
Definition mark_flashing (device_ids : list string) : M unit :=
  with_lock flash_lock
    (for_each device_ids (λ dev_id,
       id ← lift (int_of_string dev_id);
       modify_self (λ s, set_flashing_devices ({[ id ]} ∪ flashing_devices s) s))).

(** [self.flash_stop_events.get(thread_id, threading.Event())] followed by
    [is_set()] or [wait(seconds)]: a job without an entry looks at a fresh
    event, which is never set. *)
Definition stop_requested (thread_id : string) : M bool :=
  s ← get_self;
  if bool_decide (thread_id ∈ flash_stop_events s) then look_stop
  else mret false.

(** What a flash or the restore sends to one device. *)
Definition flash_command (dev : Device) (original : original_state)
    (level : Z) (on : bool) : Command :=
  match original with
  | ODimmer _ _ => SetBrightness (dev_id dev) (PInt level)
  | ORelay _ => if on then TurnOn (dev_id dev) else TurnOff (dev_id dev)
  end.

(** The loops that set every target to the max or to the min level. *)
Definition flash_all (original_states : list (string * original_state))
    (level : Z) (on : bool) (which : string) : M unit :=
  for_each original_states (λ '(dev_id, original_state),
    try_catch
      (id ← lift (int_of_string dev_id);
       dev ← get_device id;
       call (flash_command dev original_state level on))
      any_exception
      (λ e, log_exc Error ("Error flashing device " +:+ dev_id +:+ " to "
                           +:+ which +:+ ": ") e)).

(** One iteration of the flash loop; [true] stands for [break]. *)
Definition flash_once (thread_id : string)
    (original_states : list (string * original_state))
    (flash_count max_brightness min_brightness flash_num : Z) : M bool :=
  stop ← stop_requested thread_id;
  if (stop : bool) then
    log Info ("Flash sequence " +:+ thread_id +:+ " cancelled");; mret true
  else
    flash_all original_states max_brightness true "max";;
    stop ← stop_requested thread_id;
    if (stop : bool) then
      log Info ("Flash sequence " +:+ thread_id +:+ " cancelled during flash");;
      mret true
    else
      flash_all original_states min_brightness false "min";;
      if flash_num <? flash_count - 1 then
        stop ← stop_requested thread_id;
        if (stop : bool) then
          log Info ("Flash sequence " +:+ thread_id +:+ " cancelled during gap");;
          mret true
        else mret false
      else mret false.

(** A [for] loop whose body may [break]. *)
Fixpoint for_break {A} (xs : list A) (body : A → M bool) : M unit :=
  match xs with
  | [] => mret ()
  | x :: xs' =>
      stop ← body x;
      if (stop : bool) then mret () else for_break xs' body
  end.

(** [range(n)] *)
Definition range (n : Z) : list Z := map Z.of_nat (seq 0 (Z.to_nat n)).

(** What the restore sends to one device. *)
Definition restore_command (dev : Device) (original : original_state) : Command :=
  match original with
  | ODimmer b _ => SetBrightness (dev_id dev) (PInt b)
  | ORelay on => if on then TurnOn (dev_id dev) else TurnOff (dev_id dev)
  end.

(** The loop after the flashes: every device back to its original state. *)
Definition restore_all (original_states : list (string * original_state))
    : M unit :=
  for_each original_states (λ '(dev_id, original_state),
    try_catch
      (id ← lift (int_of_string dev_id);
       dev ← get_device id;
       call (restore_command dev original_state))
      any_exception
      (λ e, log_exc Error ("Error in final restore for device "
                           +:+ dev_id +:+ ": ") e)).

(** The [finally] block. *)
Definition flash_cleanup (thread_id : string) (device_ids : list string)
    : M unit :=
  with_lock flash_lock
    (for_each device_ids (λ dev_id,
       id ← lift (int_of_string dev_id);
       modify_self (λ s, set_flashing_devices (flashing_devices s ∖ {[ id ]}) s));;
     modify_self (λ s, set_flash_threads (flash_threads s ∖ {[ thread_id ]}) s);;
     modify_self (λ s, set_flash_stop_events
                         (flash_stop_events s ∖ {[ thread_id ]}) s)).

(** [Plugin._flash_device_thread]; the two durations only pace the waits. *)
Definition _flash_device_thread (thread_id : string) (device_ids : list string)
    (flash_count : Z) (flash_duration gap_duration : pyfloat)
    (flash_to_brightness flash_to_minimum : option Z) : M unit :=
  try_finally
    (original_states ← capture device_ids [];
     mark_flashing device_ids;;
     let max_brightness := default 100 flash_to_brightness in
     let min_brightness := default 0 flash_to_minimum in
     for_break (range flash_count)
       (flash_once thread_id original_states flash_count
                   max_brightness min_brightness);;
     restore_all original_states)
    (flash_cleanup thread_id device_ids).

(** The state after more events and more looks at the stop event, the
    plugin fields as they were. *)
Definition advance (evs : list Event) (k : nat) (st : State) : State :=
  {| self := self st; events := events st ++ evs; looks := looks st + k |}.

(** A computation that leaves the plugin fields alone; one that moreover
    never raises. *)
Definition steady {A} (m : M A) : Prop :=
  ∀ h st, ∃ r evs k, m h st = (r, advance evs k st).

Definition safe {A} (m : M A) : Prop :=
  ∀ h st, ∃ a evs k, m h st = (Ok a, advance evs k st).

(** What the capture loop collects, read off the host tables. *)
Definition captured_one (h : Host)
    (original_states : list (string * original_state)) (dev_id : string)
    : list (string * original_state) :=
  match int_of_string dev_id with
  | Ok id =>
      match devices h !! id with
      | Some dev =>
          match onState dev with
          | Some on =>
              dict_set dev_id
                (match brightness dev with
                 | Some b => ODimmer b on
                 | None => ORelay on
                 end) original_states
          | None => original_states
          end
      | None => original_states
      end
  | Raise _ => original_states
  end.

Definition captured (h : Host) (device_ids : list string)
    : list (string * original_state) :=
  fold_left (captured_one h) device_ids [].

(** The state a device had when it was captured. *)
Definition original_of (dev : Device) : option original_state :=
  match onState dev with
  | Some on => Some match brightness dev with
                    | Some b => ODimmer b on
                    | None => ORelay on
                    end
  | None => None
  end.

(** A device id that [int()] accepts. *)
Definition parses (d : string) : Prop := ∃ id, int_of_string d = Ok id.

(** A captured entry that is the state of a device of the host. *)
Definition entry_of_host (h : Host) (entry : string * original_state) : Prop :=
  ∃ id dev, int_of_string entry.1 = Ok id ∧ devices h !! id = Some dev ∧
            original_of dev = Some entry.2.

(** The events of the restore loop: per captured device the restore
    command, followed by an error line when the host refuses it or the
    device cannot be found. *)
Definition restore_events (h : Host)
    (original_states : list (string * original_state)) : list Event :=
  flat_map (λ '(dev_id, original),
    let failed e := Log Error ("Error in final restore for device "
                               +:+ dev_id +:+ ": ") (Some e) in
    match int_of_string dev_id with
    | Ok id =>
        match devices h !! id with
        | Some dev =>
            let c := restore_command dev original in
            if accepts h c then [Call c true]
            else [Call c false; failed HostError]
        | None => [failed KeyError]
        end
    | Raise e => [failed e]
    end) original_states.

(** The integers the device ids denote. *)
Definition parsed_ids (device_ids : list string) : list Z :=
  omap (λ d, Json.to_option (int_of_string d)) device_ids.

(** The plugin fields after a flash job has ended. *)
Definition after_flash (thread_id : string) (device_ids : list string)
    (s : Self) : Self :=
  {| last_variable_values := last_variable_values s;
     last_device_brightness := last_device_brightness s;
     flash_threads := flash_threads s ∖ {[ thread_id ]};
     flash_stop_events := flash_stop_events s ∖ {[ thread_id ]};
     flashing_devices := flashing_devices s ∖ list_to_set (parsed_ids device_ids) |}.

(** A relay for examples, and a host whose stop event is set from the
    given look on. *)
Definition example_relay : Device :=
  {| dev_id := 9; dev_name := "Plug"; deviceTypeId := "relay";
     pluginId := "other"; class_name := "RelayDevice";
     brightness := None; onState := Some false;
     speedLevel := None; hvacMode := None; fanMode := None;
     coolSetpoint := None; heatSetpoint := None;
     states := []; pluginProps := ∅ |}.

Definition flash_host (cancel_at : nat) : Host :=
  {| devices := {[ 9 := example_relay; 12 := example_dimmer ]};
     variables := ∅;
     accepts := λ _, true;
     stop_seen := λ n, (cancel_at <=? n)%nat |}.

Definition flash_state : State :=
  {| self := {| last_variable_values := ∅; last_device_brightness := ∅;
                flash_threads := {[ "flash_1" ]};
                flash_stop_events := {[ "flash_1" ]};
                flashing_devices := ∅ |};
     events := []; looks := 0 |}.

End Flash.

(** ** The clamp in exact arithmetic *)

Module Levels.
Import Py.

(** The value [_variable_to_brightness] keeps after clamping, and the level
    it computes from it, in exact arithmetic. *)
Definition clamped (mn mx r : Q) : Q :=
  if Qltb r mn then mn else if Qltb mx r then mx else r.

Definition level_of (mn mx c : Q) : Z :=
  round_half_even ((c - mn) / (mx - mn) * 100).

End Levels.

(** ** Traces *)

Module Trace.
Import Py Indigo Plugin Scene Flash.

(** On the host [h] the computation keeps the plugin fields, takes no look
    at a stop event, and all its events satisfy [P]; and moreover it never
    raises. *)
Definition emits {A} (h : Host) (P : Event → Prop) (m : M A) : Prop :=
  ∀ st, ∃ r evs, m h st = (r, advance evs 0 st) ∧ Forall P evs.

Definition returns {A} (h : Host) (P : Event → Prop) (m : M A) : Prop :=
  ∀ st, ∃ a evs, m h st = (Ok a, advance evs 0 st) ∧ Forall P evs.

Definition is_log (ev : Event) : Prop :=
  match ev with Log _ _ _ => True | _ => False end.

(** What a command writes to. *)
Inductive target :=
  | DeviceTarget (id : Z)
  | VariableTarget (id : Z).

Definition command_target (c : Command) : target :=
  match c with
  | SetBrightness d _ | TurnOn d | TurnOff d | SetHvacMode d _
  | SetFanMode d _ | SetCoolSetpoint d _ | SetHeatSetpoint d _
  | SetSpeedLevel d _ | UpdateStateOnServer d _ _
  | ReplacePluginPropsOnServer d _ => DeviceTarget d
  | UpdateValue v _ => VariableTarget v
  end.

(** The snapshot key names the target, and the host knows it. *)
Definition names (h : Host) (item_key : string) (t : target) : Prop :=
  match t with
  | DeviceTarget id =>
      String.prefix "device_" item_key = true ∧
      int_of_string (remove_all "device_" item_key 0) = Ok id ∧
      is_Some (devices h !! id)
  | VariableTarget id =>
      String.prefix "variable_" item_key = true ∧
      int_of_string (remove_all "variable_" item_key 0) = Ok id ∧
      is_Some (variables h !! id)
  end.

(** A log line, or a command to something a key of the snapshot names. *)
Definition in_scope (items : list (string * pyval)) (h : Host) (ev : Event)
    : Prop :=
  match ev with
  | Log _ _ _ => True
  | Call c _ => ∃ item, item ∈ items ∧ names h item.1 (command_target c)
  | _ => False
  end.

(** The entries of the saved snapshot of a scene device; none when the
    property is no JSON object. *)
Definition saved_items (scene_dev : Device) : list (string * pyval) :=
  match json_loads (props_get scene_dev "savedStates" (PStr "")) ≫= py_items with
  | Ok items => items
  | Raise _ => []
  end.

(** An entry of a snapshot that records what the host holds now: the key of
    a device with the state [_get_device_scene_state] reads off it (not
    empty, no NaN in it), or the key of a variable with a value whose
    [str()] is the value of the variable. *)
Definition current (h : Host) (item : string * pyval) : Prop :=
  (∃ id dev state,
     item = ("device_" +:+ str_of_int id, PDict state) ∧
     devices h !! id = Some dev ∧
     (∀ st, _get_device_scene_state dev h st = (Ok state, st)) ∧
     state ≠ [] ∧ Forall (λ kv, py_eq kv.2 kv.2 = true) state) ∨
  (∃ id var v,
     item.1 = "variable_" +:+ str_of_int id ∧
     variables h !! id = Some var ∧
     py_getitem item.2 "value" = Ok v ∧ py_str v = var_value var).

(** A snapshot text for examples: the dimmer 12 at 50 and on, the variable
    7 at ON. *)
Definition quoted (s : string) : string :=
  String dquote (s +:+ String dquote "").

Definition example_snapshot : string :=
  "{" +:+ quoted "device_12" +:+ ": {" +:+ quoted "type" +:+ ": "
  +:+ quoted "dimmer" +:+ ", " +:+ quoted "brightness" +:+ ": 50, "
  +:+ quoted "onState" +:+ ": true}, " +:+ quoted "variable_7" +:+ ": {"
  +:+ quoted "type" +:+ ": " +:+ quoted "variable" +:+ ", "
  +:+ quoted "value" +:+ ": " +:+ quoted "ON" +:+ "}}".

End Trace.

(** ** Device callbacks and the polling loop *)

Module Actions.
Import Py Relay Indigo Plugin Scene Lifecycle.

(** [Plugin._get_brightness] *)
Definition _get_brightness (dev : Device) : pyval :=
  match brightness dev with
  | Some b => PInt b
  | None => default (PInt 0) (dict_get "brightnessLevel" (states dev))
  end.

(** The brightness as the integer the caches hold.  Indigo keeps the
    brightness of a dimmer and its brightnessLevel state as integers; a
    state value of another type is outside this model, which stops with
    a [TypeError] there. *)
Definition int_level (v : pyval) : result Z :=
  match v with
  | PInt z => Ok z
  | PBool b => Ok (if b then 1 else 0)
  | _ => Raise TypeError
  end.

(** [indigo.device.turnOn(id)] or [indigo.device.turnOff(id)] *)
Definition switch (id : Z) (on : bool) : Command :=
  if on then TurnOn id else TurnOff id.

(** [Plugin._apply_relay_states] *)
Definition _apply_relay_states (relay1_id relay2_id : pyval)
    (relay1_should_be_on relay2_should_be_on : bool) : M unit :=
  try_catch
    (relay1_id ← lift (py_int relay1_id);
     relay2_id ← lift (py_int relay2_id);
     call (switch relay1_id relay1_should_be_on);;
     call (switch relay2_id relay2_should_be_on))
    any_exception
    (λ e, log_exc Error "Error applying relay states: " e).

(** The target of a thread the action handlers start:
    [apply_with_delay], which sleeps a second and then calls
    [_apply_relay_states] with the values its closure holds.  The thread
    runs beside the handler; the model hands its closure back to the
    caller. *)
Record RelayJob := {
  job_relay1 : pyval;
  job_relay2 : pyval;
  job_relay1_on : bool;
  job_relay2_on : bool;
}.

Definition apply_with_delay (job : RelayJob) : M unit :=
  _apply_relay_states (job_relay1 job) (job_relay2 job)
                      (job_relay1_on job) (job_relay2_on job).

(** [indigo.kDimmerRelayAction], the values the handler tests. *)
Inductive kDimmerRelayAction :=
  | kTurnOn | kTurnOff | kSetBrightness | kBrightenBy | kDimBy
  | kOtherDimmerAction.

(** [indigo.kSpeedControlAction], the values the handler tests. *)
Inductive kSpeedControlAction :=
  | sTurnOn | sTurnOff | sSetSpeedIndex | sIncreaseSpeedIndex
  | sDecreaseSpeedIndex | sOtherSpeedAction.

(** [action.actionValue]: Indigo passes an integer; the handlers also take
    a list and use its first element. *)
Inductive ActionValue :=
  | AInt (z : Z)
  | AList (l : list Z).

(** [value[0] if value else 0] for a list, the value itself otherwise. *)
Definition first_or_zero (v : ActionValue) : Z :=
  match v with
  | AInt z => z
  | AList (z :: _) => z
  | AList [] => 0
  end.

(** The level the dimmer actions show for a request: the request sent
    through [_level_to_relay_states] and back through
    [_relay_states_to_level]. *)
Definition shown_level (level : Z) : Z :=
  let '(relay1_on, relay2_on) := _level_to_relay_states level in
  _relay_states_to_level relay1_on relay2_on.

(** The level a Relay2Dimmer action asks for. *)
Definition target_level (deviceAction : kDimmerRelayAction)
    (actionValue : ActionValue) (current : Z) : option Z :=
  match deviceAction with
  | kTurnOn => Some 100
  | kTurnOff => Some 0
  | kSetBrightness => Some (first_or_zero actionValue)
  | kBrightenBy => Some (Z.min 100 (current + first_or_zero actionValue))
  | kDimBy => Some (Z.max 0 (current - first_or_zero actionValue))
  | kOtherDimmerAction => None
  end.

(** The speed index a Relay2Fan action asks for. *)
Definition target_speed (speedControlAction : kSpeedControlAction)
    (actionValue : ActionValue) (current : Z) : option Z :=
  match speedControlAction with
  | sTurnOn => Some 3
  | sTurnOff => Some 0
  | sSetSpeedIndex => Some (Z.max 0 (Z.min 3 (first_or_zero actionValue)))
  | sIncreaseSpeedIndex => Some (Z.min 3 (current + 1))
  | sDecreaseSpeedIndex => Some (Z.max 0 (current - 1))
  | sOtherSpeedAction => None
  end.

(** [speed_index * 33 if speed_index > 0 else 0] *)
Definition speed_level (speed_index : Z) : Z :=
  if 0 <? speed_index then speed_index * 33 else 0.

(** [level // 33 if level > 0 else 0] *)
Definition speed_index_of (level : Z) : Z :=
  if 0 <? level then level / 33 else 0.

(** [speed_names[i]] *)
Definition speed_name (i : Z) : result string :=
  let i := if i <? 0 then i + 4 else i in
  if i <? 0 then Raise IndexError
  else match speed_names !! Z.to_nat i with
       | Some n => Ok n
       | None => Raise IndexError
       end.

(** [Plugin.handleDimmerAction] *)
Definition handleDimmerAction (dev : Device) (level : pyval) : M unit :=
  var_id ← lift (_extract_var_id (props_get dev "variableId" (PStr "")));
  match var_id with
  | None | Some 0 => mret ()
  | Some var_id =>
      try_catch
        (level ← lift (py_int level);
         let level := Z.max 0 (Z.min 100 level) in
         '(scale_min, scale_max, is_float_scale) ← _get_scale_params dev;
         var_value ← lift (_brightness_to_variable level scale_min scale_max
                             is_float_scale);
         call (UpdateValue var_id (PStr var_value));;
         call (UpdateStateOnServer (dev_id dev) "brightnessLevel" (PInt level));;
         modify_self (λ s, set_last_device_brightness
                             (<[dev_id dev := level]> (last_device_brightness s)) s);;
         modify_self (λ s, set_last_variable_values
                             (<[cache_key dev var_id := var_value]>
                                (last_variable_values s)) s))
        any_exception
        (λ e, log_exc Error "Error in handleDimmerAction: " e)
  end.

Section Handlers.
(** [str()] of the two enumerations, as the host prints them. *)
Variable dimmer_action_str : kDimmerRelayAction → string.

(** The Relay2Dimmer branch of [actionControlDimmerRelay]; the result is
    the thread it starts, if any. *)
Definition control_relay2_dimmer (deviceAction : kDimmerRelayAction)
    (actionValue : ActionValue) (dev : Device) : M (option RelayJob) :=
  log Info ("Handling Relay2Dimmer device: " +:+ dev_name dev);;
  let relay1_id := default PNone (pluginProps dev !! "relay1Device") in
  let relay2_id := default PNone (pluginProps dev !! "relay2Device") in
  log Info ("Relay1: " +:+ py_str relay1_id +:+ ", Relay2: "
            +:+ py_str relay2_id);;
  if negb (py_truthy relay1_id) || negb (py_truthy relay2_id) then
    log Error ("Relay2Dimmer '" +:+ dev_name dev +:+ "' is not fully configured");;
    mret None
  else
    target_level ←
      match deviceAction with
      | kTurnOn => mret (Some 100)
      | kTurnOff => mret (Some 0)
      | kSetBrightness => mret (Some (first_or_zero actionValue))
      | kBrightenBy =>
          current ← attr (brightness dev);
          mret (Some (Z.min 100 (current + first_or_zero actionValue)))
      | kDimBy =>
          current ← attr (brightness dev);
          mret (Some (Z.max 0 (current - first_or_zero actionValue)))
      | kOtherDimmerAction => mret None
      end;
    match target_level with
    | None => mret None
    | Some target_level =>
        let '(relay1_on, relay2_on) := _level_to_relay_states target_level in
        let rounded_level := _relay_states_to_level relay1_on relay2_on in
        log Info ("Relay2Dimmer '" +:+ dev_name dev +:+ "': setting to "
                  +:+ str_of_int rounded_level +:+ "%");;
        call (UpdateStateOnServer (dev_id dev) "brightnessLevel"
                (PInt rounded_level));;
        call (UpdateStateOnServer (dev_id dev) "onOffState"
                (PBool (0 <? rounded_level)));;
        mret (Some {| job_relay1 := relay1_id; job_relay2 := relay2_id;
                      job_relay1_on := relay1_on;
                      job_relay2_on := relay2_on |})
    end.

(** [Plugin.actionControlDimmerRelay] *)
Definition actionControlDimmerRelay (deviceAction : kDimmerRelayAction)
    (actionValue : ActionValue) (dev : Device) : M (option RelayJob) :=
  log Info ("actionControlDimmerRelay called for " +:+ dev_name dev
            +:+ " (type: " +:+ deviceTypeId dev +:+ "), action: "
            +:+ dimmer_action_str deviceAction);;
  if bool_decide (deviceTypeId dev = "Relay2Dimmer") then
    control_relay2_dimmer deviceAction actionValue dev
  else
    match deviceAction with
    | kTurnOn => handleDimmerAction dev (PInt 100)
    | kTurnOff => handleDimmerAction dev (PInt 0)
    | kSetBrightness => handleDimmerAction dev (PInt (first_or_zero actionValue))
    | kBrightenBy =>
        current ← lift (int_level (_get_brightness dev));
        let new_level := Z.min 100 (current + first_or_zero actionValue) in
        handleDimmerAction dev (PInt new_level)
    | kDimBy =>
        current ← lift (int_level (_get_brightness dev));
        let new_level := Z.max 0 (current - first_or_zero actionValue) in
        handleDimmerAction dev (PInt new_level)
    | kOtherDimmerAction => mret ()
    end;;
    mret None.

End Handlers.

(** [dev.states.get('speedIndex', 0)], an integer state. *)
Definition speed_index_state (dev : Device) : result Z :=
  int_level (default (PInt 0) (dict_get "speedIndex" (states dev))).

(** [Plugin.actionControlSpeedControl]; the result is the thread it
    starts, if any. *)
Definition actionControlSpeedControl (speedControlAction : kSpeedControlAction)
    (actionValue : ActionValue) (dev : Device) : M (option RelayJob) :=
  if bool_decide (deviceTypeId dev = "Relay2Fan") then
    let relay1_id := default PNone (pluginProps dev !! "relay1Device") in
    let relay2_id := default PNone (pluginProps dev !! "relay2Device") in
    if negb (py_truthy relay1_id) || negb (py_truthy relay2_id) then
      log Error ("Relay2Fan '" +:+ dev_name dev +:+ "' is not fully configured");;
      mret None
    else
      target_speed_index ←
        match speedControlAction with
        | sTurnOn => mret (Some 3)
        | sTurnOff => mret (Some 0)
        | sSetSpeedIndex =>
            mret (Some (Z.max 0 (Z.min 3 (first_or_zero actionValue))))
        | sIncreaseSpeedIndex =>
            current ← lift (speed_index_state dev);
            mret (Some (Z.min 3 (current + 1)))
        | sDecreaseSpeedIndex =>
            current ← lift (speed_index_state dev);
            mret (Some (Z.max 0 (current - 1)))
        | sOtherSpeedAction => mret None
        end;
      match target_speed_index with
      | None => mret None
      | Some target_speed_index =>
          let level := speed_level target_speed_index in
          name ← lift (speed_name target_speed_index);
          log Info ("Relay2Fan '" +:+ dev_name dev +:+ "': setting to " +:+ name);;
          let '(relay1_on, relay2_on) := _level_to_relay_states level in
          mret (Some {| job_relay1 := relay1_id; job_relay2 := relay2_id;
                        job_relay1_on := relay1_on;
                        job_relay2_on := relay2_on |})
      end
  else mret None.

(** The [try] block of the first part of [deviceUpdated]. *)
Definition update_variable (new_dev : Device) (new_brightness var_id : Z)
    : M unit :=
  try_catch
    ('(scale_min, scale_max, is_float_scale) ← _get_scale_params new_dev;
     var_value ← lift (_brightness_to_variable new_brightness scale_min
                         scale_max is_float_scale);
     call (UpdateValue var_id (PStr var_value));;
     modify_self (λ s, set_last_variable_values
                         (<[cache_key new_dev var_id := var_value]>
                            (last_variable_values s)) s))
    any_exception
    (λ e, log_exc Error "Error updating variable: " e).

(** The first part of [deviceUpdated], for the dimmers of the plugin
    ([plugin_id] is [self.pluginId]); [true] stands for [return]. *)
Definition deviceUpdated_dimmer (plugin_id : string) (new_dev : Device)
    : M bool :=
  if bool_decide (pluginId new_dev = plugin_id)
     && bool_decide (deviceTypeId new_dev = "myDimmerType") then
    s ← get_self;
    if bool_decide (dev_id new_dev ∈ flashing_devices s) then mret true
    else
      new_brightness ← lift (int_level (_get_brightness new_dev));
      let old_brightness :=
        default (-1) (last_device_brightness s !! dev_id new_dev) in
      if bool_decide (new_brightness ≠ old_brightness) then
        modify_self (λ s, set_last_device_brightness
                            (<[dev_id new_dev := new_brightness]>
                               (last_device_brightness s)) s);;
        var_id ← lift (_extract_var_id
                         (props_get new_dev "variableId" (PStr "")));
        match var_id with
        | None | Some 0 => mret true
        | Some var_id =>
            update_variable new_dev new_brightness var_id;; mret false
        end
      else mret false
  else mret false.

(** The body of the loop over the devices of the plugin in the second
    part of [deviceUpdated]. *)
Definition relay2_update (dev new_dev : Device) : M unit :=
  if bool_decide (deviceTypeId dev = "Relay2Dimmer")
     || bool_decide (deviceTypeId dev = "Relay2Fan") then
    let relay1_id := default PNone (pluginProps dev !! "relay1Device") in
    let relay2_id := default PNone (pluginProps dev !! "relay2Device") in
    if existsb (py_eq (PStr (str_of_int (dev_id new_dev))))
               [relay1_id; relay2_id] then
      try_catch
        ('(relay1_on, relay2_on) ← _get_relay_states relay1_id relay2_id;
         let level := _relay_states_to_level relay1_on relay2_on in
         if bool_decide (deviceTypeId dev = "Relay2Dimmer") then
           log Info ("Relay change detected, updating Relay2Dimmer '"
                     +:+ dev_name dev +:+ "' to " +:+ str_of_int level +:+ "%");;
           call (UpdateStateOnServer (dev_id dev) "brightnessLevel" (PInt level));;
           call (UpdateStateOnServer (dev_id dev) "onOffState"
                   (PBool (0 <? level)))
         else
           let speed_index := speed_index_of level in
           name ← lift (speed_name speed_index);
           log Info ("Relay change detected, updating Relay2Fan '"
                     +:+ dev_name dev +:+ "' to " +:+ name);;
           call (UpdateStateOnServer (dev_id dev) "speedIndex" (PInt speed_index));;
           call (UpdateStateOnServer (dev_id dev) "speedLevel" (PInt level));;
           call (UpdateStateOnServer (dev_id dev) "onOffState"
                   (PBool (0 <? level))))
        any_exception
        (λ e, log_exc Error ("Error updating Relay2 device " +:+ dev_name dev
                             +:+ ": ") e)
    else mret ()
  else mret ().

(** [Plugin.deviceUpdated]; [own_devices] is what
    [indigo.devices.iter(filter="self")] yields, in the order of the
    host. *)
Definition deviceUpdated (plugin_id : string) (own_devices : list Device)
    (old_dev new_dev : Device) : M unit :=
  returned ← deviceUpdated_dimmer plugin_id new_dev;
  if (returned : bool) then mret ()
  else if bool_decide (class_name new_dev = "RelayDevice") then
    let unchanged :=
      match onState old_dev, onState new_dev with
      | Some a, Some b => bool_decide (a = b)
      | _, _ => false
      end in
    if unchanged then mret ()
    else
      on ← attr (onState new_dev);
      log Debug ("Relay '" +:+ dev_name new_dev +:+ "' state changed to "
                 +:+ (if (on : bool) then "ON" else "OFF"));;
      for_each own_devices (λ dev, relay2_update dev new_dev)
  else mret ().

(** One round of the first loop of [runConcurrentThread] for a device of
    type myDimmerType, after the variable id was found: the [try] block.
    The value of an Indigo variable is a string. *)
Definition poll_variable (dev : Device) (var_id : Z) : M unit :=
  try_catch
    (var ← get_variable var_id;
     let current_value := var_value var in
     let cache_key := cache_key dev var_id in
     s ← get_self;
     let last_value := last_variable_values s !! cache_key in
     if bool_decide (last_value ≠ Some current_value) then
       '(scale_min, scale_max, is_float_scale) ← _get_scale_params dev;
       result ← lift (_variable_to_brightness (PStr current_value)
                        scale_min scale_max);
       let '(brightness, was_clamped, clamped_value) :=
         match result with
         | (Some b, wc, cv) => (Some b, wc, cv)
         | (None, _, _) => (None, false, None)
         end in
       match brightness with
       | None =>
           current_brightness ← lift (int_level (_get_brightness dev));
           corrected_value ← lift (_brightness_to_variable current_brightness
                                     scale_min scale_max is_float_scale);
           log Warning ("Invalid variable value '" +:+ current_value
                        +:+ "' for " +:+ dev_name dev +:+ ", resetting to "
                        +:+ corrected_value);;
           call (UpdateValue var_id (PStr corrected_value));;
           modify_self (λ s, set_last_variable_values
                               (<[cache_key := corrected_value]>
                                  (last_variable_values s)) s)
       | Some brightness =>
           if was_clamped then
             corrected_value ← lift (_brightness_to_variable brightness
                                       scale_min scale_max is_float_scale);
             log Warning ("Variable value '" +:+ current_value
                          +:+ "' out of range for " +:+ dev_name dev
                          +:+ ", correcting to " +:+ corrected_value);;
             call (UpdateValue var_id (PStr corrected_value));;
             modify_self (λ s, set_last_variable_values
                                 (<[cache_key := corrected_value]>
                                    (last_variable_values s)) s);;
             call (UpdateStateOnServer (dev_id dev) "brightnessLevel"
                     (PInt brightness));;
             modify_self (λ s, set_last_device_brightness
                                 (<[dev_id dev := brightness]>
                                    (last_device_brightness s)) s)
           else
             modify_self (λ s, set_last_variable_values
                                 (<[cache_key := current_value]>
                                    (last_variable_values s)) s);;
             call (UpdateStateOnServer (dev_id dev) "brightnessLevel"
                     (PInt brightness));;
             modify_self (λ s, set_last_device_brightness
                                 (<[dev_id dev := brightness]>
                                    (last_device_brightness s)) s)
       end
     else mret ())
    any_exception
    (λ e, log_exc Error "Error checking variable: " e).

(** One round of the first loop of [runConcurrentThread] for a device of
    type myDimmerType. *)
Definition poll_dimmer (dev : Device) : M unit :=
  var_id ← lift (_extract_var_id (props_get dev "variableId" (PStr "")));
  match var_id with
  | None | Some 0 => mret ()
  | Some var_id => poll_variable dev var_id
  end.

(** A dimmer linked to variable 7 on the scale 0..255, for examples. *)
Definition example_linked : Device :=
  with_type "myDimmerType"
    (with_props {[ "variableId" := PStr "7"; "scaleMin" := PStr "0";
                   "scaleMax" := PStr "255" ]} example_dimmer).

(** A host on which variable 7 holds the given text. *)
Definition linked_host (value : string) : Host :=
  {| devices := {[ 12 := example_linked ]};
     variables := {[ 7 := {| var_id := 7; var_name := "level";
                             var_value := value |} ]};
     accepts := λ _, true;
     stop_seen := λ _, false |}.

End Actions.

(** ** The flash action *)

Module FlashAction.
Import Py Indigo Plugin Scene Lifecycle Flash.

(** The arguments [flashLamps] starts a flash thread with. *)
Record FlashJob := {
  job_thread_id : string;
  job_device_ids : list string;
  job_flash_count : Z;
  job_flash_duration : pyfloat;
  job_gap_duration : pyfloat;
  job_flash_to_brightness : option Z;
  job_flash_to_minimum : option Z;
}.

(** The thread body of a job. *)
Definition run_job (j : FlashJob) : M unit :=
  _flash_device_thread (job_thread_id j) (job_device_ids j)
    (job_flash_count j) (job_flash_duration j) (job_gap_duration j)
    (job_flash_to_brightness j) (job_flash_to_minimum j).

(** [list(device_ids)] for an iterable that is no [str], and a list of one
    item for anything else. *)
Definition as_list (device_ids : pyval) : list pyval :=
  match device_ids with
  | PList l => l
  | PDict d => map (λ kv, PStr kv.1) d
  | v => [v]
  end.

(** One round of the cleaning loop. *)
Definition clean_id (dev_id : pyval) : string :=
  match dev_id with
  | PList [] => ""
  | PList (x :: _) => py_str x
  | _ => py_str dev_id
  end.

(** [v.strip()] *)
Definition py_strip (v : pyval) : result string :=
  match v with
  | PStr s => Ok (strip s)
  | _ => Raise AttributeError
  end.

(** [int(s) if s else None] *)
Definition optional_int (s : string) : result (option Z) :=
  if bool_decide (s = "") then Ok None else Some <$> int_of_string s.

(** [max(0, min(100, x))] *)
Definition percent (x : Z) : Z := Z.max 0 (Z.min 100 x).

(** [[indigo.devices[int(dev_id)].name for dev_id in device_ids]] *)
Fixpoint device_names (device_ids : list string) : M (list string) :=
  match device_ids with
  | [] => mret []
  | dev_id :: rest =>
      id ← lift (int_of_string dev_id);
      dev ← get_device id;
      names ← device_names rest;
      mret (dev_name dev :: names)
  end.

(** The plugin fields once a job is registered. *)
Definition register (thread_id : string) (s : Self) : Self :=
  set_flash_threads ({[ thread_id ]} ∪ flash_threads s)
    (set_flash_stop_events ({[ thread_id ]} ∪ flash_stop_events s) s).

(** [Plugin.flashLamps].  [props] is [pluginAction.props] and [now] the
    reading of [time.time()].  The result is the job whose thread the call
    has started, if any; the thread itself runs as [run_job].  The [try]
    block is written in two parts, split where the thread has been started,
    each under the one handler of the source. *)
Definition flashLamps (props : gmap string pyval) (now : pyfloat)
    : M (option FlashJob) :=
  let handler e :=
    log_exc Error "Error in flashLamps: " e;; log_traceback e in
  started ← try_catch
    (let device_ids := default (PList []) (props !! "deviceList") in
     if negb (py_truthy device_ids) then
       log Error "No devices selected for flashing";; mret None
     else
       let cleaned_device_ids := map clean_id (as_list device_ids) in
       let device_ids :=
         filter (λ d, d ≠ "") cleaned_device_ids in
       if bool_decide (device_ids = []) then
         log Error "No valid devices selected for flashing";; mret None
       else
         flash_count ← lift (py_int (default (PInt 3) (props !! "flashCount")));
         flash_duration ←
           lift (py_float (default (PFloat (Fin 0.5)) (props !! "flashDuration")));
         gap_duration ←
           lift (py_float (default (PFloat (Fin 0.5)) (props !! "gapDuration")));
         flash_to_brightness_str ←
           lift (py_strip (default (PStr "") (props !! "flashToBrightness")));
         flash_to_minimum_str ←
           lift (py_strip (default (PStr "") (props !! "flashToMinimum")));
         flash_to_brightness ← lift (optional_int flash_to_brightness_str);
         flash_to_minimum ← lift (optional_int flash_to_minimum_str);
         let flash_to_brightness := percent <$> flash_to_brightness in
         let flash_to_minimum := percent <$> flash_to_minimum in
         if flash_count <=? 0 then
           log Error "Flash count must be greater than 0";; mret None
         else if py_le flash_duration (Fin 0) || py_lt gap_duration (Fin 0) then
           log Error "Flash and gap duration must be positive";; mret None
         else
           let thread_id := "flash_" +:+ str_of_float now in
           with_lock flash_lock
             (modify_self (λ s, set_flash_stop_events
                                  ({[ thread_id ]} ∪ flash_stop_events s) s);;
              modify_self (λ s, set_flash_threads
                                  ({[ thread_id ]} ∪ flash_threads s) s));;
           mret (Some {| job_thread_id := thread_id;
                         job_device_ids := device_ids;
                         job_flash_count := flash_count;
                         job_flash_duration := flash_duration;
                         job_gap_duration := gap_duration;
                         job_flash_to_brightness := flash_to_brightness;
                         job_flash_to_minimum := flash_to_minimum |}))
    any_exception
    (λ e, handler e;; mret None);
  match started with
  | None => mret None
  | Some job =>
      try_catch
        (names ← device_names (job_device_ids job);
         log Info ("Started flashing "
                   +:+ str_of_int (Z.of_nat (length (job_device_ids job)))
                   +:+ " device(s): " +:+ join_comma names
                   +:+ " (" +:+ str_of_int (job_flash_count job)
                   +:+ " flashes, " +:+ str_of_float (job_flash_duration job)
                   +:+ "s duration, " +:+ str_of_float (job_gap_duration job)
                   +:+ "s gap)"))
        any_exception handler;;
      mret (Some job)
  end.

(** What holds of a job that [flashLamps] starts at the clock reading
    [now]. *)
Definition valid_job (now : pyfloat) (j : FlashJob) : Prop :=
  job_thread_id j = "flash_" +:+ str_of_float now ∧
  0 < job_flash_count j ∧
  job_device_ids j ≠ [] ∧
  Forall (λ d, d ≠ "") (job_device_ids j) ∧
  py_le (job_flash_duration j) (Fin 0) = false ∧
  py_lt (job_gap_duration j) (Fin 0) = false ∧
  (∀ b, job_flash_to_brightness j = Some b → 0 ≤ b ≤ 100) ∧
  (∀ m, job_flash_to_minimum j = Some m → 0 ≤ m ≤ 100).

(** The properties of an action: one lamp with a name instead of an id. *)
Definition named_lamp_props : gmap string pyval :=
  {[ "deviceList" := PList [PStr "lamp"] ]}.

(** The properties of an action on the two devices of [flash_host]. *)
Definition two_lamp_props : gmap string pyval :=
  {[ "deviceList" := PList [PStr "9"; PStr "12"];
     "flashCount" := PStr "2";
     "flashToBrightness" := PStr " 250 " ]}.

End FlashAction.

(** ** json.dumps *)

Module Dumps.
Import Py Json.

(** The code points of a string, read off its UTF-8 bytes; [pending] counts
    the continuation bytes still to come and [acc] holds the bits so far. *)
Fixpoint code_points (s : string) (pending : nat) (acc : N) : list N :=
  match s with
  | "" => []
  | String c s' =>
      let n := N_of_ascii c in
      match pending with
      | O =>
          if (n <? 128)%N then n :: code_points s' 0 0
          else if (n <? 224)%N then code_points s' 1 (n - 192)%N
          else if (n <? 240)%N then code_points s' 2 (n - 224)%N
          else code_points s' 3 (n - 240)%N
      | S O => (64 * acc + n mod 64)%N :: code_points s' 0 0
      | S p => code_points s' p (64 * acc + n mod 64)%N
      end
  end.

(** ['{0:04x}'.format(n)] for a 16-bit [n]. *)
Definition hex4 (n : N) : string :=
  String (hex_digit (n / 4096 mod 16)) (String (hex_digit (n / 256 mod 16))
    (String (hex_digit (n / 16 mod 16)) (String (hex_digit (n mod 16)) ""))).

(** What [json.encoder.py_encode_basestring_ascii] writes for one code
    point: the quote and the backslash escaped, the printable ASCII
    characters as they are, five control characters by their letter, every
    other code point as [\uXXXX], above the basic plane as a surrogate
    pair. *)
Definition escape (cp : N) : string :=
  if (cp =? 34)%N then String "\" (String dquote "")
  else if (cp =? 92)%N then "\\"
  else if (cp =? 8)%N then "\b"
  else if (cp =? 12)%N then "\f"
  else if (cp =? 10)%N then "\n"
  else if (cp =? 13)%N then "\r"
  else if (cp =? 9)%N then "\t"
  else if ((32 <=? cp) && (cp <=? 126))%N then String (ascii_of_N cp) ""
  else if (cp <? 65536)%N then "\u" +:+ hex4 cp
  else
    let n := (cp - 65536)%N in
    "\u" +:+ hex4 (55296 + n / 1024 mod 1024) +:+
    "\u" +:+ hex4 (56320 + n mod 1024).

Definition encode_string (s : string) : string :=
  String dquote
    (fold_right (λ cp t, escape cp +:+ t) (String dquote "")
       (code_points s 0 0)).

(** [float.__repr__], with the three names JSON has no number for. *)
Definition float_text (x : pyfloat) : string :=
  match x with
  | NaN => "NaN"
  | PInf => "Infinity"
  | NInf => "-Infinity"
  | _ => str_of_float x
  end.

(** [json.dumps(v)] with the default arguments. *)
Fixpoint dumps (v : pyval) : string :=
  match v with
  | PNone => "null"
  | PBool b => if b then "true" else "false"
  | PInt z => str_of_int z
  | PFloat x => float_text x
  | PStr s => encode_string s
  | PList l => "[" +:+ join_comma (map dumps l) +:+ "]"
  | PDict d =>
      "{" +:+ join_comma (map (λ kv, encode_string kv.1 +:+ ": " +:+ dumps kv.2) d)
          +:+ "}"
  end.

(** A string of ASCII characters only. *)
Definition ascii_text (s : string) : bool :=
  string_forall (λ c, (N_of_ascii c <? 128)%N) s.

(** A value without a float, with ASCII text only, and with no key twice
    in a dict. *)
Fixpoint simple (v : pyval) : bool :=
  match v with
  | PNone | PBool _ | PInt _ => true
  | PFloat _ => false
  | PStr s => ascii_text s
  | PList l => forallb simple l
  | PDict d =>
      forallb (λ kv, ascii_text kv.1 && simple kv.2) d
      && bool_decide (NoDup d.*1)
  end.

(** The tokens of the text of a value. *)
Definition separated (groups : list (list token)) : list token :=
  match groups with
  | [] => []
  | g :: gs => g ++ flat_map (λ g', TComma :: g') gs
  end.

Fixpoint tokens (v : pyval) : list token :=
  match v with
  | PStr s => [TString s]
  | PList l => TLBracket :: separated (map tokens l) ++ [TRBracket]
  | PDict d =>
      TLBrace
      :: separated (map (λ kv, TString kv.1 :: TColon :: tokens kv.2) d)
      ++ [TRBrace]
  | _ => [TAtom (dumps v)]
  end.

(** What may follow a number or a literal name: the end of the text, or a
    character that is not part of such a word. *)
Definition follows (rest : string) : bool :=
  match rest with
  | "" => true
  | String c _ => negb (is_atom_char c)
  end.

(** A parser state that takes a value next and then holds it on [stack];
    a value whose tokens the parser turns into the value. *)
Definition expects (st : parse_state) (stack : list frame) : Prop :=
  ∀ t, t ≠ TRBracket → parse_step st t = value_token t stack.

Definition parses_to (v : pyval) : Prop :=
  ∀ ts st stack, expects st stack →
    parse_tokens (tokens v ++ ts) st = parse_tokens ts (PAfter v stack).

(** The entries of [d] written into [acc] one after the other. *)
Definition set_all (d acc : list (string * pyval)) : list (string * pyval) :=
  fold_left (λ a kv, dict_set kv.1 kv.2 a) d acc.

End Dumps.

(** ** Saving a scene *)

Module Save.
Import Py Json Indigo Plugin Scene Lifecycle Flash Trace FlashAction Dumps.

(** [dev_id[0] if dev_id else None] for a list, the item itself
    otherwise. *)
Definition first_or_none (v : pyval) : pyval :=
  match v with
  | PList [] => PNone
  | PList (x :: _) => x
  | _ => v
  end.

(** [not item or item == ""]: the items the loops skip. *)
Definition skipped (item : pyval) : bool :=
  negb (py_truthy item) || py_eq item (PStr "").

(** [s.split('.')[-1]] *)
Fixpoint last_segment (s : string) (rev_acc : string) : string :=
  match s with
  | "" => String.rev rev_acc
  | String c s' =>
      if bool_decide (c = "."%char) then last_segment s' ""
      else last_segment s' (String c rev_acc)
  end.

(** ["=" * 60] *)
Definition rule : string :=
  "============================================================".

Section Callback.
(** [str()] of a value of [indigo.kHvacMode] and of [indigo.kFanMode]. *)
Variable hvac_mode_str fan_mode_str : Z → string.

(** The log line for a saved device. *)
Definition log_saved (dev : Device) (state : list (string * pyval)) : M unit :=
  ty ← lift (dict_item state "type");
  if py_eq ty (PStr "dimmer") then
    b ← lift (dict_item state "brightness");
    log Info ("  Device: " +:+ dev_name dev +:+ ": Brightness=" +:+ py_str b
              +:+ "%")
  else if py_eq ty (PStr "relay") then
    on ← lift (dict_item state "onState");
    log Info ("  Device: " +:+ dev_name dev +:+ ": "
              +:+ (if py_truthy on then "ON" else "OFF"))
  else if py_eq ty (PStr "thermostat") then
    hvac ← attr (hvacMode dev);
    let hvac_mode_name := last_segment (hvac_mode_str hvac) "" in
    fan ← attr (fanMode dev);
    let fan_mode_name := last_segment (fan_mode_str fan) "" in
    heat ← lift (dict_item state "heatSetpoint");
    cool ← lift (dict_item state "coolSetpoint");
    log Info ("  Device: " +:+ dev_name dev +:+ ": Mode=" +:+ hvac_mode_name
              +:+ ", Heat=" +:+ py_str heat +:+ "°, Cool=" +:+ py_str cool
              +:+ "°, Fan=" +:+ fan_mode_name)
  else if py_eq ty (PStr "fan") then
    speed ← lift (dict_item state "speedLevel");
    log Info ("  Device: " +:+ dev_name dev +:+ ": Speed=" +:+ py_str speed)
  else if py_eq ty (PStr "blind") then
    position ← lift (dict_item state "position");
    log Info ("  Device: " +:+ dev_name dev +:+ ": Position="
              +:+ py_str position +:+ "%")
  else mret ().

(** One round of the device loop.  The [try] block is written in two
    parts, split at the assignment to [saved_states], each under the one
    handler of the source. *)
Definition save_device (saved_states : list (string * pyval))
    (dev_id : pyval) : M (list (string * pyval)) :=
  let dev_id := first_or_none dev_id in
  if skipped dev_id then mret saved_states
  else
    let handler e :=
      log_exc Error ("Error saving state for device " +:+ py_str dev_id
                     +:+ ": ") e in
    found ← try_catch
      (id ← lift (py_int dev_id);
       dev ← get_device id;
       state ← _get_device_scene_state dev;
       mret (Some (dev, state)))
      any_exception
      (λ e, handler e;; mret None);
    match found with
    | None | Some (_, []) => mret saved_states
    | Some (dev, state) =>
        let saved_states :=
          dict_set ("device_" +:+ py_str dev_id) (PDict state) saved_states in
        try_catch (log_saved dev state) any_exception handler;;
        mret saved_states
    end.

(** One round of the variable loop, split in the same way. *)
Definition save_variable (saved_states : list (string * pyval))
    (var_id : pyval) : M (list (string * pyval)) :=
  let var_id := first_or_none var_id in
  if skipped var_id then mret saved_states
  else
    let handler e :=
      log_exc Error ("Error saving state for variable " +:+ py_str var_id
                     +:+ ": ") e in
    found ← try_catch
      (id ← lift (py_int var_id);
       var ← get_variable id;
       mret (Some var))
      any_exception
      (λ e, handler e;; mret None);
    match found with
    | None => mret saved_states
    | Some var =>
        let saved_states :=
          dict_set ("variable_" +:+ py_str var_id)
            (PDict [("type", PStr "variable"); ("value", PStr (var_value var))])
            saved_states in
        try_catch
          (log Info ("  Variable: " +:+ var_name var +:+ ": " +:+ var_value var))
          any_exception handler;;
        mret saved_states
    end.

(** A loop that builds up a value. *)
Fixpoint for_fold {A S} (xs : list A) (body : S → A → M S) (s : S) : M S :=
  match xs with
  | [] => mret s
  | x :: xs' => s' ← body s x; for_fold xs' body s'
  end.

(** [Plugin.saveSceneState]: the [valuesDict] it returns.  The only write
    to [valuesDict] is the last step that can raise, so the handler
    returns the dict as it came in. *)
Definition saveSceneState (valuesDict : gmap string pyval)
    : M (gmap string pyval) :=
  try_catch
    (let device_list := default (PList []) (valuesDict !! "sceneDevices") in
     log Info rule;;
     log Info "Saving Scene State:";;
     saved_states ←
       (if py_truthy device_list
        then for_fold (as_list device_list) save_device []
        else mret []);
     let variable_list := default (PList []) (valuesDict !! "sceneVariables") in
     log Info ("DEBUG: variable_list raw = " +:+ py_str variable_list);;
     saved_states ←
       (if py_truthy variable_list
        then for_fold (as_list variable_list) save_variable saved_states
        else mret saved_states);
     valuesDict ←
       match saved_states with
       | _ :: _ =>
           let text := dumps (PDict saved_states) in
           log Info ("Scene state saved successfully ("
                     +:+ str_of_int (Z.of_nat (length saved_states))
                     +:+ " items)");;
           mret (<["savedStates" := PStr text]> valuesDict)
       | [] =>
           log Warning "No devices or variables selected - no state saved";;
           mret valuesDict
       end;
     log Info rule;;
     mret valuesDict)
    any_exception
    (λ e, log_exc Error "Error in saveSceneState: " e;;
          log_traceback e;;
          mret valuesDict).

(** The two loops of [saveSceneState]. *)
Definition device_part (valuesDict : gmap string pyval)
    : M (list (string * pyval)) :=
  let device_list := default (PList []) (valuesDict !! "sceneDevices") in
  if py_truthy device_list
  then for_fold (as_list device_list) save_device []
  else mret [].

Definition variable_part (valuesDict : gmap string pyval)
    (saved_states : list (string * pyval)) : M (list (string * pyval)) :=
  let variable_list := default (PList []) (valuesDict !! "sceneVariables") in
  if py_truthy variable_list
  then for_fold (as_list variable_list) save_variable saved_states
  else mret saved_states.

(** What [saveSceneState] returns for the snapshot [saved]. *)
Definition stored (valuesDict : gmap string pyval)
    (saved : list (string * pyval)) : gmap string pyval :=
  match saved with
  | [] => valuesDict
  | _ => <["savedStates" := PStr (dumps (PDict saved))]> valuesDict
  end.

End Callback.

(** On the host [h] the computation returns a value that satisfies [Q];
    it keeps the plugin fields, takes no look at a stop event, and all its
    events satisfy [P]. *)
Definition yields {A} (h : Host) (P : Event → Prop) (Q : A → Prop) (m : M A)
    : Prop :=
  ∀ st, ∃ a evs, m h st = (Ok a, advance evs 0 st) ∧ Forall P evs ∧ Q a.

(** A device whose state can be saved and read back: the host knows it,
    [_get_device_scene_state] reads a state off it, and the state holds
    no float and only ASCII text. *)
Definition saveable_device (h : Host) (id : Z) : Prop :=
  ∃ dev state,
    devices h !! id = Some dev ∧
    (∀ st, _get_device_scene_state dev h st = (Ok state, st)) ∧
    state ≠ [] ∧ Forall (λ kv, simple kv.2 = true) state.

Definition saveable_variable (h : Host) (id : Z) : Prop :=
  ∃ var, variables h !! id = Some var ∧ ascii_text (var_value var) = true.

(** A snapshot under construction: no key twice, every entry current on
    the host and fit for [json.dumps] and back. *)
Definition storable (h : Host) (item : string * pyval) : Prop :=
  current h item ∧ ascii_text item.1 = true ∧ simple item.2 = true.

Definition snapshot_ok (h : Host) (saved : list (string * pyval)) : Prop :=
  NoDup saved.*1 ∧ Forall (storable h) saved.

(** The selection lists of the configuration dialog: the ids as text. *)
Definition id_list (ids : list Z) : pyval :=
  PList (map (λ id, PStr (str_of_int id)) ids).

(** A dialog for examples: the dimmer 12 and the variable 7 selected. *)
Definition example_values : gmap string pyval :=
  {[ "sceneDevices" := id_list [12]; "sceneVariables" := id_list [7] ]}.

End Save.

(** * Theorems *)

(** ** Relay-pair quantizer *)

Module RelayFacts.
Import Relay.

(** C2: for each of the four relay-pair states, converting the pair to a
    level and the level back to a pair returns exactly the pair. *)
Theorem relay_round_trip (r1 r2 : bool) :
  _level_to_relay_states (_relay_states_to_level r1 r2) = (r1, r2).
Proof. by destruct r1, r2. Qed.

Lemma rounded_level_cases (level : Z) :
  (level <= 16 ∧ rounded_level level = 0) ∨
  (17 <= level <= 49 ∧ rounded_level level = 33) ∨
  (50 <= level <= 83 ∧ rounded_level level = 66) ∨
  (84 <= level ∧ rounded_level level = 100).
Proof.
  unfold rounded_level.
  destruct (Z.leb_spec level 16); [by left|].
  destruct (Z.leb_spec level 49); [right; left; lia|].
  destruct (Z.leb_spec level 83); [right; right; left; lia|].
  right; right; right; lia.
Qed.

(** C4: [_level_to_relay_states] buckets every integer level by the
    breakpoints 16 / 49 / 83 (at most 16 gives 0, 17..49 gives 33, 50..83
    gives 66, 84 and above gives 100), the bucket is a canonical level
    nearest to the input, the returned pair is the table inverse of the
    bucket, and the six boundary levels land as listed. *)
Theorem level_to_relay_states_breakpoints (level : Z) :
  (_level_to_relay_states level =
     if level <=? 16 then (false, false)
     else if level <=? 49 then (true, false)
     else if level <=? 83 then (false, true)
     else (true, true)) ∧
  (_relay_states_to_level (_level_to_relay_states level).1
                          (_level_to_relay_states level).2 =
     if level <=? 16 then 0
     else if level <=? 49 then 33
     else if level <=? 83 then 66
     else 100) ∧
  Forall (λ c, Z.abs (level - rounded_level level) <= Z.abs (level - c))
         canonical_levels ∧
  map rounded_level [16; 17; 49; 50; 83; 84] = [0; 33; 33; 66; 66; 100] ∧
  map _level_to_relay_states [16; 17; 49; 50; 83; 84] =
    [(false, false); (true, false); (true, false);
     (false, true); (false, true); (true, true)].
Proof.
  split_and!; try reflexivity.
  - unfold _level_to_relay_states.
    destruct (rounded_level_cases level) as [[? ->]|[[? ->]|[[? ->]|[? ->]]]];
      repeat case_match; try reflexivity; lia.
  - unfold _level_to_relay_states.
    destruct (rounded_level_cases level) as [[? ->]|[[? ->]|[[? ->]|[? ->]]]];
      repeat case_match; try reflexivity; lia.
  - unfold canonical_levels.
    destruct (rounded_level_cases level) as [[? ->]|[[? ->]|[[? ->]|[? ->]]]];
      repeat constructor; lia.
Qed.

(** C5: the relay table is (off,off) to 0, (on,off) to 33, (off,on) to 66,
    (on,on) to 100; relay 1 alone is 33 and relay 2 alone is 66. *)
Theorem relay_states_to_level_table :
  _relay_states_to_level false false = 0 ∧
  _relay_states_to_level true false = 33 ∧
  _relay_states_to_level false true = 66 ∧
  _relay_states_to_level true true = 100 ∧
  (_relay_states_to_level true false =? 66) = false ∧
  (_relay_states_to_level false true =? 33) = false.
Proof. by split_and!. Qed.

End RelayFacts.



(** ** Decimal text *)

Module TextFacts.
Import Py.

Lemma app_cons c s t : String c s +:+ t = String c (s +:+ t).
Proof. reflexivity. Qed.

Lemma app_nil_l (t : string) : "" +:+ t = t.
Proof. reflexivity. Qed.

Lemma app_nil_r (s : string) : s +:+ "" = s.
Proof. induction s; [done|]. rewrite app_cons. by f_equal. Qed.

Lemma app_assoc (s t u : string) : (s +:+ t) +:+ u = s +:+ (t +:+ u).
Proof. induction s; [done|]. rewrite !app_cons. by f_equal. Qed.

Lemma app_length (s t : string) :
  String.length (s +:+ t) = (String.length s + String.length t)%nat.
Proof. induction s; [done|]. rewrite app_cons. simpl. by f_equal. Qed.

Lemma string_forall_app P s t :
  string_forall P (s +:+ t) = string_forall P s && string_forall P t.
Proof.
  induction s; [done|]. rewrite app_cons. simpl. by rewrite IHs, andb_assoc.
Qed.

Lemma rev_app_spec s t : String.rev_app s t = String.rev s +:+ t.
Proof.
  unfold String.rev. revert t. induction s as [|c s IH]; intros t; simpl; [done|].
  rewrite IH, (IH (String c "")), app_assoc. done.
Qed.

Lemma rev_cons c s : String.rev (String c s) = String.rev s +:+ String c "".
Proof. unfold String.rev at 1. simpl. apply rev_app_spec. Qed.

Lemma rev_app_distr s t : String.rev (s +:+ t) = String.rev t +:+ String.rev s.
Proof.
  induction s as [|c s IH].
  - by rewrite app_nil_l, app_nil_r.
  - rewrite app_cons, !rev_cons, IH, app_assoc. done.
Qed.

Lemma rev_involutive s : String.rev (String.rev s) = s.
Proof.
  induction s as [|c s IH]; [done|].
  rewrite rev_cons, rev_app_distr, IH. done.
Qed.

Lemma string_forall_rev P s : string_forall P (String.rev s) = string_forall P s.
Proof.
  induction s as [|c s IH]; [done|].
  rewrite rev_cons, string_forall_app, IH. simpl. rewrite andb_true_r. apply andb_comm.
Qed.

Lemma lstrip_id s : string_forall not_space s = true → lstrip s = s.
Proof.
  destruct s as [|c s]; [done|]. simpl. unfold not_space.
  intros [H _]%andb_true_iff. by destruct (is_space c).
Qed.

Lemma strip_id s : string_forall not_space s = true → strip s = s.
Proof.
  intros H. unfold strip. rewrite (lstrip_id s H).
  rewrite lstrip_id by (by rewrite string_forall_rev).
  apply rev_involutive.
Qed.

Lemma drop_underscores_id s prev :
  string_forall not_underscore s = true → prev ≠ Some "_"%char →
  drop_underscores prev s = Some s.
Proof.
  revert prev. induction s as [|c s IH]; intros prev H Hp; simpl.
  - by rewrite bool_decide_false.
  - simpl in H. apply andb_true_iff in H as [Hc Hs]. unfold not_underscore in Hc.
    apply negb_true_iff, bool_decide_eq_false in Hc.
    rewrite (bool_decide_false (c = _)) by done.
    rewrite (bool_decide_false (prev = _)) by done. simpl.
    rewrite IH; [done|done|]. intros ?; simplify_eq.
Qed.

Lemma plain_prepare s :
  string_forall plain s = true → drop_underscores None (strip s) = Some s.
Proof.
  intros H. rewrite strip_id, drop_underscores_id; [done| |done|].
  - clear -H. induction s; simpl in *; [done|]. apply andb_true_iff in H as [H1 H2].
    apply andb_true_iff in H1 as [_ ?]. apply andb_true_iff. auto.
  - clear -H. induction s; simpl in *; [done|]. apply andb_true_iff in H as [H1 H2].
    apply andb_true_iff in H1 as [?  _]. apply andb_true_iff. auto.
Qed.

Lemma digit_of_char_digit_char d :
  (d < 10)%N → digit_of_char (digit_char d) = Some d.
Proof.
  intros H. unfold digit_of_char, digit_char.
  rewrite N_ascii_embedding by lia.
  replace ((48 <=? 48 + d)%N && (48 + d <=? 57)%N) with true.
  - f_equal. lia.
  - symmetry. apply andb_true_iff. split; apply N.leb_le; lia.
Qed.

Lemma is_digit_digit_char d : (d < 10)%N → is_digit (digit_char d) = true.
Proof. intros H. unfold is_digit. by rewrite digit_of_char_digit_char. Qed.

Lemma is_digit_range c :
  is_digit c = true → (48 <= N_of_ascii c <= 57)%N.
Proof.
  unfold is_digit, digit_of_char.
  destruct (_ && _) eqn:H; [|done]. intros _.
  apply andb_true_iff in H as [?%N.leb_le ?%N.leb_le]. lia.
Qed.

Lemma is_digit_plain c : is_digit c = true → plain c = true.
Proof.
  intros H%is_digit_range. unfold plain, not_space, not_underscore, is_space.
  apply andb_true_iff. split.
  - apply negb_true_iff, orb_false_iff. split; apply andb_false_iff.
    + right. apply N.leb_gt. lia.
    + right. apply N.leb_gt. lia.
  - apply negb_true_iff, bool_decide_eq_false. intros ->. simpl in H. lia.
Qed.

Lemma string_forall_impl (P Q : ascii → bool) s :
  (∀ c, P c = true → Q c = true) →
  string_forall P s = true → string_forall Q s = true.
Proof.
  intros HPQ. induction s; simpl; [done|].
  intros [? ?]%andb_true_iff. apply andb_true_iff. auto.
Qed.

Lemma scan_digits_app s t acc cnt :
  string_forall is_digit s = true →
  scan_digits (s +:+ t) acc cnt
  = scan_digits t (digits_value s acc) (cnt + String.length s).
Proof.
  revert acc cnt. induction s as [|c s IH]; intros acc cnt H.
  - rewrite app_nil_l. simpl. by rewrite Nat.add_0_r.
  - rewrite app_cons. simpl in *. apply andb_true_iff in H as [Hc Hs].
    unfold is_digit in Hc. destruct (digit_of_char c) as [d|]; [|done].
    rewrite IH by done. simpl. f_equal. lia.
Qed.

Lemma scan_digits_stop t acc cnt :
  no_leading_digit t = true → scan_digits t acc cnt = (acc, cnt, t).
Proof.
  destruct t as [|c t]; [done|]. simpl. unfold is_digit.
  by destruct (digit_of_char c).
Qed.

Lemma digits_value_app s t acc :
  digits_value (s +:+ t) acc = digits_value t (digits_value s acc).
Proof.
  revert acc. induction s as [|c s IH]; intros acc; [done|].
  rewrite app_cons. simpl. by rewrite IH.
Qed.

Lemma digits_fuel_spec fuel n acc :
  (n < 10 ^ N.of_nat fuel)%N →
  ∃ D, digits_fuel fuel n acc = D +:+ acc ∧
       string_forall is_digit D = true ∧
       (∀ a, digits_value D a = a * 10 ^ N.of_nat (String.length D) + n)%N ∧
       (fuel ≠ O → D ≠ "").
Proof.
  revert n acc. induction fuel as [|fuel IH]; intros n acc Hn.
  - exists "". simpl in *. split_and!; [done|done| |done].
    intros a. lia.
  - simpl. destruct (N.ltb_spec n 10) as [Hlt|Hge].
    + exists (String (digit_char (n mod 10)) "").
      split_and!; [done| | |done].
      * simpl. rewrite is_digit_digit_char; [done|]. by apply N.mod_lt.
      * intros a. simpl. rewrite digit_of_char_digit_char by (by apply N.mod_lt).
        simpl. rewrite N.mod_small by done. lia.
    + destruct (IH (n / 10)%N (String (digit_char (n mod 10)) acc))
        as (D & HD & Hall & Hval & _).
      { apply N.Div0.div_lt_upper_bound.
        replace (N.of_nat (S fuel)) with (N.succ (N.of_nat fuel)) in Hn by lia.
        rewrite N.pow_succ_r' in Hn. lia. }
      exists (D +:+ String (digit_char (n mod 10)) "").
      split_and!.
      * rewrite HD, app_assoc. done.
      * rewrite string_forall_app, Hall. simpl.
        rewrite is_digit_digit_char; [done|]. by apply N.mod_lt.
      * intros a. rewrite digits_value_app, Hval, app_length. simpl.
        rewrite digit_of_char_digit_char by (by apply N.mod_lt). simpl.
        replace (N.of_nat (String.length D + 1)) with (N.succ (N.of_nat (String.length D))) by lia.
        rewrite N.pow_succ_r'.
        pose proof (N.div_mod n 10). lia.
      * intros _. by destruct D.
Qed.

Lemma N_lt_pow10_log2 n : (n < 10 ^ N.of_nat (S (N.to_nat (N.log2 n))))%N.
Proof.
  replace (N.of_nat (S (N.to_nat (N.log2 n)))) with (N.succ (N.log2 n)) by lia.
  destruct (N.eq_dec n 0%N) as [->|Hn]; [done|].
  pose proof (N.log2_spec n ltac:(lia)) as [_ H].
  eapply N.lt_le_trans; [exact H|].
  apply N.pow_le_mono_l. lia.
Qed.

Lemma str_of_N_spec n :
  string_forall is_digit (str_of_N n) = true ∧
  (∀ a, digits_value (str_of_N n) a
        = a * 10 ^ N.of_nat (String.length (str_of_N n)) + n)%N ∧
  str_of_N n ≠ "".
Proof.
  unfold str_of_N.
  destruct (digits_fuel_spec _ n "" (N_lt_pow10_log2 n)) as (D & HD & ? & ? & Hne).
  rewrite HD, app_nil_r. split_and!; [done|done|]. by apply Hne.
Qed.

Lemma pad_digits_spec w n acc :
  ∃ P, pad_digits w n acc = P +:+ acc ∧
       String.length P = w ∧
       string_forall is_digit P = true ∧
       (∀ a, digits_value P a = a * 10 ^ N.of_nat w + n mod 10 ^ N.of_nat w)%N.
Proof.
  revert n acc. induction w as [|w IH]; intros n acc.
  - exists "". split_and!; [done|done|done|]. intros a. simpl.
    rewrite N.mod_1_r. lia.
  - simpl. destruct (IH (n / 10)%N (String (digit_char (n mod 10)) acc))
      as (P & HP & Hlen & Hall & Hval).
    exists (P +:+ String (digit_char (n mod 10)) "").
    split_and!.
    + rewrite HP, app_assoc. done.
    + rewrite app_length, Hlen. simpl. lia.
    + rewrite string_forall_app, Hall. simpl.
      rewrite is_digit_digit_char; [done|]. by apply N.mod_lt.
    + intros a. rewrite digits_value_app, Hval. simpl.
      rewrite digit_of_char_digit_char by (by apply N.mod_lt). simpl.
      replace (N.of_nat (S w)) with (N.succ (N.of_nat w)) by lia.
      rewrite N.pow_succ_r'.
      rewrite (N.Div0.mod_mul_r n 10 (10 ^ N.of_nat w)). lia.
Qed.

Lemma digits_nonempty_head D :
  string_forall is_digit D = true → D ≠ "" →
  ∃ c D', D = String c D' ∧ is_digit c = true.
Proof.
  destruct D as [|c D']; [done|]. simpl. intros [? _]%andb_true_iff _. eauto.
Qed.

Lemma split_sign_digits D :
  string_forall is_digit D = true → split_sign D = (false, D).
Proof.
  destruct D as [|c D']; [done|]. simpl. intros [Hc _]%andb_true_iff.
  apply is_digit_range in Hc.
  destruct c as [[] [] [] [] [] [] [] []]; try done; simpl in Hc; lia.
Qed.

Lemma split_sign_text neg D :
  string_forall is_digit D = true →
  split_sign (sign_text neg +:+ D) = (neg, D).
Proof. destruct neg; [done|]. apply split_sign_digits. Qed.

Lemma plain_sign_text neg : string_forall plain (sign_text neg) = true.
Proof. by destruct neg. Qed.

Lemma digits_plain D :
  string_forall is_digit D = true → string_forall plain D = true.
Proof. apply string_forall_impl, is_digit_plain. Qed.

Lemma scan_digits_all D acc cnt :
  string_forall is_digit D = true →
  scan_digits D acc cnt = (digits_value D acc, (cnt + String.length D)%nat, "").
Proof.
  intros H. rewrite <-(app_nil_r D) at 1. by rewrite scan_digits_app.
Qed.

Lemma length_zero_empty (D : string) : String.length D = O → D = "".
Proof. by destruct D. Qed.

Lemma int_of_string_lit neg D :
  string_forall is_digit D = true → D ≠ "" →
  int_of_string (sign_text neg +:+ D)
  = Ok (if neg then - Z.of_N (digits_value D 0) else Z.of_N (digits_value D 0)).
Proof.
  intros HD Hne. unfold int_of_string.
  rewrite plain_prepare
    by (by rewrite string_forall_app, plain_sign_text, digits_plain).
  rewrite split_sign_text, scan_digits_all by done. simpl.
  rewrite bool_decide_true; [done|]. split; [|done].
  intros ?%length_zero_empty. done.
Qed.

Lemma float_of_string_int_lit neg D :
  string_forall is_digit D = true → D ≠ "" →
  float_of_string (sign_text neg +:+ D)
  = Ok (let q := inject_Z (Z.of_N (digits_value D 0)) in
        if neg then signed true (- q) else Fin q).
Proof.
  intros HD Hne. unfold float_of_string.
  rewrite plain_prepare
    by (by rewrite string_forall_app, plain_sign_text, digits_plain).
  rewrite split_sign_text, scan_digits_all by done. simpl.
  rewrite bool_decide_false.
  2:{ rewrite Nat.add_0_r. intros ?%length_zero_empty. done. }
  unfold scale10. simpl. rewrite Z.mul_1_r. done.
Qed.


Lemma float_of_string_point_lit neg I F :
  string_forall is_digit I = true → string_forall is_digit F = true →
  I ≠ "" →
  float_of_string (sign_text neg +:+ I +:+ "." +:+ F)
  = Ok (let q := scale10 (Z.of_N (digits_value F (digits_value I 0)))
                         (- Z.of_nat (String.length F)) in
        if neg then signed true (- q) else Fin q).
Proof.
  intros HI HF Hne. unfold float_of_string.
  rewrite plain_prepare.
  2:{ rewrite !string_forall_app, plain_sign_text, (digits_plain I),
        (digits_plain F) by done. done. }
  destruct (digits_nonempty_head I HI Hne) as (c & I' & -> & Hc).
  assert (split_sign (sign_text neg +:+ String c I' +:+ "." +:+ F)
          = (neg, String c I' +:+ "." +:+ F)) as ->.
  { destruct neg; [done|]. rewrite app_nil_l, app_cons.
    apply is_digit_range in Hc.
    destruct c as [[] [] [] [] [] [] [] []]; try done; simpl in Hc; lia. }
  rewrite scan_digits_app by done.
  rewrite app_cons, app_nil_l.
  rewrite (scan_digits_stop (String "." F)) by done.
  rewrite scan_digits_all by done.
  case_bool_decide as Hlen; [simpl in Hlen; lia|].
  simpl. done.
Qed.

Lemma round_half_even_near (q : Q) :
  (inject_Z (round_half_even q) - (1 # 2) <= q
   ∧ q <= inject_Z (round_half_even q) + (1 # 2))%Q.
Proof.
  unfold round_half_even.
  pose proof (Qfloor_le q) as Hlo. pose proof (Qlt_floor q) as Hhi.
  rewrite inject_Z_plus in Hhi. change (inject_Z 1) with 1%Q in Hhi.
  destruct (Qcompare_spec (q - inject_Z (Qfloor q)) (1 # 2)) as [He|Hl|Hg].
  - destruct (Z.even _); rewrite ?inject_Z_plus;
      change (inject_Z 1) with 1%Q; split; lra.
  - split; lra.
  - rewrite inject_Z_plus. change (inject_Z 1) with 1%Q. split; lra.
Qed.

Lemma round_half_even_unique (q : Q) (z : Z) :
  (inject_Z z - (1 # 2) < q ∧ q < inject_Z z + (1 # 2))%Q →
  round_half_even q = z.
Proof.
  intros [Hlo Hhi]. destruct (round_half_even_near q) as [H1 H2].
  set (r := round_half_even q) in *.
  assert (inject_Z r < inject_Z z + 1)%Q as Ha by lra.
  assert (inject_Z z < inject_Z r + 1)%Q as Hb by lra.
  change 1%Q with (inject_Z 1) in Ha, Hb.
  rewrite <-inject_Z_plus in Ha, Hb. rewrite <-Zlt_Qlt in Ha, Hb. lia.
Qed.

Global Instance round_half_even_proper : Proper (Qeq ==> eq) round_half_even.
Proof.
  intros q q' Hq. unfold round_half_even.
  rewrite (Qfloor_comp _ _ Hq).
  assert (q - inject_Z (Qfloor q') == q' - inject_Z (Qfloor q'))%Q as He
    by (by rewrite Hq).
  by rewrite (Qcompare_comp _ _ He _ _ (Qeq_refl (1 # 2))).
Qed.

Lemma round_half_even_Z (z : Z) : round_half_even (inject_Z z) = z.
Proof. apply round_half_even_unique. split; lra. Qed.

Lemma pow10_pos k : 0 < pow10 k.
Proof. unfold pow10. apply Z.pow_pos_nonneg; lia. Qed.

Lemma pow10_S k : pow10 (S k) = 10 * pow10 k.
Proof. unfold pow10. rewrite Nat2Z.inj_succ, Z.pow_succ_r by lia. done. Qed.

Lemma pow10_le j k : (j <= k)%nat → pow10 j <= pow10 k.
Proof. intros. unfold pow10. apply Z.pow_le_mono_r; lia. Qed.

Lemma Qred_integral (x : Q) :
  (Qden (Qred x) =? 1)%positive = true → (x == inject_Z (Qnum (Qred x)))%Q.
Proof.
  intros H%Pos.eqb_eq. rewrite <-(Qred_correct x) at 1.
  destruct (Qred x) as [n d]. simpl in *. subst. done.
Qed.

Lemma Qred_of_integral (x : Q) (z : Z) :
  (x == inject_Z z)%Q → Qred x = inject_Z z.
Proof.
  intros H. rewrite (Qred_complete _ _ H).
  pose proof (gcd_Qred (inject_Z z)) as Hg.
  pose proof (Qred_correct (inject_Z z)) as Hc.
  destruct (Qred (inject_Z z)) as [n d]. unfold Qeq in Hc. simpl in *.
  rewrite Z.mul_1_r in Hc. subst n.
  rewrite Z.gcd_comm, (Z.mul_comm z), Z.gcd_mul_diag_l in Hg by lia.
  assert (d = 1%positive) as -> by lia. unfold inject_Z. f_equal. lia.
Qed.

Lemma find_scale_unfold fuel k a :
  find_scale fuel k a =
  if (Qden (Qred (a * inject_Z (pow10 k))) =? 1)%positive
  then Some (Z.to_N (Qnum (Qred (a * inject_Z (pow10 k)))), k)
  else match fuel with
       | O => None
       | S fuel' => find_scale fuel' (S k) a
       end.
Proof. by destruct fuel. Qed.

Lemma find_scale_spec fuel k a j z :
  (0 <= a)%Q → (k <= j <= k + fuel)%nat →
  (a * inject_Z (pow10 j) == inject_Z z)%Q →
  ∃ m k', find_scale fuel k a = Some (m, k') ∧ (k <= k' <= j)%nat ∧
          (a * inject_Z (pow10 k') == inject_Z (Z.of_N m))%Q.
Proof.
  intros Ha. revert k. induction fuel as [|fuel IH]; intros k Hk Hj;
    rewrite find_scale_unfold;
    destruct (Pos.eqb _ _) eqn:Hint.
  - apply Qred_integral in Hint.
    eexists _, k. split_and!; [done|lia|lia|].
    rewrite Z2N.id; [done|].
    assert (0 <= a * inject_Z (pow10 k))%Q as H0.
    { apply Qmult_le_0_compat; [done|].
      change 0%Q with (inject_Z 0). rewrite <-Zle_Qle. pose proof (pow10_pos k). lia. }
    rewrite Hint in H0.
    change 0%Q with (inject_Z 0) in H0. by rewrite <-Zle_Qle in H0.
  - assert (j = k) as -> by lia.
    rewrite (Qred_of_integral _ _ Hj) in Hint. done.
  - apply Qred_integral in Hint.
    eexists _, k. split_and!; [done|lia|lia|].
    rewrite Z2N.id; [done|].
    assert (0 <= a * inject_Z (pow10 k))%Q as H0.
    { apply Qmult_le_0_compat; [done|].
      change 0%Q with (inject_Z 0). rewrite <-Zle_Qle. pose proof (pow10_pos k). lia. }
    rewrite Hint in H0.
    change 0%Q with (inject_Z 0) in H0. by rewrite <-Zle_Qle in H0.
  - assert (j ≠ k).
    { intros ->. rewrite (Qred_of_integral _ _ Hj) in Hint. done. }
    destruct (IH (S k)) as (m & k' & -> & ? & ?); [lia|done|].
    exists m, k'. split_and!; [done|lia|lia|done].
Qed.

Lemma Z_to_pos_pow10 k : Zpos (Z.to_pos (pow10 k)) = pow10 k.
Proof. apply Z2Pos.id, pow10_pos. Qed.

Ltac Qnum_den :=
  unfold Qeq, Qle, Qlt, Qltb, Qle_bool, Qmult, Qplus, Qopp, inject_Z in *;
  cbn [Qnum Qden] in *;
  rewrite ?Pos2Z.inj_mul, ?Z_to_pos_pow10 in *.

Lemma digits_value_zero x : digits_value "0" x = (10 * x)%N.
Proof.
  unfold digits_value. replace (digit_of_char "0") with (Some 0%N) by done.
  simpl default. lia.
Qed.

Lemma scale10_neg m k :
  (0 < k)%nat → scale10 m (- Z.of_nat k) = m # Z.to_pos (pow10 k).
Proof.
  intros Hk. unfold scale10.
  replace (0 <=? - Z.of_nat k) with false by (symmetry; apply Z.leb_gt; lia).
  by rewrite Z.opp_involutive.
Qed.

Lemma repr_pos_decimal (n : Z) (nd : nat) :
  (nd = 1 ∨ nd = 2)%nat → 0 < n < 10 ^ 17 →
  ∃ I F, repr_pos (n # Z.to_pos (pow10 nd)) = I +:+ "." +:+ F ∧
         string_forall is_digit I = true ∧ string_forall is_digit F = true ∧
         I ≠ "" ∧ (1 <= String.length F <= nd)%nat ∧
         (scale10 (Z.of_N (digits_value F (digits_value I 0)))
                  (- Z.of_nat (String.length F))
          == n # Z.to_pos (pow10 nd))%Q.
Proof.
  intros Hnd Hn. set (a := n # Z.to_pos (pow10 nd)).
  assert (0 <= a)%Q as Ha0 by (unfold Qle, a; cbn [Qnum Qden]; lia).
  assert (a * inject_Z (pow10 nd) == inject_Z n)%Q as Hint.
  { unfold a. Qnum_den. lia. }
  assert (nd <= Pos.size_nat (Qden a))%nat as Hfuel.
  { destruct Hnd as [-> | ->]; vm_compute; lia. }
  destruct (find_scale_spec (Pos.size_nat (Qden a)) 0 a nd n Ha0 ltac:(lia) Hint)
    as (m & k & Hfind & Hk & Hm).
  assert (Z.of_N m * pow10 nd = n * pow10 k) as Hmn.
  { clear -Hm. unfold a in Hm. Qnum_den. lia. }
  assert (10 <= pow10 nd <= 100) as Hp by (destruct Hnd as [-> | ->]; done).
  assert (1 <= pow10 k <= pow10 nd) as Hpk.
  { split; [pose proof (pow10_pos k); lia|apply pow10_le; lia]. }
  assert (0 < Z.of_N m <= n) as Hmpos by nia.
  unfold repr_pos, shortest_decimal. fold a. rewrite Hfind.
  replace (m <? 10 ^ 17)%N with true by (symmetry; apply N.ltb_lt; lia).
  replace (Qle_bool _ _ && Qltb _ _) with true.
  2:{ symmetry. apply andb_true_iff. clear Hm Hfind Hint Ha0. Qnum_den. split.
      - apply Z.leb_le. lia.
      - apply negb_true_iff, Z.leb_gt. nia. }
  unfold repr_fixed.
  set (p := Z.to_N (pow10 k)).
  assert (p = (10 ^ N.of_nat k)%N) as Hp10.
  { unfold p, pow10. rewrite Z2N.inj_pow by lia. f_equal. lia. }
  destruct (str_of_N_spec (m / p)) as (HI & HIv & HIne).
  destruct k as [|k0].
  - exists (str_of_N (m / p)), "0".
    split_and!; [done|done|done|done|simpl; lia|simpl; lia|].
    rewrite digits_value_zero, HIv. simpl in Hp10. rewrite Hp10, N.div_1_r.
    change (String.length "0") with 1%nat. rewrite scale10_neg by lia.
    change (pow10 0) with 1 in Hmn. clear -Hmn. unfold a. Qnum_den.
    change (pow10 1) with 10. lia.
  - destruct (pad_digits_spec (S k0) (m mod p) "") as (P & HP & HPlen & HPd & HPv).
    rewrite app_nil_r in HP. rewrite HP.
    exists (str_of_N (m / p)), P.
    split_and!; [done|done|done|done|lia|lia|].
    rewrite HPv, HIv, HPlen. rewrite <-Hp10.
    rewrite N.Div0.mod_mod. rewrite N.mul_0_l, N.add_0_l.
    rewrite (N.mul_comm (m / p) p), <-N.div_mod'.
    rewrite scale10_neg by lia.
    clear -Hmn. unfold a. Qnum_den. lia.
Qed.

Lemma after_point_digits I t :
  string_forall is_digit I = true →
  after_point (I +:+ "." +:+ t) = Some t.
Proof.
  induction I as [|c I IH]; [done|]. rewrite app_cons. simpl.
  intros [Hc HI]%andb_true_iff. rewrite bool_decide_false; [auto|].
  intros ->. done.
Qed.

Lemma decimal_places_lit neg I F :
  string_forall is_digit I = true → string_forall is_digit F = true →
  decimal_places (sign_text neg +:+ I +:+ "." +:+ F) = Some (String.length F).
Proof.
  intros HI HF. unfold decimal_places.
  assert (after_point (sign_text neg +:+ I +:+ "." +:+ F) = Some F) as ->.
  { destruct neg; [|by apply after_point_digits].
    change (sign_text true) with "-". rewrite app_cons, app_nil_l. simpl.
    by apply after_point_digits. }
  by rewrite HF.
Qed.

Lemma fin_val_signed s q :
  ∃ a, fin_val (signed s q) = Some a ∧ (a == q)%Q.
Proof.
  unfold signed. destruct (Qzero q && s) eqn:H; simpl; [|by exists q].
  exists 0%Q. split; [done|]. apply andb_true_iff in H as [H _].
  unfold Qzero in H. apply Z.eqb_eq in H. unfold Qeq. simpl. lia.
Qed.

Lemma signed_nonzero s q : Qzero q = false → signed s q = Fin q.
Proof. unfold signed. by intros ->. Qed.

Lemma str_of_float_fin q :
  Qzero q = false →
  str_of_float (Fin q) = if Qneg q then "-" +:+ repr_pos (- q) else repr_pos q.
Proof. unfold str_of_float. by intros ->. Qed.

Lemma str_round_shape (v : Q) (nd : nat) :
  (nd = 1 ∨ nd = 2)%nat →
  Z.abs (round_half_even (v * inject_Z (pow10 nd))) < 10 ^ 17 →
  ∃ neg I F,
    str_of_float (py_round_ndigits (Fin v) nd)
      = sign_text neg +:+ I +:+ "." +:+ F ∧
    string_forall is_digit I = true ∧ string_forall is_digit F = true ∧
    I ≠ "" ∧ (1 <= String.length F <= nd)%nat ∧
    (let q := scale10 (Z.of_N (digits_value F (digits_value I 0)))
                      (- Z.of_nat (String.length F)) in
     (if neg then - q else q)
     == round_half_even (v * inject_Z (pow10 nd)) # Z.to_pos (pow10 nd))%Q.
Proof.
  intros Hnd Hn. unfold py_round_ndigits.
  set (n := round_half_even _) in *.
  destruct (Z.lt_trichotomy n 0) as [Hneg|[Hz|Hpos]].
  - assert (Qzero (n # Z.to_pos (pow10 nd)) = false) as Hnz
      by (apply Z.eqb_neq; simpl; lia).
    rewrite signed_nonzero, str_of_float_fin by done.
    replace (Qneg _) with true by (symmetry; apply Z.ltb_lt; simpl; lia).
    change (- (n # Z.to_pos (pow10 nd)))%Q with ((- n) # Z.to_pos (pow10 nd)).
    destruct (repr_pos_decimal (- n) nd Hnd ltac:(lia))
      as (I & F & -> & HI & HF & Hne & Hlen & Hq).
    exists true, I, F. split_and!; try done; try lia.
    cbv zeta. rewrite Hq. unfold Qeq. simpl. lia.
  - rewrite Hz. unfold signed. simpl Qzero. cbv [andb].
    destruct (Qneg v); simpl.
    + exists true, "0", "0". split_and!; try done; simpl; lia.
    + exists false, "0", "0". split_and!; try done; simpl; lia.
  - assert (Qzero (n # Z.to_pos (pow10 nd)) = false) as Hnz
      by (apply Z.eqb_neq; simpl; lia).
    rewrite signed_nonzero, str_of_float_fin by done.
    replace (Qneg _) with false by (symmetry; apply Z.ltb_ge; simpl; lia).
    destruct (repr_pos_decimal n nd Hnd ltac:(lia))
      as (I & F & -> & HI & HF & Hne & Hlen & Hq).
    exists false, I, F. split_and!; try done; lia.
Qed.

(** Reading back what [str(round(v, nd))] printed gives the rounded
    value. *)
Lemma float_of_str_round (v : Q) (nd : nat) :
  (nd = 1 ∨ nd = 2)%nat →
  Z.abs (round_half_even (v * inject_Z (pow10 nd))) < 10 ^ 17 →
  ∃ x a,
    float_of_string (str_of_float (py_round_ndigits (Fin v) nd)) = Ok x ∧
    fin_val x = Some a ∧
    (a == round_half_even (v * inject_Z (pow10 nd)) # Z.to_pos (pow10 nd))%Q.
Proof.
  intros Hnd Hn.
  destruct (str_round_shape v nd Hnd Hn)
    as (neg & I & F & -> & HI & HF & Hne & Hlen & Hq).
  rewrite float_of_string_point_lit by done. cbv zeta in *.
  set (q := scale10 _ _) in *. destruct neg.
  - destruct (fin_val_signed true (- q)%Q) as (a & Ha & Haq).
    exists (signed true (- q)), a. split_and!; [done|done|]. by rewrite Haq.
  - by exists (Fin q), q.
Qed.

Lemma denotes_fin q : denotes (Fin q) q.
Proof. by exists q. Qed.

Lemma denotes_signed s q q' : (q == q')%Q → denotes (signed s q) q'.
Proof.
  intros Hq. destruct (fin_val_signed s q) as (a & Ha & Haq).
  exists a. split; [done|]. by rewrite Haq.
Qed.

Lemma Qzero_eq q : Qzero q = true → (q == 0)%Q.
Proof. unfold Qzero. intros H%Z.eqb_eq. unfold Qeq. simpl. lia. Qed.

Lemma denotes_neg x q : denotes x q → denotes (py_neg x) (- q).
Proof.
  intros (a & Ha & Haq). destruct x; simpl in *; simplify_eq.
  - apply denotes_signed. by rewrite Haq.
  - exists 0%Q. split; [done|]. rewrite <-Haq. done.
Qed.

Lemma denotes_add x y p q :
  denotes x p → denotes y q → denotes (py_add x y) (p + q).
Proof.
  intros (a & Ha & Hap) (b & Hb & Hbq).
  destruct x, y; simpl in *; simplify_eq.
  - exists (a + b)%Q. split; [done|]. by rewrite Hap, Hbq.
  - exists a. split; [done|]. rewrite Hap, <-Hbq. lra.
  - exists b. split; [done|]. rewrite Hbq, <-Hap. lra.
  - exists 0%Q. split; [done|]. rewrite <-Hap, <-Hbq. lra.
Qed.

Lemma denotes_sub x y p q :
  denotes x p → denotes y q → denotes (py_sub x y) (p - q).
Proof. intros Hx Hy. apply denotes_add; [done|]. by apply denotes_neg. Qed.

Lemma denotes_mul x y p q :
  denotes x p → denotes y q → denotes (py_mul x y) (p * q).
Proof.
  intros (a & Ha & Hap) (b & Hb & Hbq). unfold py_mul. rewrite Ha, Hb.
  apply denotes_signed. by rewrite Hap, Hbq.
Qed.

Lemma denotes_is_zero x q : denotes x q → ¬ (q == 0)%Q → is_zero x = false.
Proof.
  intros (a & Ha & Haq) Hq. destruct x; simpl in *; simplify_eq.
  - apply not_true_is_false. intros H%Qzero_eq. apply Hq. by rewrite <-Haq.
  - exfalso. apply Hq. by rewrite <-Haq.
Qed.

Lemma denotes_truediv x y p q :
  denotes x p → denotes y q → ¬ (q == 0)%Q →
  ∃ r, py_truediv x y = Ok r ∧ denotes r (p / q).
Proof.
  intros Hx Hy Hq. unfold py_truediv.
  rewrite (denotes_is_zero y q Hy Hq).
  destruct Hx as (a & Ha & Hap), Hy as (b & Hb & Hbq). rewrite Ha, Hb.
  eexists. split; [done|]. apply denotes_signed. by rewrite Hap, Hbq.
Qed.

Lemma denotes_round x q :
  denotes x q → py_round x = Ok (round_half_even q).
Proof.
  intros (a & Ha & Haq). destruct x; simpl in *; simplify_eq.
  - by rewrite Haq.
  - by rewrite <-Haq.
Qed.

Lemma denotes_lt x y p q :
  denotes x p → denotes y q → py_lt x y = Qltb p q.
Proof.
  intros (a & Ha & Hap) (b & Hb & Hbq).
  assert (Qltb a b = Qltb p q) as <-.
  { unfold Qltb. f_equal. 
    destruct (Qle_bool b a) eqn:H1, (Qle_bool q p) eqn:H2; try done.
    - apply Qle_bool_iff in H1. rewrite Hap, Hbq in H1.
      apply Qle_bool_iff in H1. congruence.
    - apply Qle_bool_iff in H2. rewrite <-Hap, <-Hbq in H2.
      apply Qle_bool_iff in H2. congruence. }
  destruct x, y; simpl in *; by simplify_eq.
Qed.

Lemma denotes_le x y p q :
  denotes x p → denotes y q → py_le x y = Qle_bool p q.
Proof.
  intros (a & Ha & Hap) (b & Hb & Hbq).
  assert (Qle_bool a b = Qle_bool p q) as <-.
  { destruct (Qle_bool a b) eqn:H1, (Qle_bool p q) eqn:H2; try done.
    - apply Qle_bool_iff in H1. rewrite Hap, Hbq in H1.
      apply Qle_bool_iff in H1. congruence.
    - apply Qle_bool_iff in H2. rewrite <-Hap, <-Hbq in H2.
      apply Qle_bool_iff in H2. congruence. }
  destruct x, y; simpl in *; by simplify_eq.
Qed.

Lemma Qneg_proper q q' : (q == q')%Q → Qneg q = Qneg q'.
Proof.
  unfold Qneg, Qeq. intros H.
  destruct (Z.ltb_spec (Qnum q) 0), (Z.ltb_spec (Qnum q') 0); try done; nia.
Qed.

Lemma round_ndigits_proper x q nd :
  fin_val x = Some q → x ≠ NegZero → ∀ q', (q == q')%Q →
  py_round_ndigits x nd = py_round_ndigits (Fin q') nd.
Proof.
  intros Hx Hnz q' Hq. destruct x; simpl in *; simplify_eq.
  rewrite (Qneg_proper _ _ Hq). by rewrite Hq.
Qed.

End TextFacts.

(** ** Scale converter *)

Module ScaleFacts.
Import Py TextFacts Indigo Plugin.

Lemma scaled_min smin smax dev d :
  props_get (scaled smin smax dev) "scaleMin" d = PStr smin.
Proof. unfold props_get, scaled; simpl. by rewrite lookup_insert_eq. Qed.

Lemma scaled_max smin smax dev d :
  props_get (scaled smin smax dev) "scaleMax" d = PStr smax.
Proof.
  unfold props_get, scaled; simpl.
  rewrite lookup_insert_ne by done. by rewrite lookup_insert_eq.
Qed.

Lemma float_of_string_raises s e :
  float_of_string s = Raise e → e = ValueError.
Proof.
  unfold float_of_string. intros H.
  repeat (case_match; simplify_eq); done.
Qed.

Lemma get_scale_params_strings smin smax dev h st :
  (_get_scale_params (scaled smin smax dev) h st).1
  = Ok (scale_params_of smin smax).
Proof.
  unfold _get_scale_params, scale_params_of, try_catch, mbind, M_bind, lift.
  rewrite scaled_min, scaled_max. simpl.
  destruct (float_of_string smin) as [mn|e] eqn:Hmin; simpl.
  2:{ by rewrite (float_of_string_raises _ _ Hmin). }
  destruct (float_of_string smax) as [mx|e] eqn:Hmax; simpl.
  2:{ by rewrite (float_of_string_raises _ _ Hmax). }
  destruct (py_ge mn mx); simpl; done.
Qed.


(** What the range check of [_get_scale_params] does establish: the pair
    is ordered unless one of the two floats is NaN. *)
Lemma not_ge_lt_or_nan (mn mx : pyfloat) :
  py_ge mn mx = false → py_lt mn mx = true ∨ mn = NaN ∨ mx = NaN.
Proof.
  unfold py_ge, py_le, py_lt, Qltb.
  destruct mn, mx; simpl; intros H; try discriminate; auto;
    left; by rewrite H.
Qed.

Lemma get_scale_params_ordered_or_nan dev h st mn mx isf :
  (_get_scale_params dev h st).1 = Ok (mn, mx, isf) →
  py_lt mn mx = true ∨ mn = NaN ∨ mx = NaN.
Proof.
  unfold _get_scale_params, try_catch, mbind, M_bind, lift, log, emit. simpl.
  destruct (py_float (props_get dev "scaleMin" (PStr "0"))) as [a|e]; simpl.
  2:{ case_match; simpl; intros; simplify_eq. by left. }
  destruct (py_float (props_get dev "scaleMax" (PStr "100"))) as [b|e]; simpl.
  2:{ case_match; simpl; intros; simplify_eq. by left. }
  destruct (py_ge a b) eqn:Hge; simpl.
  { intros; simplify_eq. by left. }
  destruct (py_contains _ _) as [?|e]; simpl.
  2:{ case_match; simpl; intros; simplify_eq. by left. }
  destruct (py_contains _ _) as [?|e]; simpl.
  2:{ case_match; simpl; intros; simplify_eq. by left. }
  intros; simplify_eq. by apply not_ge_lt_or_nan.
Qed.

Lemma Qle_bool_false_num (a b : Q) :
  Qle_bool b a = false → Qnum a * Zpos (Qden b) < Qnum b * Zpos (Qden a).
Proof. unfold Qle_bool. intros H%Z.leb_gt. lia. Qed.

Lemma Qzero_opp q : Qzero (- q) = Qzero q.
Proof. unfold Qzero; simpl. destruct (Qnum q); done. Qed.

Lemma is_zero_sub_fin (a b : Q) :
  is_zero (py_sub (Fin b) (Fin a)) = true → Qnum a * QDen b = Qnum b * QDen a.
Proof.
  unfold py_sub, py_neg, signed. rewrite Qzero_opp, andb_true_r.
  unfold Qzero. destruct (Z.eqb_spec (Qnum a) 0) as [Ha|Ha]; simpl.
  - intros Hb%Z.eqb_eq. rewrite Ha, Hb. done.
  - intros Hb%Z.eqb_eq. simpl in Hb. rewrite Z.mul_opp_l in Hb. lia.
Qed.

(** The range of an ordered or NaN pair is never a zero. *)
Lemma range_not_zero (mn mx : pyfloat) :
  py_lt mn mx = true ∨ mn = NaN ∨ mx = NaN →
  is_zero (py_sub mx mn) = false.
Proof.
  intros [H|[->| ->]]; [|by destruct mx|by destruct mn as [q| | | |]; simpl;
    try done; unfold signed; case_match].
  apply not_true_is_false. intros Hz.
  destruct mn as [a| | | |], mx as [b| | | |]; simpl in *; try done.
  - apply negb_true_iff, Qle_bool_false_num in H.
    apply is_zero_sub_fin in Hz. lia.
  - apply negb_true_iff, Qle_bool_false_num in H. simpl in H.
    unfold signed in Hz. rewrite Qzero_opp, andb_true_r in Hz.
    destruct (Qzero a) eqn:Ha; simpl in Hz.
    + unfold Qzero in Ha. apply Z.eqb_eq in Ha. lia.
    + rewrite Qzero_opp in Hz. congruence.
  - unfold py_sub, py_neg, signed in Hz. by case_match.
  - apply negb_true_iff, Qle_bool_false_num in H. simpl in H.
    unfold Qzero in Hz. apply Z.eqb_eq in Hz. simpl in Hz. lia.
Qed.

Lemma truediv_raises x y e :
  py_truediv x y = Raise e → is_zero y = true.
Proof. unfold py_truediv. by case_match. Qed.

Lemma py_round_raises x e :
  py_round x = Raise e → e ≠ ZeroDivisionError.
Proof. destruct x; simpl; intros; by simplify_eq. Qed.

(** On the output of [_get_scale_params] neither conversion divides by
    zero. *)
Lemma scale_params_no_zero_division dev h st mn mx isf var_value level :
  (_get_scale_params dev h st).1 = Ok (mn, mx, isf) →
  _variable_to_brightness var_value mn mx ≠ Raise ZeroDivisionError ∧
  _brightness_to_variable level mn mx isf ≠ Raise ZeroDivisionError.
Proof.
  intros H%get_scale_params_ordered_or_nan%range_not_zero. split.
  - unfold _variable_to_brightness, try_except. simpl.
    destruct (py_float var_value) as [v|e] eqn:Hv; simpl.
    2:{ case_match; [done|]. intros ?; simplify_eq.
        destruct var_value; simpl in Hv; simplify_eq.
        - by apply float_of_string_raises in Hv. }
    set (cl := if py_lt v mn then _ else _). destruct cl as [value wc].
    unfold mbind, result_bind, rbind.
    destruct (py_truediv _ _) as [ratio|e] eqn:Hd.
    2:{ apply truediv_raises in Hd. congruence. }
    destruct (py_round _) as [r|e] eqn:Hr; [done|].
    apply py_round_raises in Hr. case_match; [done|congruence].
  - unfold _brightness_to_variable, mbind, result_bind, rbind.
    destruct (py_truediv _ _) as [ratio|e] eqn:Hd.
    2:{ by apply truediv_raises in Hd. }
    repeat (case_match; try done).
    match goal with
    | Hr : py_round _ = Raise _ |- _ => apply py_round_raises in Hr
    end. congruence.
Qed.

(** C10: the range check [scale_min >= scale_max] lets a NaN through: on
    the property strings nan and 100 [_get_scale_params] returns the pair
    (NaN, 100.0), and NaN < 100.0 is false. *)
Theorem get_scale_params_nan dev h st :
  (_get_scale_params (scaled "nan" "100" dev) h st).1
    = Ok (NaN, Fin 100, false) ∧
  py_lt NaN (Fin 100) = false.
Proof. rewrite get_scale_params_strings. by vm_compute. Qed.

Lemma add_fin_r x p b :
  denotes x p → ∃ v, py_add x (Fin b) = Fin v ∧ (v == p + b)%Q.
Proof.
  intros (a & Ha & Hap). destruct x; simpl in *; simplify_eq.
  - exists (a + b)%Q. split; [done|]. by rewrite Hap.
  - exists b. split; [done|]. rewrite <-Hap. lra.
Qed.

Lemma brightness_value (brightness : Z) (mn mx : Q) :
  ∃ ratio v,
    py_truediv (float_of_int (clamp_level brightness)) (Fin 100) = Ok ratio ∧
    py_add (py_mul ratio (py_sub (Fin mx) (Fin mn))) (Fin mn) = Fin v ∧
    (v == rescaled brightness mn mx)%Q.
Proof.
  destruct (denotes_truediv (float_of_int (clamp_level brightness)) (Fin 100)
              (inject_Z (clamp_level brightness)) 100)
    as (ratio & Hdiv & Hratio); [apply denotes_fin|apply denotes_fin|done|].
  pose proof (denotes_sub (Fin mx) (Fin mn) mx mn (denotes_fin _) (denotes_fin _))
    as Hrange.
  destruct (add_fin_r _ _ mn (denotes_mul _ _ _ _ Hratio Hrange)) as (v & Hv & Hveq).
  by exists ratio, v.
Qed.

Lemma brightness_to_variable_float (brightness : Z) (mn mx : Q) :
  _brightness_to_variable brightness (Fin mn) (Fin mx) true
  = Ok (str_of_float (py_round_ndigits (Fin (rescaled brightness mn mx))
                                       (scale_digits mn mx))).
Proof.
  unfold _brightness_to_variable. fold (clamp_level brightness).
  destruct (brightness_value brightness mn mx) as (ratio & v & -> & Hv & Hveq).
  unfold mbind, result_bind, rbind, mret, result_ret. cbv beta iota. rewrite Hv.
  pose proof (denotes_sub (Fin mx) (Fin mn) mx mn (denotes_fin _) (denotes_fin _))
    as Hrange.
  rewrite (denotes_le _ (float_of_int 1) _ 1 Hrange (denotes_fin _)).
  rewrite (denotes_le _ (float_of_int 10) _ 10 Hrange (denotes_fin _)).
  unfold scale_digits.
  rewrite (round_ndigits_proper (Fin v) v 2 eq_refl ltac:(done) _ Hveq).
  rewrite (round_ndigits_proper (Fin v) v 1 eq_refl ltac:(done) _ Hveq).
  destruct (Qle_bool (mx - mn) 1) eqn:H1, (Qle_bool (mx - mn) 10) eqn:H10;
    try done.
  apply Qle_bool_iff in H1.
  assert (mx - mn <= 10)%Q as H%Qle_bool_iff by lra. congruence.
Qed.

Lemma brightness_to_variable_int (brightness : Z) (mn mx : Q) :
  _brightness_to_variable brightness (Fin mn) (Fin mx) false
  = Ok (str_of_int (round_half_even (rescaled brightness mn mx))).
Proof.
  unfold _brightness_to_variable. fold (clamp_level brightness).
  destruct (brightness_value brightness mn mx) as (ratio & v & -> & Hv & Hveq).
  unfold mbind, result_bind, rbind, mret, result_ret. cbv beta iota. rewrite Hv.
  simpl. by rewrite Hveq.
Qed.

Lemma clamp_level_range b : 0 <= clamp_level b <= 100.
Proof. unfold clamp_level. lia. Qed.

Lemma rescaled_between (b : Z) (mn mx lo hi : Q) :
  (lo <= mn <= hi)%Q → (lo <= mx <= hi)%Q →
  (lo <= rescaled b mn mx <= hi)%Q.
Proof.
  intros Hmn Hmx. unfold rescaled.
  pose proof (clamp_level_range b) as [H0 H100].
  rewrite Zle_Qle in H0, H100.
  set (t := (inject_Z (clamp_level b) / 100)%Q).
  assert (0 <= t <= 1)%Q as Ht.
  { unfold t. change (inject_Z 0) with 0%Q in H0.
    change (inject_Z 100) with 100%Q in H100.
    split.
    - apply Qle_shift_div_l; lra.
    - apply Qle_shift_div_r; lra. }
  split; nra.
Qed.

Lemma round_scaled_bound (v : Q) (nd : nat) :
  (nd = 1 ∨ nd = 2)%nat →
  (- inject_Z (10 ^ 14) <= v <= inject_Z (10 ^ 14))%Q →
  Z.abs (round_half_even (v * inject_Z (pow10 nd))) < 10 ^ 17.
Proof.
  intros Hnd Hv.
  destruct (round_half_even_near (v * inject_Z (pow10 nd))) as [H1 H2].
  set (n := round_half_even _) in *.
  assert (inject_Z n < inject_Z (10 ^ 17) ∧ - inject_Z (10 ^ 17) < inject_Z n)%Q
    as [Ha Hb].
  { change (inject_Z (10 ^ 14)) with (100000000000000 # 1) in Hv.
    change (inject_Z (10 ^ 17)) with (100000000000000000 # 1).
    destruct Hnd as [-> | ->].
    - change (inject_Z (pow10 1)) with 10%Q in *. split; lra.
    - change (inject_Z (pow10 2)) with 100%Q in *. split; lra. }
  rewrite <-inject_Z_opp in Hb. rewrite <-Zlt_Qlt in Ha, Hb. lia.
Qed.

Lemma str_of_int_sign z :
  str_of_int z = sign_text (z <? 0) +:+ str_of_N (Z.abs_N z).
Proof. unfold str_of_int. by destruct (z <? 0). Qed.

Lemma digits_value_str_of_N n : digits_value (str_of_N n) 0 = n.
Proof. destruct (str_of_N_spec n) as (_ & -> & _). lia. Qed.

Lemma int_of_str_of_int z : int_of_string (str_of_int z) = Ok z.
Proof.
  destruct (str_of_N_spec (Z.abs_N z)) as (HD & _ & Hne).
  rewrite str_of_int_sign, int_of_string_lit, digits_value_str_of_N by done.
  f_equal. destruct (Z.ltb_spec z 0); lia.
Qed.

Lemma float_of_str_of_int z :
  ∃ x, float_of_string (str_of_int z) = Ok x ∧ denotes x (inject_Z z).
Proof.
  destruct (str_of_N_spec (Z.abs_N z)) as (HD & _ & Hne).
  rewrite str_of_int_sign, float_of_string_int_lit, digits_value_str_of_N by done.
  eexists. split; [done|]. cbv zeta.
  destruct (Z.ltb_spec z 0).
  - apply denotes_signed. rewrite <-inject_Z_opp.
    replace (- Z.of_N (Z.abs_N z)) with z by lia. done.
  - replace (Z.of_N (Z.abs_N z)) with z by lia. apply denotes_fin.
Qed.

Lemma scale_digits_cases mn mx :
  (scale_digits mn mx = 1 ∨ scale_digits mn mx = 2)%nat.
Proof. unfold scale_digits. destruct (Qle_bool _ _); auto. Qed.




Lemma round_trip_core (level : Z) (mn mx r c : Q) :
  0 <= level <= 100 → (mn < mx)%Q →
  (- (mx - mn) < 200 * (r - rescaled level mn mx) ∧
   200 * (r - rescaled level mn mx) < mx - mn)%Q →
  ((r < mn ∧ c == mn) ∨ (mx < r ∧ c == mx) ∨ (mn <= r <= mx ∧ c == r))%Q →
  round_half_even ((c - mn) / (mx - mn) * 100) = level.
Proof.
  intros Hl Hlt Hr Hc.
  pose proof (rescaled_between level mn mx mn mx ltac:(lra) ltac:(lra)) as Hbetween.
  unfold rescaled, clamp_level in Hr, Hbetween.
  replace (Z.max 0 (Z.min 100 level)) with level in Hr, Hbetween by lia.
  set (R := (mx - mn)%Q) in *.
  assert (R == mx - mn)%Q as HRdef by reflexivity.
  assert (0 < R)%Q as HR by lra.
  clearbody R.
  set (U := (inject_Z level / 100 * R)%Q) in *.
  assert ((inject_Z level - (1 # 2)) * R == 100 * U - (1 # 2) * R)%Q as Hlo
    by (unfold U; field).
  assert ((inject_Z level + (1 # 2)) * R == 100 * U + (1 # 2) * R)%Q as Hhi
    by (unfold U; field).
  clearbody U.
  apply round_half_even_unique.
  assert ((c - mn) / R * 100 == ((c - mn) * 100) / R)%Q as -> by (field; lra).
  split.
  - apply Qlt_shift_div_l; [done|]. rewrite Hlo.
    destruct Hc as [[? Hc]|[[? Hc]|[? Hc]]]; rewrite Hc; lra.
  - apply Qlt_shift_div_r; [done|]. rewrite Hhi.
    destruct Hc as [[? Hc]|[[? Hc]|[? Hc]]]; rewrite Hc; lra.
Qed.

Lemma Qltb_true a b : Qltb a b = true ↔ (a < b)%Q.
Proof.
  unfold Qltb. rewrite negb_true_iff. split.
  - intros H. apply Qnot_le_lt. intros Hle%Qle_bool_iff. congruence.
  - intros H. apply not_true_is_false. intros Hle%Qle_bool_iff. lra.
Qed.

Lemma Qltb_false a b : Qltb a b = false ↔ (b <= a)%Q.
Proof.
  unfold Qltb. rewrite negb_false_iff. apply Qle_bool_iff.
Qed.

(** Reading a text that denotes a number near the rescaled value gives the
    level back. *)
Lemma variable_to_brightness_near (level : Z) (mn mx r : Q) (s : string) x :
  0 <= level <= 100 → (mn < mx)%Q →
  float_of_string s = Ok x → denotes x r →
  (- (mx - mn) < 200 * (r - rescaled level mn mx) ∧
   200 * (r - rescaled level mn mx) < mx - mn)%Q →
  ∃ was_clamped value,
    _variable_to_brightness (PStr s) (Fin mn) (Fin mx)
    = Ok (Some level, was_clamped, Some value).
Proof.
  intros Hl Hlt Hs Hx Hr. unfold _variable_to_brightness. simpl py_float.
  rewrite Hs. unfold mbind, result_bind, rbind, mret, result_ret, try_except.
  cbv beta iota.
  rewrite (denotes_lt x (Fin mn) r mn Hx (denotes_fin _)).
  unfold py_gt. rewrite (denotes_lt (Fin mx) x mx r (denotes_fin _) Hx).
  set (cl := if Qltb r mn then _ else _).
  assert (∃ c, denotes cl.1 c ∧
     ((r < mn ∧ c == mn) ∨ (mx < r ∧ c == mx) ∨ (mn <= r <= mx ∧ c == r))%Q)
    as (c & Hcl & Hc).
  { unfold cl. destruct (Qltb r mn) eqn:H1.
    - exists mn. split; [apply denotes_fin|]. left.
      apply Qltb_true in H1. split; [done|reflexivity].
    - destruct (Qltb mx r) eqn:H2.
      + exists mx. split; [apply denotes_fin|]. right; left.
        apply Qltb_true in H2. split; [done|reflexivity].
      + exists r. split; [done|]. right; right.
        apply Qltb_false in H1, H2. split; [done|reflexivity]. }
  destruct cl as [value was_clamped]. simpl in Hcl.
  pose proof (denotes_sub (Fin mx) (Fin mn) mx mn (denotes_fin _) (denotes_fin _))
    as Hrange.
  pose proof (denotes_sub value (Fin mn) c mn Hcl (denotes_fin _)) as Hnum.
  destruct (denotes_truediv _ _ _ _ Hnum Hrange ltac:(lra)) as (ratio & -> & Hratio).
  pose proof (denotes_mul ratio (float_of_int 100) _ 100 Hratio (denotes_fin _))
    as Hb.
  rewrite (denotes_round _ _ Hb).
  rewrite (round_trip_core level mn mx r c Hl Hlt Hr Hc).
  by exists was_clamped, value.
Qed.




End ScaleFacts.

(** ** Scene snapshots *)

Module SceneFacts.
Import Py Indigo Plugin Scene.

Lemma loads_raises s e : Json.loads s = Raise e → e = JSONDecodeError.
Proof. unfold Json.loads. case_match; intros; by simplify_eq. Qed.

Lemma with_saved_get s dev d :
  props_get (with_saved s dev) "savedStates" d = PStr s.
Proof. unfold props_get, with_saved. simpl. by rewrite lookup_insert_eq. Qed.

Lemma with_saved_name s dev : dev_name (with_saved s dev) = dev_name dev.
Proof. done. Qed.




End SceneFacts.

(** ** Device start *)

Module LifecycleFacts.
Import Py Relay Indigo Plugin Scene Lifecycle.

Lemma bound_deviceStartComm :
  dict_get "deviceStartComm" (class_namespace class_body)
  = Some (DeviceHook deviceStartComm_second).
Proof. reflexivity. Qed.

Lemma deviceStartComm_is_second dev : deviceStartComm dev = deviceStartComm_second dev.
Proof. unfold deviceStartComm. by rewrite bound_deviceStartComm. Qed.

(** C3: the class body holds two [def deviceStartComm]; the name is bound
    to the second; called on a device of type myDimmerType, SceneDevice,
    Relay2Dimmer or Relay2Fan the bound method returns at once: no event
    (no log line, no variable or state update) and no change of the
    plugin's caches, where the first definition would have initialised the
    device. *)
Theorem deviceStartComm_shadowed :
  map fst (filter (λ d, d.1 = "deviceStartComm") class_body)
    = ["deviceStartComm"; "deviceStartComm"] ∧
  dict_get "deviceStartComm" (class_namespace class_body)
    = Some (DeviceHook deviceStartComm_second) ∧
  (∀ dev h st,
     Forall (λ type_id, deviceStartComm (with_type type_id dev) h st = (Ok (), st))
       ["myDimmerType"; "SceneDevice"; "Relay2Dimmer"; "Relay2Fan"]) ∧
  events (deviceStartComm_first example_scene example_host initial_state).2
    = [Call (UpdateStateOnServer 1 "onOffState" (PBool false)) true;
       Log Info "Scene 'Evening' initialized: OFF" None] ∧
  events (deviceStartComm example_scene example_host initial_state).2 = [].
Proof.
  split_and!.
  - by vm_compute.
  - apply bound_deviceStartComm.
  - intros dev h st. repeat constructor; rewrite deviceStartComm_is_second;
      unfold deviceStartComm_second; simpl; by destruct st.
  - by vm_compute.
  - by vm_compute.
Qed.

End LifecycleFacts.

(** ** The flash job *)

Module FlashFacts.
Import Py Indigo Plugin Scene Flash.

Local Set Warnings "-clear-no-such-hyp".

Lemma advance_nil st : advance [] 0 st = st.
Proof.
  destruct st. unfold advance. simpl. by rewrite app_nil_r, Nat.add_0_r.
Qed.

Lemma advance_advance evs1 k1 evs2 k2 st :
  advance evs2 k2 (advance evs1 k1 st) = advance (evs1 ++ evs2) (k1 + k2) st.
Proof. unfold advance. simpl. by rewrite app_assoc, Nat.add_assoc. Qed.

Section Steady.
Context {A B : Type}.

Lemma safe_steady (m : M A) : safe m → steady m.
Proof. intros H h st. destruct (H h st) as (a & evs & k & ->). eauto. Qed.

Lemma safe_ret (a : A) : safe (mret a).
Proof. intros h st. exists a, [], 0%nat. by rewrite advance_nil. Qed.

Lemma steady_lift (r : result A) : steady (lift r).
Proof. intros h st. exists r, [], 0%nat. by rewrite advance_nil. Qed.

Lemma steady_bind (m : M A) (k : A → M B) :
  steady m → (∀ a, steady (k a)) → steady (m ≫= k).
Proof.
  intros Hm Hk h st. unfold mbind, M_bind.
  destruct (Hm h st) as ([a|e] & evs & n & ->).
  - destruct (Hk a h (advance evs n st)) as (r & evs' & n' & ->).
    rewrite advance_advance. eauto.
  - eauto.
Qed.

Lemma safe_bind (m : M A) (k : A → M B) :
  safe m → (∀ a, safe (k a)) → safe (m ≫= k).
Proof.
  intros Hm Hk h st. unfold mbind, M_bind.
  destruct (Hm h st) as (a & evs & n & ->).
  destruct (Hk a h (advance evs n st)) as (r & evs' & n' & ->).
  rewrite advance_advance. eauto.
Qed.

Lemma safe_try_catch (body : M A) (handler : exn → M A) :
  steady body → (∀ e, safe (handler e)) →
  safe (try_catch body any_exception handler).
Proof.
  intros Hb Hh h st. unfold try_catch.
  destruct (Hb h st) as ([a|e] & evs & n & ->); [eauto|].
  simpl. destruct (Hh e h (advance evs n st)) as (a & evs' & n' & ->).
  rewrite advance_advance. eauto.
Qed.

End Steady.

Lemma safe_emit ev : safe (emit ev).
Proof.
  intros h st. exists (), [ev], 0%nat. unfold emit, advance.
  by rewrite Nat.add_0_r.
Qed.

Lemma safe_log level msg : safe (log level msg).
Proof. apply safe_emit. Qed.

Lemma safe_log_exc level msg e : safe (log_exc level msg e).
Proof. apply safe_emit. Qed.

Lemma steady_call c : steady (call c).
Proof.
  intros h st. eexists _, [Call c (accepts h c)], 0%nat. unfold call, advance.
  by rewrite Nat.add_0_r.
Qed.

Lemma steady_get_device id : steady (get_device id).
Proof.
  intros h st. eexists _, [], 0%nat. unfold get_device. by rewrite advance_nil.
Qed.

Lemma safe_get_self : safe get_self.
Proof. intros h st. exists (self st), [], 0%nat. by rewrite advance_nil. Qed.

Lemma safe_look_stop : safe look_stop.
Proof.
  intros h st. eexists _, [], 1%nat. unfold look_stop, advance.
  by rewrite app_nil_r, Nat.add_1_r.
Qed.

Lemma safe_for_each {A} (xs : list A) (body : A → M unit) :
  (∀ x, safe (body x)) → safe (for_each xs body).
Proof.
  intros Hb. induction xs as [|x xs IH]; simpl.
  - apply safe_ret.
  - apply safe_bind; [apply Hb|]. intros _. apply IH.
Qed.

Lemma safe_for_break {A} (xs : list A) (body : A → M bool) :
  (∀ x, safe (body x)) → safe (for_break xs body).
Proof.
  intros Hb. induction xs as [|x xs IH]; simpl.
  - apply safe_ret.
  - apply safe_bind; [apply Hb|]. intros []; [apply safe_ret|apply IH].
Qed.

Lemma safe_stop_requested thread_id : safe (stop_requested thread_id).
Proof.
  apply safe_bind; [apply safe_get_self|]. intros s.
  case_bool_decide; [apply safe_look_stop|apply safe_ret].
Qed.

Lemma safe_flash_all originals level on which :
  safe (flash_all originals level on which).
Proof.
  apply safe_for_each. intros [dev_id original].
  apply safe_try_catch.
  - apply steady_bind; [apply steady_lift|]. intros id.
    apply steady_bind; [apply steady_get_device|]. intros dev.
    apply steady_call.
  - intros e. apply safe_log_exc.
Qed.

Lemma safe_flash_once thread_id originals flash_count mx mn flash_num :
  safe (flash_once thread_id originals flash_count mx mn flash_num).
Proof.
  unfold flash_once.
  apply safe_bind; [apply safe_stop_requested|]. intros [].
  { apply safe_bind; [apply safe_log|]. intros _. apply safe_ret. }
  apply safe_bind; [apply safe_flash_all|]. intros _.
  apply safe_bind; [apply safe_stop_requested|]. intros [].
  { apply safe_bind; [apply safe_log|]. intros _. apply safe_ret. }
  apply safe_bind; [apply safe_flash_all|]. intros _.
  destruct (_ <? _); [|apply safe_ret].
  apply safe_bind; [apply safe_stop_requested|]. intros [].
  { apply safe_bind; [apply safe_log|]. intros _. apply safe_ret. }
  apply safe_ret.
Qed.

(** The capture loop returns what [captured] reads off the host. *)
Lemma capture_one_run acc dev_id h st :
  ∃ evs, capture_one acc dev_id h st
         = (Ok (captured_one h acc dev_id), advance evs 0 st).
Proof.
  unfold capture_one, captured_one, try_catch, mbind, M_bind, lift, get_device,
    attr, log_exc, emit, mret, M_ret, raise.
  destruct (int_of_string dev_id) as [id|e]; simpl.
  2:{ eexists [_]. unfold advance. by rewrite Nat.add_0_r. }
  destruct (devices h !! id) as [dev|]; simpl.
  2:{ eexists [_]. unfold advance. by rewrite Nat.add_0_r. }
  destruct (brightness dev), (onState dev); simpl;
    try (exists []; by rewrite advance_nil);
    eexists [_]; unfold advance; by rewrite Nat.add_0_r.
Qed.

Lemma capture_run device_ids acc h st :
  ∃ evs, capture device_ids acc h st
         = (Ok (fold_left (captured_one h) device_ids acc), advance evs 0 st).
Proof.
  revert acc st. induction device_ids as [|d ds IH]; intros acc st; simpl.
  - exists []. by rewrite advance_nil.
  - unfold mbind, M_bind.
    destruct (capture_one_run acc d h st) as (evs & ->).
    destruct (IH (captured_one h acc d) (advance evs 0 st)) as (evs' & ->).
    rewrite advance_advance. eauto.
Qed.

Lemma dict_set_Forall {V} (P : string * V → Prop) k v d :
  P (k, v) → Forall P d → Forall P (dict_set k v d).
Proof.
  intros Hkv. induction 1 as [|[k' v'] d Hx Hd IH]; simpl.
  - by repeat constructor.
  - case_bool_decide; constructor; auto.
Qed.

Lemma captured_of_host h device_ids : Forall (entry_of_host h) (captured h device_ids).
Proof.
  unfold captured.
  assert (Forall (entry_of_host h) []) as Hacc by constructor.
  revert Hacc. generalize (@nil (string * original_state)) as acc.
  induction device_ids as [|d ds IH]; intros acc Hacc; simpl; [done|].
  apply IH. unfold captured_one.
  destruct (int_of_string d) as [id|] eqn:Hid; [|done].
  destruct (devices h !! id) as [dev|] eqn:Hdev; [|done].
  destruct (onState dev) as [on|] eqn:Hon; [|done].
  apply dict_set_Forall; [|done].
  exists id, dev. split_and!; [done|done|].
  unfold original_of. by rewrite Hon.
Qed.

(** The restore loop sends exactly the events of [restore_events]. *)
Lemma restore_all_run originals h st :
  restore_all originals h st
  = (Ok (), advance (restore_events h originals) 0 st).
Proof.
  revert st. induction originals as [|[dev_id original] rest IH]; intros st.
  - simpl. by rewrite advance_nil.
  - unfold restore_all in *. simpl for_each. unfold mbind at 1, M_bind at 1.
    assert (∃ evs, try_catch
              (id ← lift (int_of_string dev_id); dev ← get_device id;
               call (restore_command dev original))
              any_exception
              (λ e, log_exc Error ("Error in final restore for device "
                                   +:+ dev_id +:+ ": ") e) h st
            = (Ok (), advance evs 0 st) ∧
            restore_events h ((dev_id, original) :: rest)
            = (evs ++ restore_events h rest)%list) as (evs & -> & ->).
    { unfold try_catch, mbind, M_bind, lift, get_device, call, log_exc, emit,
        restore_events, advance. simpl flat_map.
      destruct (int_of_string dev_id) as [id|e]; simpl.
      2:{ eexists [_]. split; [by rewrite Nat.add_0_r|done]. }
      destruct (devices h !! id) as [dev|]; simpl.
      2:{ eexists [_]. split; [by rewrite Nat.add_0_r|done]. }
      destruct (accepts h _); simpl.
      - eexists [_]. split; [by rewrite Nat.add_0_r|done].
      - eexists [_; _]. split; [by rewrite <-app_assoc, Nat.add_0_r|done]. }
    rewrite IH, advance_advance. done.
Qed.

Lemma parsed_ids_cons d ds id :
  int_of_string d = Ok id → parsed_ids (d :: ds) = id :: parsed_ids ds.
Proof. unfold parsed_ids. simpl. by intros ->. Qed.

(** The marking loop, without its lock. *)
Lemma mark_loop_run device_ids h st :
  Forall parses device_ids →
  for_each device_ids (λ dev_id,
    id ← lift (int_of_string dev_id);
    modify_self (λ s, set_flashing_devices ({[ id ]} ∪ flashing_devices s) s))
    h st
  = (Ok (), {| self := set_flashing_devices
                         (list_to_set (parsed_ids device_ids)
                          ∪ flashing_devices (self st)) (self st);
               events := events st; looks := looks st |}).
Proof.
  intros Hall. revert st. induction Hall as [|d ds [id Hid] _ IH]; intros st.
  - simpl. unfold mret, M_ret. f_equal. destruct st as [[] ? ?]. simpl.
    unfold set_flashing_devices. simpl. f_equal. f_equal. set_solver.
  - simpl for_each. unfold mbind at 1, M_bind at 1.
    unfold mbind at 1, M_bind at 1, lift at 1. rewrite Hid.
    unfold modify_self at 1. rewrite IH, (parsed_ids_cons _ _ _ Hid).
    simpl. f_equal. f_equal. unfold set_flashing_devices. simpl. f_equal.
    set_solver.
Qed.

Lemma discard_loop_run device_ids h st :
  Forall parses device_ids →
  for_each device_ids (λ dev_id,
    id ← lift (int_of_string dev_id);
    modify_self (λ s, set_flashing_devices (flashing_devices s ∖ {[ id ]}) s))
    h st
  = (Ok (), {| self := set_flashing_devices
                         (flashing_devices (self st)
                          ∖ list_to_set (parsed_ids device_ids)) (self st);
               events := events st; looks := looks st |}).
Proof.
  intros Hall. revert st. induction Hall as [|d ds [id Hid] _ IH]; intros st.
  - simpl. unfold mret, M_ret. f_equal. destruct st as [[] ? ?]. simpl.
    unfold set_flashing_devices. simpl. f_equal. f_equal. set_solver.
  - simpl for_each. unfold mbind at 1, M_bind at 1.
    unfold mbind at 1, M_bind at 1, lift at 1. rewrite Hid.
    unfold modify_self at 1. rewrite IH, (parsed_ids_cons _ _ _ Hid).
    simpl. f_equal. f_equal. unfold set_flashing_devices. simpl. f_equal.
    set_solver.
Qed.

Lemma mark_flashing_run device_ids h st :
  Forall parses device_ids →
  mark_flashing device_ids h st
  = (Ok (), {| self := set_flashing_devices
                         (list_to_set (parsed_ids device_ids)
                          ∪ flashing_devices (self st)) (self st);
               events := events st ++ [Acquire flash_lock; Release flash_lock];
               looks := looks st |}).
Proof.
  intros Hall. unfold mark_flashing, with_lock.
  unfold mbind at 1, M_bind at 1, emit at 1, try_finally.
  rewrite (mark_loop_run _ _ _ Hall). unfold emit. simpl.
  by rewrite <-app_assoc.
Qed.

Lemma flash_cleanup_run thread_id device_ids h st :
  Forall parses device_ids →
  flash_cleanup thread_id device_ids h st
  = (Ok (), {| self := after_flash thread_id device_ids (self st);
               events := events st ++ [Acquire flash_lock; Release flash_lock];
               looks := looks st |}).
Proof.
  intros Hall. unfold flash_cleanup, with_lock.
  unfold mbind at 1, M_bind at 1, emit at 1, try_finally.
  unfold mbind at 1, M_bind at 1.
  rewrite (discard_loop_run _ _ _ Hall). unfold mbind, M_bind, modify_self, emit.
  simpl. by rewrite <-app_assoc.
Qed.

(** Reading a dict after a write. *)
Lemma dict_get_set {V} k k' (v : V) d :
  dict_get k (dict_set k' v d) = if bool_decide (k = k') then Some v else dict_get k d.
Proof.
  induction d as [|[k0 v0] d IH]; simpl.
  - done.
  - destruct (bool_decide (k' = k0)) eqn:E0; simpl.
    + apply bool_decide_eq_true in E0 as <-. by destruct (bool_decide (k = k')).
    + rewrite IH. destruct (bool_decide (k = k0)) eqn:E1; [|done].
      apply bool_decide_eq_true in E1 as <-.
      apply bool_decide_eq_false in E0.
      rewrite bool_decide_false; [done|]. by intros ->.
Qed.

(** Every target that the host knows, with an on/off state, is captured
    with the state it has. *)
Lemma captured_get h device_ids d id dev o :
  d ∈ device_ids → int_of_string d = Ok id → devices h !! id = Some dev →
  original_of dev = Some o →
  dict_get d (captured h device_ids) = Some o.
Proof.
  intros Hin Hid Hdev Ho. unfold captured.
  assert (Hstep : ∀ acc d',
    (d' = d ∨ dict_get d acc = Some o) →
    dict_get d (captured_one h acc d') = Some o).
  { intros acc d' Hd'. unfold captured_one.
    destruct (decide (d' = d)) as [->|Hne].
    - rewrite Hid, Hdev. unfold original_of in Ho.
      destruct (onState dev); [|done]. rewrite dict_get_set.
      rewrite bool_decide_true by done. done.
    - destruct Hd' as [?|Hacc]; [done|].
      destruct (int_of_string d') as [id'|]; [|done].
      destruct (devices h !! id') as [dev'|]; [|done].
      destruct (onState dev'); [|done]. rewrite dict_get_set.
      rewrite bool_decide_false by done. done. }
  assert (Hkeep : ∀ ds acc, dict_get d acc = Some o →
                            dict_get d (fold_left (captured_one h) ds acc) = Some o).
  { induction ds as [|d' ds IH]; intros acc Hacc; simpl; [done|].
    apply IH, Hstep. by right. }
  generalize (@nil (string * original_state)) as acc.
  induction device_ids as [|d' ds IH]; intros acc; [by apply elem_of_nil in Hin|].
  simpl. apply elem_of_cons in Hin as [->|Hin].
  - apply Hkeep, Hstep. by left.
  - by apply IH.
Qed.



(** A job cancelled during its first flash: both lamps went to the max,
    and both are put back. *)
Lemma flash_cancelled_run :
  _flash_device_thread "flash_1" ["9"; "12"] 3 (Fin 1) (Fin 1) None None
    (flash_host 1) flash_state
  = (Ok (),
     {| self := {| last_variable_values := ∅; last_device_brightness := ∅;
                   flash_threads := ∅; flash_stop_events := ∅;
                   flashing_devices := ∅ |};
        events := [Acquire flash_lock; Release flash_lock;
                   Call (TurnOn 9) true; Call (SetBrightness 12 (PInt 100)) true;
                   Log Info "Flash sequence flash_1 cancelled during flash" None;
                   Call (TurnOff 9) true; Call (SetBrightness 12 (PInt 50)) true;
                   Acquire flash_lock; Release flash_lock];
        looks := 2 |}).
Proof. by vm_compute. Qed.

(** A device id that is no integer: [int(dev_id)] raises in the marking
    loop and again in the [finally] block, so the exception leaves the job
    and its entries stay. *)
Lemma flash_thread_bad_id :
  ∃ evs,
    _flash_device_thread "flash_1" ["lamp"] 3 (Fin 1) (Fin 1) None None
      (flash_host 1) flash_state
    = (Raise ValueError,
       {| self := self flash_state; events := evs; looks := 0 |}).
Proof. eexists. by vm_compute. Qed.

End FlashFacts.

(** ** Quantizer, beyond the table *)

Module QuantizerFacts.
Import Relay Actions RelayFacts.

Lemma shown_level_rounded (level : Z) : shown_level level = rounded_level level.
Proof.
  unfold shown_level, _level_to_relay_states.
  destruct (rounded_level_cases level) as [[? ->]|[[? ->]|[[? ->]|[? ->]]]];
    reflexivity.
Qed.

(** The level shown for a request is one of the four canonical levels, and
    asking for a shown level again changes neither the level nor the relay
    pair. *)
Theorem shown_level_idempotent (level : Z) :
  shown_level level ∈ canonical_levels ∧
  shown_level (shown_level level) = shown_level level ∧
  _level_to_relay_states (shown_level level) = _level_to_relay_states level.
Proof.
  rewrite !shown_level_rounded. unfold _level_to_relay_states, canonical_levels.
  destruct (rounded_level_cases level) as [[? ->]|[[? ->]|[[? ->]|[? ->]]]];
    (split_and!; [by repeat constructor|reflexivity|reflexivity]).
Qed.

(** A larger request never shows a smaller level. *)
Theorem shown_level_monotone (level level' : Z) :
  level <= level' → shown_level level <= shown_level level'.
Proof.
  intros Hle. rewrite !shown_level_rounded.
  destruct (rounded_level_cases level) as [[? ->]|[[? ->]|[[? ->]|[? ->]]]],
    (rounded_level_cases level') as [[? ->]|[[? ->]|[[? ->]|[? ->]]]]; lia.
Qed.

Lemma shown_level_monotone_witness : shown_level 40 <= shown_level 50.
Proof. apply (shown_level_monotone 40 50). lia. Defined.

End QuantizerFacts.

(** ** Converter, beyond the round trip *)

Module ConverterFacts.
Import Py TextFacts Indigo Plugin Levels ScaleFacts.

Lemma clamped_between mn mx r : (mn < mx)%Q → (mn <= clamped mn mx r <= mx)%Q.
Proof.
  intros Hlt. unfold clamped.
  destruct (Qltb r mn) eqn:H1; [lra|].
  destruct (Qltb mx r) eqn:H2; [lra|].
  apply Qltb_false in H1, H2. lra.
Qed.

Lemma round_half_even_monotone (p q : Q) :
  (p <= q)%Q → round_half_even p <= round_half_even q.
Proof.
  intros Hpq.
  destruct (round_half_even_near p) as [Hp1 Hp2].
  destruct (round_half_even_near q) as [Hq1 Hq2].
  destruct (Z_le_gt_dec (round_half_even p) (round_half_even q)) as [|Hgt];
    [done|exfalso].
  assert (inject_Z (round_half_even q) + 1 <= inject_Z (round_half_even p))%Q
    as Hstep.
  { change 1%Q with (inject_Z 1). rewrite <-inject_Z_plus, <-Zle_Qle. lia. }
  assert (p == q)%Q as Heq by lra.
  rewrite Heq in Hgt. lia.
Qed.

Lemma level_of_bounds mn mx c :
  (mn < mx)%Q → (mn <= c <= mx)%Q → 0 <= level_of mn mx c <= 100.
Proof.
  intros Hlt [Hc1 Hc2]. unfold level_of.
  assert (0 <= (c - mn) / (mx - mn) * 100 <= 100)%Q as [Hlo Hhi].
  { assert ((c - mn) / (mx - mn) * 100 == ((c - mn) * 100) / (mx - mn))%Q as ->
      by (field; lra).
    split.
    - apply Qle_shift_div_l; [lra|]. rewrite Qmult_0_l. lra.
    - apply Qle_shift_div_r; lra. }
  apply round_half_even_monotone in Hlo, Hhi.
  pose proof (round_half_even_Z 0) as H0. pose proof (round_half_even_Z 100) as H100.
  change (inject_Z 0) with 0%Q in H0. change (inject_Z 100) with 100%Q in H100.
  lia.
Qed.

Lemma level_of_min mn mx : (mn < mx)%Q → level_of mn mx mn = 0.
Proof.
  intros Hlt. unfold level_of.
  assert ((mn - mn) / (mx - mn) * 100 == inject_Z 0)%Q as -> by (field; lra).
  apply round_half_even_Z.
Qed.

Lemma level_of_max mn mx : (mn < mx)%Q → level_of mn mx mx = 100.
Proof.
  intros Hlt. unfold level_of.
  assert ((mx - mn) / (mx - mn) * 100 == inject_Z 100)%Q as -> by (field; lra).
  apply round_half_even_Z.
Qed.

(** The part of [_variable_to_brightness] after the clamp. *)
Lemma level_after_clamp (value : pyfloat) (c : Q) (was_clamped : bool) mn mx :
  denotes value c → (mn < mx)%Q →
  (ratio ← py_truediv (py_sub value (Fin mn)) (py_sub (Fin mx) (Fin mn));
   rounded ← py_round (py_mul ratio (float_of_int 100));
   mret (Some rounded, was_clamped, Some value))
  = Ok (Some (level_of mn mx c), was_clamped, Some value).
Proof.
  intros Hval Hlt.
  pose proof (denotes_sub (Fin mx) (Fin mn) mx mn (denotes_fin _) (denotes_fin _))
    as Hrange.
  pose proof (denotes_sub value (Fin mn) _ mn Hval (denotes_fin _)) as Hnum.
  destruct (denotes_truediv _ _ _ _ Hnum Hrange ltac:(lra)) as (ratio & Hdiv & Hratio).
  pose proof (denotes_mul ratio (float_of_int 100) _ 100 Hratio (denotes_fin _))
    as Hb.
  unfold mbind, result_bind, rbind, mret, result_ret.
  rewrite Hdiv. cbv beta iota. by rewrite (denotes_round _ _ Hb).
Qed.

Lemma py_float_raises v e : py_float v = Raise e → e = ValueError ∨ e = TypeError.
Proof.
  destruct v; simpl; intros H; simplify_eq; auto.
  left. by eapply float_of_string_raises.
Qed.

(** What [_variable_to_brightness] does once [float(var_value)] is known. *)
Lemma variable_to_brightness_unfold v x mn mx :
  py_float v = Ok x →
  _variable_to_brightness v mn mx
  = try_except
      (let '(value, was_clamped) :=
         if py_lt x mn then (mn, true)
         else if py_gt x mx then (mx, true) else (x, false) in
       ratio ← py_truediv (py_sub value mn) (py_sub mx mn);
       rounded ← py_round (py_mul ratio (float_of_int 100));
       mret (Some rounded, was_clamped, Some value))
      (λ e, is_ValueError e || is_TypeError e)
      (λ _, mret (None, false, None)).
Proof. intros Hv. unfold _variable_to_brightness. by rewrite Hv. Qed.

Lemma variable_to_brightness_finite v x r mn mx :
  py_float v = Ok x → denotes x r → (mn < mx)%Q →
  _variable_to_brightness v (Fin mn) (Fin mx)
  = Ok (Some (level_of mn mx (clamped mn mx r)),
        py_lt x (Fin mn) || py_gt x (Fin mx),
        Some (if py_lt x (Fin mn) then Fin mn
              else if py_gt x (Fin mx) then Fin mx else x)).
Proof.
  intros Hv Hx Hlt. rewrite (variable_to_brightness_unfold _ _ _ _ Hv).
  unfold py_gt, clamped.
  rewrite (denotes_lt x (Fin mn) r mn Hx (denotes_fin _)).
  rewrite (denotes_lt (Fin mx) x mx r (denotes_fin _) Hx).
  destruct (Qltb r mn).
  { by rewrite (level_after_clamp (Fin mn) mn true mn mx (denotes_fin _) Hlt). }
  destruct (Qltb mx r).
  { by rewrite (level_after_clamp (Fin mx) mx true mn mx (denotes_fin _) Hlt). }
  by rewrite (level_after_clamp x r false mn mx Hx Hlt).
Qed.

Lemma variable_to_brightness_cases (var_value : pyval) (mn mx : Q) :
  (mn < mx)%Q →
  match py_float var_value with
  | Raise _ | Ok NaN =>
      _variable_to_brightness var_value (Fin mn) (Fin mx)
      = Ok (None, false, None)
  | Ok x =>
      ∃ level,
        _variable_to_brightness var_value (Fin mn) (Fin mx)
        = Ok (Some level, py_lt x (Fin mn) || py_gt x (Fin mx),
              Some (if py_lt x (Fin mn) then Fin mn
                    else if py_gt x (Fin mx) then Fin mx else x)) ∧
        0 <= level <= 100 ∧
        (py_lt x (Fin mn) = true → level = 0) ∧
        (py_gt x (Fin mx) = true → level = 100)
  end.
Proof.
  intros Hlt. destruct (py_float var_value) as [x|e] eqn:Hv.
  2:{ unfold _variable_to_brightness. rewrite Hv.
      by destruct (py_float_raises _ _ Hv) as [-> | ->]. }
  assert (∀ r, denotes x r →
    ∃ level,
      _variable_to_brightness var_value (Fin mn) (Fin mx)
      = Ok (Some level, py_lt x (Fin mn) || py_gt x (Fin mx),
            Some (if py_lt x (Fin mn) then Fin mn
                  else if py_gt x (Fin mx) then Fin mx else x)) ∧
      0 <= level <= 100 ∧
      (py_lt x (Fin mn) = true → level = 0) ∧
      (py_gt x (Fin mx) = true → level = 100)) as Hfinite.
  { intros r Hx. eexists. split; [by apply variable_to_brightness_finite|].
    split; [apply level_of_bounds, clamped_between; done|].
    unfold py_gt, clamped.
    rewrite (denotes_lt x (Fin mn) r mn Hx (denotes_fin _)).
    rewrite (denotes_lt (Fin mx) x mx r (denotes_fin _) Hx).
    split.
    - intros ->. by apply level_of_min.
    - intros H2. destruct (Qltb r mn) eqn:H1.
      + apply Qltb_true in H1, H2. lra.
      + rewrite H2. by apply level_of_max. }
  destruct x as [q| | | |].
  - apply (Hfinite q), denotes_fin.
  - apply (Hfinite 0%Q). by exists 0%Q.
  - rewrite (variable_to_brightness_unfold _ _ _ _ Hv).
    change (py_lt PInf (Fin mn)) with false.
    change (py_gt PInf (Fin mx)) with true. cbv iota.
    rewrite (level_after_clamp (Fin mx) mx true mn mx (denotes_fin _) Hlt).
    exists (level_of mn mx mx). rewrite level_of_max by done.
    split_and!; try done; lia.
  - rewrite (variable_to_brightness_unfold _ _ _ _ Hv).
    change (py_lt NInf (Fin mn)) with true.
    change (py_gt NInf (Fin mx)) with false. cbv iota.
    rewrite (level_after_clamp (Fin mn) mn true mn mx (denotes_fin _) Hlt).
    exists (level_of mn mx mn). rewrite level_of_min by done.
    split_and!; try done; lia.
  - rewrite (variable_to_brightness_unfold _ _ _ _ Hv).
    change (py_lt NaN (Fin mn)) with false.
    change (py_gt NaN (Fin mx)) with false. cbv iota.
    change (py_sub NaN (Fin mn)) with NaN. unfold py_truediv.
    rewrite (denotes_is_zero _ (mx - mn)); [| |lra].
    2:{ apply denotes_sub; apply denotes_fin. }
    change (fin_val NaN) with (@None Q). cbv iota.
    by destruct (fin_val (py_sub (Fin mx) (Fin mn))).
Qed.



Lemma clamped_monotone mn mx r r' :
  (mn < mx)%Q → (r <= r')%Q → (clamped mn mx r <= clamped mn mx r')%Q.
Proof.
  intros Hlt Hle. unfold clamped.
  destruct (Qltb r mn) eqn:H1, (Qltb r' mn) eqn:H1';
    destruct (Qltb mx r) eqn:H2, (Qltb mx r') eqn:H2';
    repeat match goal with
           | H : Qltb _ _ = true |- _ => apply Qltb_true in H
           | H : Qltb _ _ = false |- _ => apply Qltb_false in H
           end; lra.
Qed.

Lemma level_of_monotone mn mx c c' :
  (mn < mx)%Q → (c <= c')%Q → level_of mn mx c <= level_of mn mx c'.
Proof.
  intros Hlt Hle. apply round_half_even_monotone.
  assert ((c - mn) / (mx - mn) * 100 == ((c - mn) * 100) / (mx - mn))%Q as ->
    by (field; lra).
  assert ((c' - mn) / (mx - mn) * 100 == ((c' - mn) * 100) / (mx - mn))%Q as ->
    by (field; lra).
  apply Qle_shift_div_l; [lra|].
  assert ((c - mn) * 100 / (mx - mn) * (mx - mn) == (c - mn) * 100)%Q as ->
    by (field; lra).
  lra.
Qed.

Lemma py_le_denotes x x' :
  py_le x x' = true →
  x = NInf ∨ x' = PInf ∨ ∃ r r', denotes x r ∧ denotes x' r' ∧ (r <= r')%Q.
Proof.
  intros Hle.
  destruct x as [q| | | |], x' as [q'| | | |]; simpl in Hle; try done; auto;
    right; right.
  - exists q, q'. split_and!; [apply denotes_fin..|by apply Qle_bool_iff].
  - exists q, 0%Q. split_and!; [apply denotes_fin|by exists 0%Q|by apply Qle_bool_iff].
  - exists 0%Q, q'. split_and!; [by exists 0%Q|apply denotes_fin|by apply Qle_bool_iff].
  - exists 0%Q, 0%Q. split_and!; [by exists 0%Q..|lra].
Qed.



(** The text [_brightness_to_variable] writes is a number [float()] reads,
    at most half a rendering step away from the rescaled value. *)
Lemma rendered_near (level : Z) (mn mx : Q) (isf : bool) :
  (mn < mx)%Q →
  (- inject_Z (10 ^ 14) <= mn)%Q → (mx <= inject_Z (10 ^ 14))%Q →
  ∃ s x r,
    _brightness_to_variable level (Fin mn) (Fin mx) isf = Ok s ∧
    float_of_string s = Ok x ∧ denotes x r ∧
    (- render_step mn mx isf <= 2 * (r - rescaled level mn mx) ∧
     2 * (r - rescaled level mn mx) <= render_step mn mx isf)%Q.
Proof.
  intros Hlt Hlo Hhi. destruct isf; unfold render_step.
  - set (nd := scale_digits mn mx) in *. set (v := rescaled level mn mx) in *.
    assert (Z.abs (round_half_even (v * inject_Z (pow10 nd))) < 10 ^ 17)
      as Hbound.
    { apply round_scaled_bound; [apply scale_digits_cases|].
      apply rescaled_between; lra. }
    destruct (float_of_str_round v nd (scale_digits_cases _ _) Hbound)
      as (x & a & Hx & Ha & Haq).
    eexists _, x, _. split; [apply brightness_to_variable_float|].
    split; [exact Hx|]. split; [by exists a|].
    destruct (round_half_even_near (v * inject_Z (pow10 nd))) as [H1 H2].
    set (z := round_half_even _) in *.
    destruct (scale_digits_cases mn mx) as [Hnd|Hnd]; fold nd in Hnd;
      rewrite Hnd in *.
    + change (inject_Z (pow10 1)) with 10%Q in *.
      change (Z.to_pos (pow10 1)) with 10%positive in *.
      assert ((z # 10) * 10 == inject_Z z)%Q as Hz
        by (unfold Qeq; simpl; lia).
      split; lra.
    + change (inject_Z (pow10 2)) with 100%Q in *.
      change (Z.to_pos (pow10 2)) with 100%positive in *.
      assert ((z # 100) * 100 == inject_Z z)%Q as Hz
        by (unfold Qeq; simpl; lia).
      split; lra.
  - set (v := rescaled level mn mx) in *.
    destruct (float_of_str_of_int (round_half_even v)) as (x & Hx & Hden).
    eexists _, x, _. split; [apply brightness_to_variable_int|].
    split; [exact Hx|]. split; [exact Hden|].
    destruct (round_half_even_near v) as [H1 H2]. split; lra.
Qed.

Lemma rescaled_level (level : Z) (mn mx : Q) :
  0 <= level <= 100 → (mn < mx)%Q →
  (100 * (rescaled level mn mx - mn) == inject_Z level * (mx - mn))%Q.
Proof.
  intros Hl Hlt. unfold rescaled, clamp_level.
  replace (Z.max 0 (Z.min 100 level)) with level by lia. field.
Qed.

Lemma clamped_nearer mn mx r v :
  (mn <= v <= mx)%Q →
  ((r <= v ∧ r <= clamped mn mx r <= v) ∨
   (v <= r ∧ v <= clamped mn mx r <= r))%Q.
Proof.
  intros [Hv1 Hv2]. unfold clamped.
  destruct (Qltb r mn) eqn:H1.
  { apply Qltb_true in H1. left. lra. }
  destruct (Qltb mx r) eqn:H2.
  { apply Qltb_true in H2. right. lra. }
  destruct (Qlt_le_dec r v); [left|right]; lra.
Qed.

Lemma level_of_near mn mx c :
  (mn < mx)%Q →
  ((inject_Z (level_of mn mx c) - (1 # 2)) * (mx - mn) <= 100 * (c - mn) ∧
   100 * (c - mn) <= (inject_Z (level_of mn mx c) + (1 # 2)) * (mx - mn))%Q.
Proof.
  intros Hlt. unfold level_of.
  destruct (round_half_even_near ((c - mn) / (mx - mn) * 100)) as [H1 H2].
  set (l := inject_Z (round_half_even _)) in *.
  assert ((c - mn) / (mx - mn) * 100 * (mx - mn) == 100 * (c - mn))%Q as Hb
    by (field; lra).
  split.
  - rewrite <-Hb. apply Qmult_le_compat_r; lra.
  - rewrite <-Hb. apply Qmult_le_compat_r; lra.
Qed.



End ConverterFacts.

(** ** Traces of the scene engine *)

Module TraceFacts.
Import Py Indigo Plugin Scene Flash Trace FlashFacts.

Section Emits.
Context {A B : Type} (h : Host) (P : Event → Prop).

Lemma returns_emits (m : M A) : returns h P m → emits h P m.
Proof. intros H st. destruct (H st) as (a & evs & -> & ?). eauto. Qed.

Lemma returns_ret (a : A) : returns h P (mret a).
Proof. intros st. exists a, []. by rewrite advance_nil. Qed.

Lemma emits_ret (a : A) : emits h P (mret a).
Proof. apply returns_emits, returns_ret. Qed.

Lemma emits_lift (r : result A) : emits h P (lift r).
Proof. intros st. exists r, []. by rewrite advance_nil. Qed.

Lemma emits_raise (e : exn) : emits h P (raise e : M A).
Proof. intros st. exists (Raise e), []. by rewrite advance_nil. Qed.

Lemma emits_bind (m : M A) (k : A → M B) :
  emits h P m → (∀ a, emits h P (k a)) → emits h P (m ≫= k).
Proof.
  intros Hm Hk st. unfold mbind, M_bind.
  destruct (Hm st) as ([a|e] & evs & -> & Hevs).
  - destruct (Hk a (advance evs 0 st)) as (r & evs' & -> & Hevs').
    rewrite advance_advance. eexists _, _. split; [done|].
    by apply Forall_app.
  - eauto.
Qed.

Lemma returns_bind (m : M A) (k : A → M B) :
  returns h P m → (∀ a, returns h P (k a)) → returns h P (m ≫= k).
Proof.
  intros Hm Hk st. unfold mbind, M_bind.
  destruct (Hm st) as (a & evs & -> & Hevs).
  destruct (Hk a (advance evs 0 st)) as (r & evs' & -> & Hevs').
  rewrite advance_advance. eexists _, _. split; [done|].
  by apply Forall_app.
Qed.

(** Binding a pure result: the continuation knows the value. *)
Lemma emits_lift_bind (r : result A) (k : A → M B) :
  (∀ a, r = Ok a → emits h P (k a)) → emits h P (lift r ≫= k).
Proof.
  intros Hk st. unfold mbind, M_bind, lift. destruct r as [a|e].
  - by apply Hk.
  - exists (Raise e), []. by rewrite advance_nil.
Qed.

Lemma emits_try_catch (body : M A) catches (handler : exn → M A) :
  emits h P body → (∀ e, emits h P (handler e)) →
  emits h P (try_catch body catches handler).
Proof.
  intros Hb Hh st. unfold try_catch.
  destruct (Hb st) as ([a|e] & evs & -> & Hevs); [eauto|].
  destruct (catches e); [|eauto].
  destruct (Hh e (advance evs 0 st)) as (r & evs' & -> & Hevs').
  rewrite advance_advance. eexists _, _. split; [done|].
  by apply Forall_app.
Qed.

Lemma returns_try_catch (body : M A) (handler : exn → M A) :
  emits h P body → (∀ e, returns h P (handler e)) →
  returns h P (try_catch body any_exception handler).
Proof.
  intros Hb Hh st. unfold try_catch.
  destruct (Hb st) as ([a|e] & evs & -> & Hevs); [eauto|].
  simpl. destruct (Hh e (advance evs 0 st)) as (r & evs' & -> & Hevs').
  rewrite advance_advance. eexists _, _. split; [done|].
  by apply Forall_app.
Qed.

Lemma emits_get_device id (k : Device → M A) :
  (∀ dev, devices h !! id = Some dev → emits h P (k dev)) →
  emits h P (get_device id ≫= k).
Proof.
  intros Hk st. unfold mbind, M_bind, get_device.
  destruct (devices h !! id) as [dev|] eqn:Hdev.
  - by apply Hk.
  - exists (Raise KeyError), []. by rewrite advance_nil.
Qed.

Lemma emits_get_variable id (k : IndigoVar → M A) :
  (∀ var, variables h !! id = Some var → emits h P (k var)) →
  emits h P (get_variable id ≫= k).
Proof.
  intros Hk st. unfold mbind, M_bind, get_variable.
  destruct (variables h !! id) as [var|] eqn:Hvar.
  - by apply Hk.
  - exists (Raise KeyError), []. by rewrite advance_nil.
Qed.

Lemma emits_attr (a : option A) : emits h P (attr a).
Proof. destruct a; [apply emits_ret|apply emits_raise]. Qed.

End Emits.

Section EmitsLoops.
Context {A R : Type} (h : Host) (P : Event → Prop).

Lemma emits_for_each (xs : list A) (body : A → M unit) :
  (∀ x, x ∈ xs → emits h P (body x)) → emits h P (for_each xs body).
Proof.
  induction xs as [|x xs IH]; intros Hb; simpl.
  - apply emits_ret.
  - apply emits_bind; [apply Hb; by left|]. intros _.
    apply IH. intros y Hy. apply Hb. by right.
Qed.

Lemma emits_for_return (xs : list A) (body : A → M (option R)) :
  (∀ x, x ∈ xs → emits h P (body x)) → emits h P (for_return xs body).
Proof.
  induction xs as [|x xs IH]; intros Hb; simpl.
  - apply emits_ret.
  - apply emits_bind; [apply Hb; by left|]. intros [r|].
    + apply emits_ret.
    + apply IH. intros y Hy. apply Hb. by right.
Qed.

End EmitsLoops.

Lemma returns_log h (P : Event → Prop) level msg :
  P (Log level msg None) → returns h P (log level msg).
Proof.
  intros HP st. exists (), [Log level msg None]. split.
  - unfold log, emit, advance. by rewrite Nat.add_0_r.
  - by repeat constructor.
Qed.

Lemma returns_log_exc h (P : Event → Prop) level msg e :
  P (Log level msg (Some e)) → returns h P (log_exc level msg e).
Proof.
  intros HP st. exists (), [Log level msg (Some e)]. split.
  - unfold log_exc, emit, advance. by rewrite Nat.add_0_r.
  - by repeat constructor.
Qed.

Lemma emits_call h (P : Event → Prop) c :
  (∀ ok, P (Call c ok)) → emits h P (call c).
Proof.
  intros HP st. eexists _, [Call c (accepts h c)]. split.
  - unfold call, advance. by rewrite Nat.add_0_r.
  - by repeat constructor.
Qed.

Lemma emits_get_device_scene_state h P dev :
  emits h P (_get_device_scene_state dev).
Proof.
  unfold _get_device_scene_state.
  repeat case_bool_decide;
    repeat first [ apply emits_ret
                 | apply emits_bind; [apply emits_attr|intros ?]
                 | case_match ].
Qed.

Lemma emits_check_item h scene_dev item :
  emits h is_log (check_item scene_dev item).
Proof.
  destruct item as [item_key saved_state]. unfold check_item.
  destruct (String.prefix "device_" item_key).
  { apply emits_bind.
    - apply emits_try_catch.
      + apply emits_bind; [apply emits_lift|]. intros dev_id.
        apply emits_get_device. intros dev _. apply emits_ret.
      + intros _. apply emits_bind; [|intros; apply emits_ret].
        by apply returns_emits, returns_log.
    - intros [dev|]; [|apply emits_ret].
      apply emits_bind; [apply emits_get_device_scene_state|].
      intros current_state. apply emits_lift. }
  destruct (String.prefix "variable_" item_key); [|apply emits_ret].
  apply emits_try_catch.
  - apply emits_bind; [apply emits_lift|]. intros var_id.
    apply emits_get_variable. intros var _.
    apply emits_bind; [apply emits_lift|]. intros v.
    apply emits_bind; [by apply returns_emits, returns_log|]. intros _.
    case_bool_decide; apply emits_ret.
  - intros _. apply emits_bind; [|intros; apply emits_ret].
    by apply returns_emits, returns_log.
Qed.

(** [_check_scene_match] only reads: whatever the scene device, the host
    tables and the plugin state, it returns a boolean (no exception leaves
    it), sends no command to the host, takes no lock, leaves the plugin
    fields as they are, and adds only log lines to the trace. *)
Theorem check_scene_match_reads_only (scene_dev : Device) (h : Host) (st : State) :
  ∃ (matches : bool) (evs : list Event),
    _check_scene_match scene_dev h st = (Ok matches, advance evs 0 st) ∧
    Forall is_log evs.
Proof.
  revert st. change (returns h is_log (_check_scene_match scene_dev)).
  unfold _check_scene_match. apply returns_try_catch.
  2:{ intros e. apply returns_bind; [by apply returns_log_exc|].
      intros _. apply returns_ret. }
  destruct (negb _); [apply emits_ret|].
  apply emits_bind.
  - apply emits_try_catch.
    + apply emits_bind; [apply emits_lift|]. intros v. apply emits_ret.
    + intros _. apply emits_bind; [|intros; apply emits_ret].
      by apply returns_emits, returns_log.
  - intros [saved_states|]; [|apply emits_ret].
    apply emits_bind; [apply emits_lift|]. intros items.
    apply emits_bind; [|intros; apply emits_ret].
    apply emits_for_return. intros item _. apply emits_check_item.
Qed.

(** The commands of one device entry go to that device. *)
Lemma emits_apply_device h dev_id saved_state :
  emits h (λ ev, match ev with
                 | Log _ _ _ => True
                 | Call c _ => command_target c = DeviceTarget dev_id
                 | _ => False
                 end) (apply_device dev_id saved_state).
Proof.
  unfold apply_device.
  repeat first
    [ apply emits_ret
    | apply emits_call; done
    | apply emits_bind; [first [apply emits_lift | apply emits_call; done]
                        |intros ?]
    | case_match ].
Qed.

Lemma emits_weaken {A} h (P Q : Event → Prop) (m : M A) :
  (∀ ev, P ev → Q ev) → emits h P m → emits h Q m.
Proof.
  intros HPQ Hm st. destruct (Hm st) as (r & evs & -> & Hevs).
  eexists _, _. split; [done|]. by eapply Forall_impl.
Qed.

Lemma emits_apply_item h items item :
  item ∈ items → emits h (in_scope items h) (apply_item item).
Proof.
  intros Hin. destruct item as [item_key saved_state]. unfold apply_item.
  destruct (String.prefix "device_" item_key) eqn:Hdevice.
  { apply emits_try_catch.
    - apply emits_lift_bind. intros dev_id Hid.
      apply emits_get_device. intros dev Hdev.
      eapply emits_weaken; [|apply emits_apply_device].
      intros [| c ok | |]; simpl; try done. intros Hc.
      exists (item_key, saved_state). split; [done|]. rewrite Hc. simpl.
      by rewrite Hdev.
    - intros e. by apply returns_emits, returns_log_exc. }
  destruct (String.prefix "variable_" item_key) eqn:Hvariable;
    [|apply emits_ret].
  apply emits_try_catch.
  - apply emits_lift_bind. intros var_id Hid.
    apply emits_get_variable. intros var Hvar.
    apply emits_bind; [apply emits_lift|]. intros v.
    apply emits_bind; [by apply returns_emits, returns_log|]. intros _.
    apply emits_call. intros ok. simpl.
    exists (item_key, saved_state). split; [done|]. simpl. by rewrite Hvar.
  - intros e. apply emits_bind; [|intros _];
      by apply returns_emits, returns_log_exc.
Qed.

(** [_apply_scene_state] stays inside the snapshot: whatever the scene
    device, the host and the plugin state, it returns (no exception leaves
    it), takes no lock and leaves the plugin fields as they are, and every
    command it sends goes to a device or a variable that a key of the saved
    snapshot names and that the host knows; all other events are log
    lines. *)
Theorem apply_scene_state_in_scope (scene_dev : Device) (h : Host) (st : State) :
  ∃ evs : list Event,
    _apply_scene_state scene_dev h st = (Ok (), advance evs 0 st) ∧
    Forall (in_scope (saved_items scene_dev) h) evs.
Proof.
  assert (returns h (in_scope (saved_items scene_dev) h)
            (_apply_scene_state scene_dev)) as H.
  2:{ destruct (H st) as ([] & evs & ? & ?). eauto. }
  unfold _apply_scene_state. apply returns_try_catch.
  2:{ intros e. by apply returns_log_exc. }
  destruct (negb _); [by apply returns_emits, returns_log|].
  unfold saved_items.
  destruct (json_loads (props_get scene_dev "savedStates" (PStr "")))
    as [saved_states|e].
  - assert (emits h (in_scope (default [] (Json.to_option (py_items saved_states))) h)
              (items ← lift (py_items saved_states); for_each items apply_item))
      as Hloop.
    { apply emits_lift_bind. intros items ->. simpl.
      apply emits_for_each. intros item Hitem. by apply emits_apply_item. }
    intros st'. destruct (Hloop st') as (r & evs & Hrun & Hevs).
    exists r, evs. split.
    2:{ unfold mbind, result_bind, rbind. by destruct (py_items saved_states). }
    rewrite <-Hrun. reflexivity.
  - intros st'. unfold mbind, M_bind, try_catch, lift. simpl.
    destruct (is_ValueError e).
    + eexists _, [_]. split.
      * unfold log, emit, advance. simpl. by rewrite Nat.add_0_r.
      * by repeat constructor.
    + exists (Raise e), []. by rewrite advance_nil.
Qed.

End TraceFacts.

(** ** Variable ids *)

Module VarIdFacts.
Import Py Indigo Plugin Scene Lifecycle.

Lemma int_of_string_raises s e : int_of_string s = Raise e → e = ValueError.
Proof.
  unfold int_of_string. intros H. repeat (case_match; simplify_eq); done.
Qed.

Lemma int_of_string_empty : int_of_string "" = Raise ValueError.
Proof. reflexivity. Qed.


End VarIdFacts.

(** ** Relay actions *)

Module RelayActionFacts.
Import Py Relay Indigo Plugin Scene Lifecycle Flash Trace Actions.
Import RelayFacts FlashFacts.

(** [_apply_relay_states] returns on every input (no exception leaves it)
    and keeps the plugin fields.  It sends no command unless both ids are
    integers; then relay 1 is switched first, and relay 2 only after the
    host has accepted the command for relay 1: a refused command is logged
    and ends the method. *)
Theorem apply_relay_states_order (relay1_id relay2_id : pyval)
    (on1 on2 : bool) (h : Host) (st : State) :
  ∃ evs,
    _apply_relay_states relay1_id relay2_id on1 on2 h st
    = (Ok (), advance evs 0 st) ∧
    match py_int relay1_id, py_int relay2_id with
    | Ok id1, Ok id2 =>
        let c1 := switch id1 on1 in
        let c2 := switch id2 on2 in
        let failed := Log Error "Error applying relay states: " (Some HostError) in
        evs = if accepts h c1 then
                if accepts h c2 then [Call c1 true; Call c2 true]
                else [Call c1 true; Call c2 false; failed]
              else [Call c1 false; failed]
    | Raise e, _ | Ok _, Raise e =>
        evs = [Log Error "Error applying relay states: " (Some e)]
    end.
Proof.
  unfold _apply_relay_states, try_catch, mbind, M_bind, lift, call, log_exc,
    emit, advance.
  destruct (py_int relay1_id) as [id1|e1]; simpl.
  2:{ eexists. split; [|done]. by rewrite Nat.add_0_r. }
  destruct (py_int relay2_id) as [id2|e2]; simpl.
  2:{ eexists. split; [|done]. by rewrite Nat.add_0_r. }
  destruct (accepts h (switch id1 on1)); simpl.
  2:{ eexists. split; [|done]. by rewrite <-app_assoc, Nat.add_0_r. }
  destruct (accepts h (switch id2 on2)); simpl.
  - eexists. split; [|done]. by rewrite <-app_assoc, Nat.add_0_r.
  - eexists. split; [|done]. by rewrite <-!app_assoc, Nat.add_0_r.
Qed.

(** A Relay2Dimmer action shows at once what the relays will show: for a
    configured device whose state updates the host accepts, the handler
    writes to brightnessLevel the table level of the relay pair it hands to
    its thread, a canonical level; writes to onOffState whether one of the
    two relays will be on; and the pair is the one
    [_level_to_relay_states] gives for the level asked for. *)
Theorem relay2_dimmer_action_shows_relays (action_str : kDimmerRelayAction → string)
    (deviceAction : kDimmerRelayAction) (actionValue : ActionValue)
    (dev : Device) (relay1_id relay2_id : pyval) (current target : Z)
    (h : Host) (st : State) :
  deviceTypeId dev = "Relay2Dimmer" →
  pluginProps dev !! "relay1Device" = Some relay1_id →
  pluginProps dev !! "relay2Device" = Some relay2_id →
  py_truthy relay1_id = true → py_truthy relay2_id = true →
  brightness dev = Some current →
  target_level deviceAction actionValue current = Some target →
  (∀ key value, accepts h (UpdateStateOnServer (dev_id dev) key value) = true) →
  ∃ logs job,
    actionControlDimmerRelay action_str deviceAction actionValue dev h st
    = (Ok (Some job),
       advance (logs ++
                [Call (UpdateStateOnServer (dev_id dev) "brightnessLevel"
                         (PInt (_relay_states_to_level (job_relay1_on job)
                                                       (job_relay2_on job)))) true;
                 Call (UpdateStateOnServer (dev_id dev) "onOffState"
                         (PBool (job_relay1_on job || job_relay2_on job))) true])
               0 st) ∧
    Forall is_log logs ∧
    job_relay1 job = relay1_id ∧ job_relay2 job = relay2_id ∧
    (job_relay1_on job, job_relay2_on job) = _level_to_relay_states target ∧
    _relay_states_to_level (job_relay1_on job) (job_relay2_on job)
      ∈ canonical_levels.
Proof.
  intros Htype Hr1 Hr2 Ht1 Ht2 Hcur Htarget Hacc.
  unfold actionControlDimmerRelay. rewrite bool_decide_true by done.
  unfold control_relay2_dimmer. rewrite Hr1, Hr2. simpl default.
  rewrite Ht1, Ht2. simpl negb. cbv iota.
  assert (∃ on1 on2, _level_to_relay_states target = (on1, on2))
    as (on1 & on2 & Hpair) by (destruct (_level_to_relay_states target); eauto).
  assert (∀ events1 events2 : list Event,
    {| self := self st; events := events1; looks := looks st |}
    = advance events2 0 st ↔ events1 = (events st ++ events2)%list) as Hadv.
  { intros. unfold advance. rewrite Nat.add_0_r. split; [by intros [=]|by intros ->]. }
  destruct deviceAction; simpl in Htarget; simplify_eq;
    unfold mbind, M_bind, log, emit, call, mret, M_ret, attr;
    rewrite ?Hcur; simpl; rewrite ?Hpair; simpl; rewrite ?Hacc; simpl;
    destruct on1, on2; try (by vm_compute in Hpair);
    (eexists [_; _; _; _], _; split_and!;
     [ f_equal; apply Hadv; rewrite <-!app_assoc; reflexivity
     | by repeat constructor | done | done | done
     | simpl; by repeat constructor ]).
Qed.

Lemma relay2_dimmer_action_shows_relays_witness :
  let dev := with_type "Relay2Dimmer"
               (with_props {[ "relay1Device" := PStr "9";
                              "relay2Device" := PStr "12" ]} example_dimmer) in
  ∃ logs job,
    actionControlDimmerRelay (λ _, "SetBrightness") kSetBrightness (AInt 40) dev
      example_host initial_state
    = (Ok (Some job),
       advance (logs ++
                [Call (UpdateStateOnServer (dev_id dev) "brightnessLevel"
                         (PInt (_relay_states_to_level (job_relay1_on job)
                                                       (job_relay2_on job)))) true;
                 Call (UpdateStateOnServer (dev_id dev) "onOffState"
                         (PBool (job_relay1_on job || job_relay2_on job))) true])
               0 initial_state) ∧
    Forall is_log logs ∧
    job_relay1 job = PStr "9" ∧ job_relay2 job = PStr "12" ∧
    (job_relay1_on job, job_relay2_on job) = _level_to_relay_states 40 ∧
    _relay_states_to_level (job_relay1_on job) (job_relay2_on job)
      ∈ canonical_levels.
Proof.
  intros dev.
  apply (relay2_dimmer_action_shows_relays (λ _, "SetBrightness") kSetBrightness
           (AInt 40) dev (PStr "9") (PStr "12") 50 40 example_host initial_state);
    reflexivity.
Defined.

Lemma target_speed_range speedControlAction actionValue current idx :
  0 <= current <= 3 →
  target_speed speedControlAction actionValue current = Some idx →
  idx = 0 ∨ idx = 1 ∨ idx = 2 ∨ idx = 3.
Proof. intros Hc Ht. destruct speedControlAction; simpl in Ht; simplify_eq; lia. Qed.

(** A fan speed survives the relays: for a configured Relay2Fan whose
    speedIndex state is one of 0..3, every speed action asks for an index
    from 0 to 3, names it in the log (no [IndexError]), and hands to its
    thread the relay pair from which [deviceUpdated] reads the same index
    back.  The handler sends no command itself and keeps the plugin
    fields. *)
Theorem relay2_fan_action_round_trip
    (speedControlAction : kSpeedControlAction) (actionValue : ActionValue)
    (dev : Device) (relay1_id relay2_id : pyval) (current idx : Z)
    (h : Host) (st : State) :
  deviceTypeId dev = "Relay2Fan" →
  pluginProps dev !! "relay1Device" = Some relay1_id →
  pluginProps dev !! "relay2Device" = Some relay2_id →
  py_truthy relay1_id = true → py_truthy relay2_id = true →
  speed_index_state dev = Ok current → 0 <= current <= 3 →
  target_speed speedControlAction actionValue current = Some idx →
  ∃ name job,
    actionControlSpeedControl speedControlAction actionValue dev h st
    = (Ok (Some job),
       advance [Log Info ("Relay2Fan '" +:+ dev_name dev +:+ "': setting to "
                          +:+ name) None] 0 st) ∧
    0 <= idx <= 3 ∧
    speed_names !! Z.to_nat idx = Some name ∧
    job_relay1 job = relay1_id ∧ job_relay2 job = relay2_id ∧
    (job_relay1_on job, job_relay2_on job)
      = _level_to_relay_states (speed_level idx) ∧
    speed_index_of (_relay_states_to_level (job_relay1_on job)
                                           (job_relay2_on job)) = idx.
Proof.
  intros Htype Hr1 Hr2 Ht1 Ht2 Hcur Hrange Htarget.
  pose proof (target_speed_range _ _ _ _ Hrange Htarget) as Hidx.
  unfold actionControlSpeedControl. rewrite bool_decide_true by done.
  rewrite Hr1, Hr2. cbv zeta. simpl (default _ _). rewrite Ht1, Ht2.
  change (negb true || negb true) with false. cbv iota.
  destruct speedControlAction; simpl in Htarget; simplify_eq;
    unfold mbind at 1, M_bind at 1;
    unfold mbind at 1, M_bind at 1, lift at 1, mret at 1, M_ret at 1;
    rewrite ?Hcur; cbv beta iota;
    destruct Hidx as [Hi|[Hi|[Hi|Hi]]]; try (exfalso; lia); try rewrite Hi;
    (eexists _, _; split_and!;
     [ unfold mbind, M_bind, lift, log, emit, advance; simpl;
       by rewrite Nat.add_0_r
     | lia | lia | reflexivity | reflexivity | reflexivity | reflexivity
     | reflexivity ]).
Qed.

Lemma relay2_fan_action_round_trip_witness :
  let dev := with_type "Relay2Fan"
               (with_props {[ "relay1Device" := PStr "9";
                              "relay2Device" := PStr "12" ]} example_relay) in
  ∃ name job,
    actionControlSpeedControl sIncreaseSpeedIndex (AInt 0) dev
      example_host initial_state
    = (Ok (Some job),
       advance [Log Info ("Relay2Fan '" +:+ dev_name dev +:+ "': setting to "
                          +:+ name) None] 0 initial_state) ∧
    0 <= 1 <= 3 ∧
    speed_names !! Z.to_nat 1 = Some name ∧
    job_relay1 job = PStr "9" ∧ job_relay2 job = PStr "12" ∧
    (job_relay1_on job, job_relay2_on job)
      = _level_to_relay_states (speed_level 1) ∧
    speed_index_of (_relay_states_to_level (job_relay1_on job)
                                           (job_relay2_on job)) = 1.
Proof.
  intros dev.
  apply (relay2_fan_action_round_trip sIncreaseSpeedIndex (AInt 0) dev
           (PStr "9") (PStr "12") 0 1 example_host initial_state);
    first [reflexivity | lia].
Defined.

End RelayActionFacts.

(** ** Caches and feedback *)

Module FeedbackFacts.
Import Py Relay Indigo Plugin Scene Lifecycle Flash Trace Actions.
Import TextFacts ScaleFacts ConverterFacts FlashFacts TraceFacts.

Lemma py_contains_str c v e : py_contains c v = Raise e → e = TypeError.
Proof. destruct v; simpl; intros; by simplify_eq. Qed.

(** [_get_scale_params] never raises and only logs; what it returns and
    logs depends on the device alone. *)
Lemma get_scale_params_run dev :
  ∃ p logs, Forall is_log logs ∧
    ∀ h st, _get_scale_params dev h st = (Ok p, advance logs 0 st).
Proof.
  unfold _get_scale_params, try_catch, mbind, M_bind, lift.
  destruct (py_float (props_get dev "scaleMin" (PStr "0"))) as [mn|e] eqn:Hmn.
  2:{ destruct (py_float_raises _ _ Hmn) as [-> | ->]; simpl;
        eexists _, []; (split; [done|]); intros; by rewrite advance_nil. }
  destruct (py_float (props_get dev "scaleMax" (PStr "100"))) as [mx|e] eqn:Hmx.
  2:{ destruct (py_float_raises _ _ Hmx) as [-> | ->]; simpl;
        eexists _, []; (split; [done|]); intros; by rewrite advance_nil. }
  destruct (py_ge mn mx).
  { simpl. eexists _, [Log Warning _ None]. split; [by repeat constructor|].
    intros. unfold advance. simpl. by rewrite Nat.add_0_r. }
  destruct (py_contains "." (props_get dev "scaleMin" (PStr "0")))
    as [b1|e] eqn:H1.
  2:{ rewrite (py_contains_str _ _ _ H1). simpl.
      eexists _, []; (split; [done|]); intros; by rewrite advance_nil. }
  destruct (py_contains "." (props_get dev "scaleMax" (PStr "100")))
    as [b2|e] eqn:H2.
  2:{ rewrite (py_contains_str _ _ _ H2). simpl.
      eexists _, []; (split; [done|]); intros; by rewrite advance_nil. }
  simpl. eexists _, []. split; [done|]. intros. by rewrite advance_nil.
Qed.

(** The polling round does nothing when the cache holds the value of the
    variable. *)
Lemma poll_variable_quiet dev var_id var h st :
  variables h !! var_id = Some var →
  last_variable_values (self st) !! cache_key dev var_id = Some (var_value var) →
  poll_variable dev var_id h st = (Ok (), st).
Proof.
  intros Hvar Hcache.
  unfold poll_variable, try_catch, mbind, M_bind, get_variable, get_self.
  rewrite Hvar. cbv zeta. rewrite Hcache.
  by rewrite bool_decide_false by (by intros []).
Qed.

(** The first part of [deviceUpdated] does nothing when the cache holds
    the brightness of the device. *)
Lemma deviceUpdated_dimmer_quiet plugin_id new_dev b h st :
  brightness new_dev = Some b →
  last_device_brightness (self st) !! dev_id new_dev = Some b →
  ∃ returned, deviceUpdated_dimmer plugin_id new_dev h st = (Ok returned, st).
Proof.
  intros Hb Hcache. unfold deviceUpdated_dimmer.
  destruct (_ && _); [|by eexists].
  unfold mbind, M_bind, get_self, lift, _get_brightness. rewrite Hb, Hcache.
  case_bool_decide; [by eexists|]. simpl.
  rewrite bool_decide_false by (by intros []). by eexists.
Qed.

Lemma deviceUpdated_quiet plugin_id own_devices old_dev new_dev b h st :
  brightness new_dev = Some b →
  last_device_brightness (self st) !! dev_id new_dev = Some b →
  class_name new_dev ≠ "RelayDevice" →
  deviceUpdated plugin_id own_devices old_dev new_dev h st = (Ok (), st).
Proof.
  intros Hb Hcache Hclass. unfold deviceUpdated.
  destruct (deviceUpdated_dimmer_quiet plugin_id new_dev b h st Hb Hcache)
    as (returned & Hrun).
  unfold mbind, M_bind. rewrite Hrun.
  destruct returned; [done|]. by rewrite bool_decide_false.
Qed.

(** An action on a variable-linked dimmer does not trigger itself again.
    When [handleDimmerAction] goes through (the device names a variable,
    the level is a number, the text for it can be written, the host
    accepts the two writes), it sends the text to the variable and the
    clamped level to brightnessLevel and caches both; after it a polling
    round that finds the written text in the variable does nothing, and
    neither does [deviceUpdated] for the device at the written level. *)
Theorem dimmer_action_no_feedback (dev : Device) (level : pyval)
    (var_id l : Z) (mn mx : pyfloat) (isf : bool) (s : string)
    (h : Host) (st : State) :
  _extract_var_id (props_get dev "variableId" (PStr "")) = Ok (Some var_id) →
  var_id ≠ 0 →
  py_int level = Ok l →
  (_get_scale_params dev h st).1 = Ok (mn, mx, isf) →
  _brightness_to_variable (clamp_level l) mn mx isf = Ok s →
  accepts h (UpdateValue var_id (PStr s)) = true →
  accepts h (UpdateStateOnServer (dev_id dev) "brightnessLevel"
               (PInt (clamp_level l))) = true →
  ∃ logs st',
    handleDimmerAction dev level h st = (Ok (), st') ∧
    events st' = (events st ++ logs ++
      [Call (UpdateValue var_id (PStr s)) true;
       Call (UpdateStateOnServer (dev_id dev) "brightnessLevel"
               (PInt (clamp_level l))) true])%list ∧
    Forall is_log logs ∧
    last_variable_values (self st') !! cache_key dev var_id = Some s ∧
    last_device_brightness (self st') !! dev_id dev = Some (clamp_level l) ∧
    (∀ h' var, variables h' !! var_id = Some var → var_value var = s →
               poll_dimmer dev h' st' = (Ok (), st')) ∧
    (∀ h' plugin_id own_devices old_dev new_dev,
       dev_id new_dev = dev_id dev →
       brightness new_dev = Some (clamp_level l) →
       class_name new_dev ≠ "RelayDevice" →
       deviceUpdated plugin_id own_devices old_dev new_dev h' st' = (Ok (), st')).
Proof.
  intros Hid Hnz Hl Hscale Hs Hacc1 Hacc2.
  destruct (get_scale_params_run dev) as (p & logs & Hlogs & Hrun).
  rewrite Hrun in Hscale. simpl in Hscale. simplify_eq.
  set (st' := {| self := set_last_variable_values
                   (<[cache_key dev var_id := s]>
                      (last_variable_values
                         (set_last_device_brightness
                            (<[dev_id dev := clamp_level l]>
                               (last_device_brightness (self st))) (self st))))
                   (set_last_device_brightness
                      (<[dev_id dev := clamp_level l]>
                         (last_device_brightness (self st))) (self st));
                 events := (events st ++ logs ++
                   [Call (UpdateValue var_id (PStr s)) true;
                    Call (UpdateStateOnServer (dev_id dev) "brightnessLevel"
                            (PInt (clamp_level l))) true])%list;
                 looks := looks st |}).
  assert (handleDimmerAction dev level h st = (Ok (), st')) as Hrun'.
  { unfold handleDimmerAction. unfold mbind at 1, M_bind at 1, lift at 1.
    rewrite Hid. destruct var_id as [|p|p]; [done| |];
      unfold try_catch, mbind, M_bind, lift; rewrite Hl, Hrun;
      fold (clamp_level l); rewrite Hs;
      unfold call, modify_self; simpl; rewrite Hacc1; simpl; rewrite Hacc2;
      simpl; unfold st'; rewrite Nat.add_0_r, <-!List.app_assoc; reflexivity. }
  exists logs, st'. split_and!; try done.
  - simpl. by rewrite lookup_insert_eq.
  - simpl. by rewrite lookup_insert_eq.
  - intros h' var Hvar Hval. unfold poll_dimmer, mbind, M_bind, lift.
    rewrite Hid. destruct var_id as [|p|p]; [done| |];
      (apply (poll_variable_quiet _ _ var); [done|]);
      rewrite Hval; simpl; by rewrite lookup_insert_eq.
  - intros h' plugin_id own_devices old_dev new_dev Hsame Hb Hclass.
    apply (deviceUpdated_quiet _ _ _ _ (clamp_level l)); [done| |done].
    rewrite Hsame. simpl. by rewrite lookup_insert_eq.
Qed.

Lemma dimmer_action_no_feedback_witness :
  ∃ logs st',
    handleDimmerAction example_linked (PInt 40) example_host initial_state
    = (Ok (), st') ∧
    events st' = (events initial_state ++ logs ++
      [Call (UpdateValue 7 (PStr "102")) true;
       Call (UpdateStateOnServer (dev_id example_linked) "brightnessLevel"
               (PInt (clamp_level 40))) true])%list ∧
    Forall is_log logs ∧
    last_variable_values (self st') !! cache_key example_linked 7 = Some "102" ∧
    last_device_brightness (self st') !! dev_id example_linked
      = Some (clamp_level 40) ∧
    (∀ h' var, variables h' !! 7 = Some var → var_value var = "102" →
               poll_dimmer example_linked h' st' = (Ok (), st')) ∧
    (∀ h' plugin_id own_devices old_dev new_dev,
       dev_id new_dev = dev_id example_linked →
       brightness new_dev = Some (clamp_level 40) →
       class_name new_dev ≠ "RelayDevice" →
       deviceUpdated plugin_id own_devices old_dev new_dev h' st' = (Ok (), st')).
Proof.
  apply (dimmer_action_no_feedback example_linked (PInt 40) 7 40
           (Fin 0) (Fin 255) false "102" example_host initial_state);
    first [reflexivity | discriminate].
Defined.

(** A brightness change of a variable-linked dimmer is mirrored once.
    When [deviceUpdated] sees a dimmer of the plugin that is not being
    flashed, at a brightness other than the cached one, it writes the text
    for the brightness to the linked variable (the device names one, the
    text can be written, the host accepts the write) and caches brightness
    and text; after it a polling round that finds the written text in the
    variable does nothing, and neither does a second [deviceUpdated] at the
    same brightness. *)
Theorem device_update_no_feedback (plugin_id : string)
    (own_devices : list Device) (old_dev new_dev : Device)
    (b var_id : Z) (mn mx : pyfloat) (isf : bool) (s : string)
    (h : Host) (st : State) :
  pluginId new_dev = plugin_id → deviceTypeId new_dev = "myDimmerType" →
  class_name new_dev ≠ "RelayDevice" →
  dev_id new_dev ∉ flashing_devices (self st) →
  brightness new_dev = Some b →
  b ≠ default (-1) (last_device_brightness (self st) !! dev_id new_dev) →
  _extract_var_id (props_get new_dev "variableId" (PStr "")) = Ok (Some var_id) →
  var_id ≠ 0 →
  (_get_scale_params new_dev h st).1 = Ok (mn, mx, isf) →
  _brightness_to_variable b mn mx isf = Ok s →
  accepts h (UpdateValue var_id (PStr s)) = true →
  ∃ logs st',
    deviceUpdated plugin_id own_devices old_dev new_dev h st = (Ok (), st') ∧
    events st' = (events st ++ logs
                  ++ [Call (UpdateValue var_id (PStr s)) true])%list ∧
    Forall is_log logs ∧
    last_variable_values (self st') !! cache_key new_dev var_id = Some s ∧
    last_device_brightness (self st') !! dev_id new_dev = Some b ∧
    (∀ h' var, variables h' !! var_id = Some var → var_value var = s →
               poll_dimmer new_dev h' st' = (Ok (), st')) ∧
    (∀ h' old_dev', deviceUpdated plugin_id own_devices old_dev' new_dev h' st'
                    = (Ok (), st')).
Proof.
  intros Hplugin Htype Hclass Hflash Hb Hchanged Hid Hnz Hscale Hs Hacc.
  destruct (get_scale_params_run new_dev) as (p & logs & Hlogs & Hrun).
  rewrite Hrun in Hscale. simpl in Hscale. simplify_eq.
  set (st' := {| self := set_last_variable_values
                   (<[cache_key new_dev var_id := s]>
                      (last_variable_values (self st)))
                   (set_last_device_brightness
                      (<[dev_id new_dev := b]>
                         (last_device_brightness (self st))) (self st));
                 events := (events st ++ logs
                            ++ [Call (UpdateValue var_id (PStr s)) true])%list;
                 looks := looks st |}).
  assert (deviceUpdated (pluginId new_dev) own_devices old_dev new_dev h st
          = (Ok (), st')) as Hrun'.
  { unfold deviceUpdated. unfold mbind at 1, M_bind at 1.
    assert (deviceUpdated_dimmer (pluginId new_dev) new_dev h st
            = (Ok false, st')) as ->.
    { unfold deviceUpdated_dimmer. rewrite !bool_decide_true by done.
      change (true && true) with true. cbv iota.
      unfold mbind, M_bind, get_self, lift, _get_brightness, modify_self,
        update_variable, try_catch, call, mret, M_ret.
      cbv beta iota zeta. rewrite bool_decide_false by done.
      rewrite Hb. simpl int_level. cbv beta iota zeta.
      rewrite bool_decide_true by done. rewrite Hid.
      destruct var_id as [|v|v]; [done| |];
        unfold mbind, M_bind, lift, call, modify_self, try_catch;
        cbv beta iota zeta;
        rewrite Hrun, Hs; simpl; rewrite Hacc; simpl;
        unfold st'; rewrite Nat.add_0_r, <-!List.app_assoc; reflexivity. }
    by rewrite bool_decide_false. }
  exists logs, st'. split_and!; try done.
  - simpl. by rewrite lookup_insert_eq.
  - simpl. by rewrite lookup_insert_eq.
  - intros h' var Hvar Hval. unfold poll_dimmer, mbind, M_bind, lift.
    rewrite Hid. destruct var_id as [|v|v]; [done| |];
      (apply (poll_variable_quiet _ _ var); [done|]);
      rewrite Hval; simpl; by rewrite lookup_insert_eq.
  - intros h' old_dev'.
    apply (deviceUpdated_quiet _ _ _ _ b); [done| |done].
    simpl. by rewrite lookup_insert_eq.
Qed.

Lemma device_update_no_feedback_witness :
  ∃ logs st',
    deviceUpdated "other" [] example_linked example_linked
      example_host initial_state = (Ok (), st') ∧
    events st' = (events initial_state ++ logs
                  ++ [Call (UpdateValue 7 (PStr "128")) true])%list ∧
    Forall is_log logs ∧
    last_variable_values (self st') !! cache_key example_linked 7 = Some "128" ∧
    last_device_brightness (self st') !! dev_id example_linked = Some 50 ∧
    (∀ h' var, variables h' !! 7 = Some var → var_value var = "128" →
               poll_dimmer example_linked h' st' = (Ok (), st')) ∧
    (∀ h' old_dev', deviceUpdated "other" [] old_dev' example_linked
                      h' st' = (Ok (), st')).
Proof.
  apply (device_update_no_feedback "other" [] example_linked
           example_linked 50 7 (Fin 0) (Fin 255) false "128"
           example_host initial_state);
    first [reflexivity | discriminate | apply not_elem_of_empty].
Defined.

(** The head of a polling round up to the change test. *)
Lemma poll_variable_changed dev var_id var h st :
  variables h !! var_id = Some var →
  last_variable_values (self st) !! cache_key dev var_id ≠ Some (var_value var) →
  poll_variable dev var_id h st
  = try_catch
      ('(scale_min, scale_max, is_float_scale) ← _get_scale_params dev;
       result ← lift (_variable_to_brightness (PStr (var_value var))
                        scale_min scale_max);
       let '(brightness, was_clamped, clamped_value) :=
         match result with
         | (Some b, wc, cv) => (Some b, wc, cv)
         | (None, _, _) => (None, false, None)
         end in
       match brightness with
       | None =>
           current_brightness ← lift (int_level (_get_brightness dev));
           corrected_value ← lift (_brightness_to_variable current_brightness
                                     scale_min scale_max is_float_scale);
           log Warning ("Invalid variable value '" +:+ var_value var
                        +:+ "' for " +:+ dev_name dev +:+ ", resetting to "
                        +:+ corrected_value);;
           call (UpdateValue var_id (PStr corrected_value));;
           modify_self (λ s, set_last_variable_values
                               (<[cache_key dev var_id := corrected_value]>
                                  (last_variable_values s)) s)
       | Some brightness =>
           if was_clamped then
             corrected_value ← lift (_brightness_to_variable brightness
                                       scale_min scale_max is_float_scale);
             log Warning ("Variable value '" +:+ var_value var
                          +:+ "' out of range for " +:+ dev_name dev
                          +:+ ", correcting to " +:+ corrected_value);;
             call (UpdateValue var_id (PStr corrected_value));;
             modify_self (λ s, set_last_variable_values
                                 (<[cache_key dev var_id := corrected_value]>
                                    (last_variable_values s)) s);;
             call (UpdateStateOnServer (dev_id dev) "brightnessLevel"
                     (PInt brightness));;
             modify_self (λ s, set_last_device_brightness
                                 (<[dev_id dev := brightness]>
                                    (last_device_brightness s)) s)
           else
             modify_self (λ s, set_last_variable_values
                                 (<[cache_key dev var_id := var_value var]>
                                    (last_variable_values s)) s);;
             call (UpdateStateOnServer (dev_id dev) "brightnessLevel"
                     (PInt brightness));;
             modify_self (λ s, set_last_device_brightness
                                 (<[dev_id dev := brightness]>
                                    (last_device_brightness s)) s)
       end)
      any_exception
      (λ e, log_exc Error "Error checking variable: " e) h st.
Proof.
  intros Hvar Hcache.
  unfold poll_variable, try_catch. unfold mbind at 1, M_bind at 1, get_variable.
  rewrite Hvar. cbv zeta. unfold mbind at 1, M_bind at 1, get_self at 1.
  by rewrite bool_decide_true.
Qed.

Lemma poll_dimmer_variable dev var_id h st :
  _extract_var_id (props_get dev "variableId" (PStr "")) = Ok (Some var_id) →
  var_id ≠ 0 →
  poll_dimmer dev h st = poll_variable dev var_id h st.
Proof.
  intros Hid Hnz. unfold poll_dimmer, mbind, M_bind, lift. rewrite Hid.
  by destruct var_id.
Qed.

(** A valid change of the variable reaches the device once.  When a
    polling round finds in the variable a value other than the cached one,
    and the value is a number inside the scale, the round writes its level
    to brightnessLevel (the host accepts the write), sends nothing to the
    variable, and caches value and level; after it a second round on the
    same host does nothing, and neither does [deviceUpdated] for the device
    at that level. *)
Theorem poll_no_feedback (dev : Device) (var_id : Z) (var : IndigoVar)
    (mn mx : pyfloat) (isf : bool) (b : Z) (value : option pyfloat)
    (h : Host) (st : State) :
  _extract_var_id (props_get dev "variableId" (PStr "")) = Ok (Some var_id) →
  var_id ≠ 0 →
  variables h !! var_id = Some var →
  last_variable_values (self st) !! cache_key dev var_id ≠ Some (var_value var) →
  (_get_scale_params dev h st).1 = Ok (mn, mx, isf) →
  _variable_to_brightness (PStr (var_value var)) mn mx
    = Ok (Some b, false, value) →
  accepts h (UpdateStateOnServer (dev_id dev) "brightnessLevel" (PInt b)) = true →
  ∃ logs st',
    poll_dimmer dev h st = (Ok (), st') ∧
    events st' = (events st ++ logs ++
      [Call (UpdateStateOnServer (dev_id dev) "brightnessLevel" (PInt b)) true])%list ∧
    Forall is_log logs ∧
    last_variable_values (self st') !! cache_key dev var_id
      = Some (var_value var) ∧
    last_device_brightness (self st') !! dev_id dev = Some b ∧
    poll_dimmer dev h st' = (Ok (), st') ∧
    (∀ h' plugin_id own_devices old_dev new_dev,
       dev_id new_dev = dev_id dev → brightness new_dev = Some b →
       class_name new_dev ≠ "RelayDevice" →
       deviceUpdated plugin_id own_devices old_dev new_dev h' st' = (Ok (), st')).
Proof.
  intros Hid Hnz Hvar Hcache Hscale Hlevel Hacc.
  destruct (get_scale_params_run dev) as (p & logs & Hlogs & Hrun).
  rewrite Hrun in Hscale. simpl in Hscale. simplify_eq.
  set (st' := {| self := set_last_device_brightness
                   (<[dev_id dev := b]> (last_device_brightness (self st)))
                   (set_last_variable_values
                      (<[cache_key dev var_id := var_value var]>
                         (last_variable_values (self st))) (self st));
                 events := (events st ++ logs ++
                   [Call (UpdateStateOnServer (dev_id dev) "brightnessLevel"
                            (PInt b)) true])%list;
                 looks := looks st |}).
  assert (poll_dimmer dev h st = (Ok (), st')) as Hrun'.
  { rewrite (poll_dimmer_variable _ var_id) by done.
    rewrite (poll_variable_changed _ _ var) by done.
    unfold try_catch, mbind, M_bind, lift. rewrite Hrun, Hlevel.
    unfold call, modify_self. simpl. rewrite Hacc. simpl.
    unfold st'. rewrite Nat.add_0_r, <-!List.app_assoc. reflexivity. }
  exists logs, st'. split_and!; try done.
  - simpl. by rewrite lookup_insert_eq.
  - simpl. by rewrite lookup_insert_eq.
  - rewrite (poll_dimmer_variable _ var_id) by done.
    apply (poll_variable_quiet _ _ var); [done|].
    simpl. by rewrite lookup_insert_eq.
  - intros h' plugin_id own_devices old_dev new_dev Hsame Hb Hclass.
    apply (deviceUpdated_quiet _ _ _ _ b); [done| |done].
    rewrite Hsame. simpl. by rewrite lookup_insert_eq.
Qed.

Lemma poll_no_feedback_witness :
  ∃ logs st',
    poll_dimmer example_linked (linked_host "102") initial_state = (Ok (), st') ∧
    events st' = (events initial_state ++ logs ++
      [Call (UpdateStateOnServer (dev_id example_linked) "brightnessLevel"
               (PInt 40)) true])%list ∧
    Forall is_log logs ∧
    last_variable_values (self st') !! cache_key example_linked 7
      = Some "102" ∧
    last_device_brightness (self st') !! dev_id example_linked = Some 40 ∧
    poll_dimmer example_linked (linked_host "102") st' = (Ok (), st') ∧
    (∀ h' plugin_id own_devices old_dev new_dev,
       dev_id new_dev = dev_id example_linked → brightness new_dev = Some 40 →
       class_name new_dev ≠ "RelayDevice" →
       deviceUpdated plugin_id own_devices old_dev new_dev h' st' = (Ok (), st')).
Proof.
  apply (poll_no_feedback example_linked 7
           {| var_id := 7; var_name := "level"; var_value := "102" |}
           (Fin 0) (Fin 255) false 40 (Some (Fin 102))
           (linked_host "102") initial_state);
    first [reflexivity | discriminate].
Defined.

(** An out-of-range value of the variable is corrected.  When a polling
    round finds in the variable a number outside the scale, it writes back
    the text for the clamped level, then writes the level to
    brightnessLevel (the host accepts both writes), and caches the
    corrected text and the level; on a finite scale the level is 0 below
    the scale and 100 above it.  After it a round that finds the corrected
    text in the variable does nothing. *)
Theorem poll_corrects_out_of_range (dev : Device) (var_id : Z) (var : IndigoVar)
    (mn mx : pyfloat) (isf : bool) (b : Z) (value : option pyfloat)
    (s : string) (h : Host) (st : State) :
  _extract_var_id (props_get dev "variableId" (PStr "")) = Ok (Some var_id) →
  var_id ≠ 0 →
  variables h !! var_id = Some var →
  last_variable_values (self st) !! cache_key dev var_id ≠ Some (var_value var) →
  (_get_scale_params dev h st).1 = Ok (mn, mx, isf) →
  _variable_to_brightness (PStr (var_value var)) mn mx
    = Ok (Some b, true, value) →
  _brightness_to_variable b mn mx isf = Ok s →
  accepts h (UpdateValue var_id (PStr s)) = true →
  accepts h (UpdateStateOnServer (dev_id dev) "brightnessLevel" (PInt b)) = true →
  ∃ logs st',
    poll_dimmer dev h st = (Ok (), st') ∧
    events st' = (events st ++ logs ++
      [Call (UpdateValue var_id (PStr s)) true;
       Call (UpdateStateOnServer (dev_id dev) "brightnessLevel" (PInt b)) true])%list ∧
    Forall is_log logs ∧
    last_variable_values (self st') !! cache_key dev var_id = Some s ∧
    last_device_brightness (self st') !! dev_id dev = Some b ∧
    (∀ p q, mn = Fin p → mx = Fin q → (p < q)%Q → b = 0 ∨ b = 100) ∧
    (∀ h' var', variables h' !! var_id = Some var' → var_value var' = s →
                poll_dimmer dev h' st' = (Ok (), st')).
Proof.
  intros Hid Hnz Hvar Hcache Hscale Hlevel Hs Hacc1 Hacc2.
  destruct (get_scale_params_run dev) as (p & logs & Hlogs & Hrun).
  rewrite Hrun in Hscale. simpl in Hscale. simplify_eq.
  set (warning := Log Warning ("Variable value '" +:+ var_value var
                     +:+ "' out of range for " +:+ dev_name dev
                     +:+ ", correcting to " +:+ s) None).
  set (st' := {| self := set_last_device_brightness
                   (<[dev_id dev := b]> (last_device_brightness (self st)))
                   (set_last_variable_values
                      (<[cache_key dev var_id := s]>
                         (last_variable_values (self st))) (self st));
                 events := (events st ++ (logs ++ [warning]) ++
                   [Call (UpdateValue var_id (PStr s)) true;
                    Call (UpdateStateOnServer (dev_id dev) "brightnessLevel"
                            (PInt b)) true])%list;
                 looks := looks st |}).
  assert (poll_dimmer dev h st = (Ok (), st')) as Hrun'.
  { rewrite (poll_dimmer_variable _ var_id) by done.
    rewrite (poll_variable_changed _ _ var) by done.
    unfold try_catch, mbind, M_bind, lift. rewrite Hrun, Hlevel.
    cbv beta iota. rewrite Hs.
    unfold log, emit, call, modify_self. simpl. rewrite Hacc1. simpl.
    rewrite Hacc2. simpl.
    unfold st', warning. rewrite Nat.add_0_r, <-!List.app_assoc. reflexivity. }
  exists (logs ++ [warning])%list, st'. split_and!; try done.
  - apply Forall_app. split; [done|]. by repeat constructor.
  - simpl. by rewrite lookup_insert_eq.
  - simpl. by rewrite lookup_insert_eq.
  - intros p q -> -> Hlt.
    pose proof (variable_to_brightness_cases (PStr (var_value var)) p q Hlt)
      as Hcl.
    destruct (py_float (PStr (var_value var))) as [x|e]; [|congruence].
    destruct x; try congruence;
      destruct Hcl as (level & Heq & _ & Hlo & Hhi);
      (assert (b = level) as -> by congruence);
      match type of Heq with
      | _ = Ok (_, ?wc, _) => assert (wc = true) as Hwc by congruence
      end;
      apply orb_true_iff in Hwc as [H|H];
      first [left; by apply Hlo | right; by apply Hhi].
  - intros h' var' Hvar' Hval.
    rewrite (poll_dimmer_variable _ var_id) by done.
    apply (poll_variable_quiet _ _ var'); [done|].
    rewrite Hval. simpl. by rewrite lookup_insert_eq.
Qed.

Lemma poll_corrects_out_of_range_witness :
  ∃ logs st',
    poll_dimmer example_linked (linked_host "300") initial_state = (Ok (), st') ∧
    events st' = (events initial_state ++ logs ++
      [Call (UpdateValue 7 (PStr "255")) true;
       Call (UpdateStateOnServer (dev_id example_linked) "brightnessLevel"
               (PInt 100)) true])%list ∧
    Forall is_log logs ∧
    last_variable_values (self st') !! cache_key example_linked 7
      = Some "255" ∧
    last_device_brightness (self st') !! dev_id example_linked = Some 100 ∧
    (∀ p q, Fin 0 = Fin p → Fin 255 = Fin q → (p < q)%Q → 100 = 0 ∨ 100 = 100) ∧
    (∀ h' var', variables h' !! 7 = Some var' → var_value var' = "255" →
                poll_dimmer example_linked h' st' = (Ok (), st')).
Proof.
  apply (poll_corrects_out_of_range example_linked 7
           {| var_id := 7; var_name := "level"; var_value := "300" |}
           (Fin 0) (Fin 255) false 100 (Some (Fin 255)) "255"
           (linked_host "300") initial_state);
    first [reflexivity | discriminate].
Defined.

(** A value of the variable that is no number is replaced.  When a polling
    round finds in the variable a text that is no number, it writes back
    the text for the brightness the device has (the host accepts the
    write) and caches that text; it sends nothing to the device and leaves
    the brightness cache alone.  After it a round that finds the written
    text in the variable does nothing. *)
Theorem poll_resets_invalid (dev : Device) (var_id : Z) (var : IndigoVar)
    (mn mx : pyfloat) (isf : bool) (current : Z) (s : string)
    (h : Host) (st : State) :
  _extract_var_id (props_get dev "variableId" (PStr "")) = Ok (Some var_id) →
  var_id ≠ 0 →
  variables h !! var_id = Some var →
  last_variable_values (self st) !! cache_key dev var_id ≠ Some (var_value var) →
  (_get_scale_params dev h st).1 = Ok (mn, mx, isf) →
  _variable_to_brightness (PStr (var_value var)) mn mx = Ok (None, false, None) →
  brightness dev = Some current →
  _brightness_to_variable current mn mx isf = Ok s →
  accepts h (UpdateValue var_id (PStr s)) = true →
  ∃ logs st',
    poll_dimmer dev h st = (Ok (), st') ∧
    events st' = (events st ++ logs
                  ++ [Call (UpdateValue var_id (PStr s)) true])%list ∧
    Forall is_log logs ∧
    last_variable_values (self st') !! cache_key dev var_id = Some s ∧
    last_device_brightness (self st') = last_device_brightness (self st) ∧
    (∀ h' var', variables h' !! var_id = Some var' → var_value var' = s →
                poll_dimmer dev h' st' = (Ok (), st')).
Proof.
  intros Hid Hnz Hvar Hcache Hscale Hlevel Hcur Hs Hacc.
  destruct (get_scale_params_run dev) as (p & logs & Hlogs & Hrun).
  rewrite Hrun in Hscale. simpl in Hscale. simplify_eq.
  set (warning := Log Warning ("Invalid variable value '" +:+ var_value var
                     +:+ "' for " +:+ dev_name dev +:+ ", resetting to " +:+ s)
                    None).
  set (st' := {| self := set_last_variable_values
                   (<[cache_key dev var_id := s]>
                      (last_variable_values (self st))) (self st);
                 events := (events st ++ (logs ++ [warning]) ++
                   [Call (UpdateValue var_id (PStr s)) true])%list;
                 looks := looks st |}).
  assert (poll_dimmer dev h st = (Ok (), st')) as Hrun'.
  { rewrite (poll_dimmer_variable _ var_id) by done.
    rewrite (poll_variable_changed _ _ var) by done.
    unfold try_catch, mbind, M_bind, lift. rewrite Hrun, Hlevel.
    cbv beta iota. unfold _get_brightness. rewrite Hcur. simpl int_level.
    cbv beta iota. rewrite Hs.
    unfold log, emit, call, modify_self. simpl. rewrite Hacc. simpl.
    unfold st', warning. rewrite Nat.add_0_r, <-!List.app_assoc. reflexivity. }
  exists (logs ++ [warning])%list, st'. split_and!; try done.
  - apply Forall_app. split; [done|]. by repeat constructor.
  - simpl. by rewrite lookup_insert_eq.
  - intros h' var' Hvar' Hval.
    rewrite (poll_dimmer_variable _ var_id) by done.
    apply (poll_variable_quiet _ _ var'); [done|].
    rewrite Hval. simpl. by rewrite lookup_insert_eq.
Qed.

Lemma poll_resets_invalid_witness :
  ∃ logs st',
    poll_dimmer example_linked (linked_host "bright") initial_state
    = (Ok (), st') ∧
    events st' = (events initial_state ++ logs
                  ++ [Call (UpdateValue 7 (PStr "128")) true])%list ∧
    Forall is_log logs ∧
    last_variable_values (self st') !! cache_key example_linked 7
      = Some "128" ∧
    last_device_brightness (self st')
      = last_device_brightness (self initial_state) ∧
    (∀ h' var', variables h' !! 7 = Some var' → var_value var' = "128" →
                poll_dimmer example_linked h' st' = (Ok (), st')).
Proof.
  apply (poll_resets_invalid example_linked 7
           {| var_id := 7; var_name := "level"; var_value := "bright" |}
           (Fin 0) (Fin 255) false 50 "128"
           (linked_host "bright") initial_state);
    first [reflexivity | discriminate].
Defined.

Lemma deviceUpdated_flashing plugin_id own_devices old_dev new_dev h st :
  pluginId new_dev = plugin_id → deviceTypeId new_dev = "myDimmerType" →
  dev_id new_dev ∈ flashing_devices (self st) →
  deviceUpdated plugin_id own_devices old_dev new_dev h st = (Ok (), st).
Proof.
  intros Hplugin Htype Hflash.
  assert (deviceUpdated_dimmer plugin_id new_dev h st = (Ok true, st)) as Hrun.
  { unfold deviceUpdated_dimmer. rewrite !bool_decide_true by done.
    change (true && true) with true. cbv iota.
    unfold mbind, M_bind, get_self. cbv beta iota.
    by rewrite bool_decide_true. }
  unfold deviceUpdated, mbind, M_bind. by rewrite Hrun.
Qed.

(** While a flash job holds a dimmer, its brightness is not mirrored.
    After the job has marked its devices ([mark_flashing], the step of
    [_flash_device_thread] before the first flash), [deviceUpdated] returns
    at once for every dimmer of the plugin among them: no command, no log
    line, no change of the caches, whatever brightness it reports. *)
Theorem flashing_device_not_mirrored (device_ids : list string) (d : string)
    (plugin_id : string) (own_devices : list Device) (old_dev new_dev : Device)
    (h h' : Host) (st : State) :
  Forall parses device_ids → d ∈ device_ids →
  int_of_string d = Ok (dev_id new_dev) →
  pluginId new_dev = plugin_id → deviceTypeId new_dev = "myDimmerType" →
  ∃ st1,
    mark_flashing device_ids h st = (Ok (), st1) ∧
    dev_id new_dev ∈ flashing_devices (self st1) ∧
    deviceUpdated plugin_id own_devices old_dev new_dev h' st1 = (Ok (), st1).
Proof.
  intros Hall Hd Hid Hplugin Htype.
  rewrite (mark_flashing_run _ _ _ Hall). eexists. split; [done|].
  assert (dev_id new_dev ∈ parsed_ids device_ids) as Hin.
  { unfold parsed_ids. apply list_elem_of_omap. exists d. split; [done|].
    by rewrite Hid. }
  assert (dev_id new_dev ∈ (list_to_set (parsed_ids device_ids)
                            ∪ flashing_devices (self st) : gset Z)) as Hset.
  { rewrite elem_of_union, elem_of_list_to_set. by left. }
  split; [exact Hset|]. by apply deviceUpdated_flashing.
Qed.

Lemma flashing_device_not_mirrored_witness :
  ∃ st1,
    mark_flashing ["9"; "12"] example_host initial_state = (Ok (), st1) ∧
    dev_id example_linked ∈ flashing_devices (self st1) ∧
    deviceUpdated "other" [] example_linked example_linked example_host st1
    = (Ok (), st1).
Proof.
  apply (flashing_device_not_mirrored ["9"; "12"] "12" "other" []
           example_linked example_linked example_host example_host
           initial_state).
  - repeat constructor; [by exists 9|by exists 12].
  - by repeat constructor.
  - reflexivity.
  - reflexivity.
  - reflexivity.
Defined.

End FeedbackFacts.

(** ** Snapshots that match *)

Module SnapshotFacts.
Import Py Relay Indigo Plugin Scene Lifecycle Flash Trace Actions.
Import TextFacts ScaleFacts FlashFacts TraceFacts.

Lemma float_eq_refl x : x ≠ NaN → float_eq x x = true.
Proof.
  destruct x; try done; intros _; simpl; apply Qeq_bool_iff; reflexivity.
Qed.

Lemma py_eq_int z : py_eq (PInt z) (PInt z) = true.
Proof. simpl. apply Qeq_bool_iff. reflexivity. Qed.

Lemma py_eq_bool b : py_eq (PBool b) (PBool b) = true.
Proof. by destruct b. Qed.

Lemma py_eq_str s : py_eq (PStr s) (PStr s) = true.
Proof. simpl. by rewrite bool_decide_true. Qed.

Lemma py_eq_float x : x ≠ NaN → py_eq (PFloat x) (PFloat x) = true.
Proof. apply float_eq_refl. Qed.

Lemma compare_own_state (dev : Device) (h : Host) (st : State)
    (current_state : list (string * pyval)) :
  _get_device_scene_state dev h st = (Ok current_state, st) →
  current_state ≠ [] →
  Forall (λ kv, py_eq kv.2 kv.2 = true) current_state →
  compare_device (PDict current_state) current_state = Ok None.
Proof.
  unfold _get_device_scene_state, attr, mbind, M_bind, mret, M_ret, raise.
  intros Hstate Hne Hrefl.
  repeat case_bool_decide;
    repeat match goal with
           | H : context [match ?a with Some _ => _ | None => _ end] |- _ =>
               destruct a eqn:?; simpl in H
           | H : (Raise _, _) = (Ok _, _) |- _ => discriminate H
           | H : (Ok _, _) = (Ok _, _) |- _ => injection H as <-
           | p : (_ * _)%type |- _ => destruct p
           end; try done;
    repeat match goal with
           | H : Forall _ (_ :: _) |- _ => apply Forall_cons in H as [? H]
           end; simpl in *;
    unfold compare_device, field_differs, py_getitem, dict_item,
      mbind, result_bind, rbind, mret, result_ret; simpl;
    repeat match goal with
           | H : ?e = true |- context [?e] => rewrite H; simpl
           end; done.
Qed.

(** A device matches its own snapshot: the state
    [_get_device_scene_state] reads off a device, when it is not empty and
    holds no NaN, compares equal to itself in [_check_scene_match], field
    by field and for each of the five device kinds, without a missing key
    and without an exception. *)
Theorem device_matches_own_state (dev : Device) (h : Host) (st : State)
    (current_state : list (string * pyval)) :
  _get_device_scene_state dev h st = (Ok current_state, st) →
  current_state ≠ [] →
  Forall (λ kv, py_eq kv.2 kv.2 = true) current_state →
  compare_device (PDict current_state) current_state = Ok None.
Proof. apply compare_own_state. Qed.

Lemma device_matches_own_state_witness :
  let current_state := [("type", PStr "dimmer"); ("brightness", PInt 50);
                        ("onState", PBool true)] in
  _get_device_scene_state example_dimmer example_host initial_state
    = (Ok current_state, initial_state) ∧
  compare_device (PDict current_state) current_state = Ok None.
Proof.
  split; [reflexivity|].
  apply (device_matches_own_state example_dimmer example_host initial_state).
  - reflexivity.
  - discriminate.
  - repeat constructor.
Defined.

Lemma remove_all_absent (c : ascii) (old' t : string) :
  string_forall (λ a, negb (bool_decide (a = c))) t = true →
  remove_all (String c old') t 0 = t.
Proof.
  induction t as [|a t IH]; simpl; [done|].
  intros [Ha Ht]%andb_true_iff. apply negb_true_iff, bool_decide_eq_false in Ha.
  destruct (ascii_dec c a) as [->|_]; [done|]. by rewrite IH.
Qed.

Lemma decimal_chars z (c : ascii) :
  is_digit c = false → c ≠ "-"%char →
  string_forall (λ a, negb (bool_decide (a = c))) (str_of_int z) = true.
Proof.
  intros Hdigit Hminus. rewrite str_of_int_sign, string_forall_app.
  apply andb_true_iff. split.
  - destruct (z <? 0); simpl; [|done].
    rewrite bool_decide_false by done. done.
  - destruct (str_of_N_spec (Z.abs_N z)) as (Hdigits & _).
    eapply string_forall_impl; [|exact Hdigits].
    intros a Ha. apply negb_true_iff, bool_decide_eq_false. by intros ->; congruence.
Qed.

Lemma device_key id :
  String.prefix "device_" ("device_" +:+ str_of_int id) = true ∧
  remove_all "device_" ("device_" +:+ str_of_int id) 0 = str_of_int id.
Proof.
  change ("device_" +:+ str_of_int id)
    with (String "d" (String "e" (String "v" (String "i" (String "c"
           (String "e" (String "_" (str_of_int id)))))))).
  assert (String.prefix "" (str_of_int id) = true) as Hnil
    by (by destruct (str_of_int id)).
  split; simpl; rewrite Hnil; [done|].
  by apply remove_all_absent, decimal_chars.
Qed.

Lemma variable_key id :
  String.prefix "device_" ("variable_" +:+ str_of_int id) = false ∧
  String.prefix "variable_" ("variable_" +:+ str_of_int id) = true ∧
  remove_all "variable_" ("variable_" +:+ str_of_int id) 0 = str_of_int id.
Proof.
  change ("variable_" +:+ str_of_int id)
    with (String "v" (String "a" (String "r" (String "i" (String "a"
           (String "b" (String "l" (String "e" (String "_"
             (str_of_int id)))))))))).
  assert (String.prefix "" (str_of_int id) = true) as Hnil
    by (by destruct (str_of_int id)).
  split_and!; [done|simpl; by rewrite Hnil|].
  simpl. rewrite Hnil. by apply remove_all_absent, decimal_chars.
Qed.

Lemma check_item_current scene_dev item h st :
  current h item →
  ∃ logs, check_item scene_dev item h st = (Ok None, advance logs 0 st) ∧
          Forall is_log logs.
Proof.
  intros [(id & dev & state & -> & Hdev & Hstate & Hne & Hrefl)
         |(id & var & v & Hkey & Hvar & Hv & Hstr)].
  - unfold check_item. destruct (device_key id) as [-> ->].
    unfold mbind, M_bind, try_catch, lift, get_device.
    rewrite int_of_str_of_int, Hdev. simpl. rewrite Hstate.
    rewrite (compare_own_state dev h st state) by done.
    exists []. by rewrite advance_nil.
  - destruct item as [item_key saved_state]. simpl in *. subst item_key.
    unfold check_item. destruct (variable_key id) as (-> & -> & ->).
    unfold mbind, M_bind, try_catch, lift, get_variable.
    rewrite int_of_str_of_int, Hvar, Hv. simpl.
    eexists [Log Debug _ None]. split; [|by repeat constructor].
    unfold log, emit, advance. simpl. rewrite Nat.add_0_r.
    rewrite bool_decide_false by (by intros []). done.
Qed.

Lemma check_scene_match_items (scene_dev : Device)
    (items : list (string * pyval)) (h : Host) (st : State) :
  json_loads (props_get scene_dev "savedStates" (PStr "")) = Ok (PDict items) →
  Forall (current h) items →
  ∃ logs,
    _check_scene_match scene_dev h st = (Ok true, advance logs 0 st) ∧
    Forall is_log logs.
Proof.
  intros Hloads Hitems.
  assert (∃ logs, for_return items (check_item scene_dev) h st
                  = (Ok None, advance logs 0 st) ∧ Forall is_log logs)
    as (logs & Hloop & Hlogs).
  { clear Hloads. revert st.
    induction Hitems as [|item items Hitem _ IH]; intros st.
    - exists []. simpl. by rewrite advance_nil.
    - destruct (check_item_current scene_dev item h st Hitem)
        as (logs1 & Hrun1 & Hlogs1).
      destruct (IH (advance logs1 0 st)) as (logs2 & Hrun2 & Hlogs2).
      exists (logs1 ++ logs2)%list. split; [|by apply Forall_app].
      simpl. unfold mbind, M_bind. rewrite Hrun1, Hrun2.
      by rewrite advance_advance. }
  exists logs. split; [|done].
  unfold _check_scene_match.
  destruct (props_get scene_dev "savedStates" (PStr "")) as [| | | |s| |];
    try done.
  assert (s ≠ "") as Hs by (intros ->; by vm_compute in Hloads).
  simpl py_truthy. rewrite bool_decide_false by done. simpl negb. cbv iota.
  unfold try_catch at 1. unfold mbind at 1, M_bind at 1.
  unfold try_catch at 1, mbind at 1, M_bind at 1, lift at 1.
  rewrite Hloads. simpl.
  unfold mbind, M_bind, lift, mret, M_ret. simpl. by rewrite Hloop.
Qed.



End SnapshotFacts.

(** ** Starting a flash job and running it *)

Module FlashActionFacts.
Import Py Indigo Plugin Scene Lifecycle Flash FlashAction.

Local Set Warnings "-clear-no-such-hyp".

Lemma device_names_run device_ids h st :
  ∃ r, device_names device_ids h st = (r, st).
Proof.
  induction device_ids as [|d ds IH]; [by eexists|].
  cbn [device_names]. unfold mbind, M_bind, lift, get_device.
  destruct (int_of_string d) as [id|e]; [|by eexists].
  destruct (devices h !! id) as [dev|]; [|by eexists].
  destruct IH as [r ->]. destruct r; by eexists.
Qed.

Lemma flashLamps_run props now h st :
  ∃ r st', flashLamps props now h st = (Ok r, st') ∧
    looks st' = looks st ∧
    match r with
    | None => self st' = self st
    | Some j => self st' = register (job_thread_id j) (self st) ∧ valid_job now j
    end.
Proof.
  unfold flashLamps.
  set (ids := filter _ _).
  assert (Hids : Forall (λ d, d ≠ "") ids).
  { subst ids. apply Forall_forall. intros d Hd. by apply list_elem_of_filter in Hd as [? _]. }
  clearbody ids.
  cbv [mbind M_bind try_catch lift mret M_ret log log_exc log_traceback emit
       with_lock try_finally modify_self any_exception].
  destruct (negb (py_truthy _)); [by eexists _, _|].
  case_bool_decide as Hne; [by eexists _, _|].
  destruct (py_int _) as [cnt|?]; [|by eexists _, _].
  destruct (py_float _) as [fd|?]; [|by eexists _, _].
  destruct (py_float _) as [gd|?]; [|by eexists _, _].
  destruct (py_strip _) as [bs|?]; [|by eexists _, _].
  destruct (py_strip _) as [ms|?]; [|by eexists _, _].
  destruct (optional_int bs) as [b|?]; [|by eexists _, _].
  destruct (optional_int ms) as [m|?]; [|by eexists _, _].
  destruct (cnt <=? 0) eqn:Hcnt; [by eexists _, _|].
  destruct (py_le fd (Fin 0)) eqn:Hfd; [by eexists _, _|].
  destruct (py_lt gd (Fin 0)) eqn:Hgd; [by eexists _, _|].
  cbn [orb job_device_ids job_flash_count job_flash_duration job_gap_duration].
  match goal with
  | |- context [device_names ?i ?h ?s] =>
      destruct (device_names_run i h s) as [r ->]
  end.
  assert (Hpercent : ∀ (o : option Z) x, percent <$> o = Some x → 0 ≤ x ≤ 100).
  { intros [y|] x [=]. unfold percent in *. lia. }
  destruct r; (eexists _, _; split; [reflexivity|]; cbn;
    split; [done|]; split; [done|]; unfold valid_job; cbn;
    split_and!; eauto; lia).
Qed.
(** A loop over the device ids that updates [flashing_devices] per id stops
    with [ValueError] at the first id that is no integer. *)
Lemma id_loop_bad (f : Z → gset Z → gset Z) device_ids h st :
  ¬ Forall parses device_ids →
  ∃ F, for_each device_ids (λ dev_id,
         id ← lift (int_of_string dev_id);
         modify_self (λ s, set_flashing_devices (f id (flashing_devices s)) s))
         h st
       = (Raise ValueError,
          {| self := set_flashing_devices F (self st);
             events := events st; looks := looks st |}).
Proof.
  revert st. induction device_ids as [|d ds IH]; intros st Hbad.
  { destruct Hbad. constructor. }
  simpl for_each. unfold mbind at 1, M_bind at 1.
  unfold mbind at 1, M_bind at 1, lift at 1.
  destruct (int_of_string d) as [id|e] eqn:Hd.
  - unfold modify_self at 1.
    destruct (IH {| self := set_flashing_devices (f id (flashing_devices (self st))) (self st);
                    events := events st; looks := looks st |}) as [F ->].
    { intros Hds. apply Hbad. constructor; [by exists id|done]. }
    by exists F.
  - apply VarIdFacts.int_of_string_raises in Hd as ->.
    exists (flashing_devices (self st)). f_equal. by destruct st as [[] ? ?].
Qed.

Lemma flash_thread_bad_ids thread_id device_ids flash_count
    flash_duration gap_duration flash_to_brightness flash_to_minimum h st :
  ¬ Forall parses device_ids →
  ∃ st', _flash_device_thread thread_id device_ids flash_count flash_duration
           gap_duration flash_to_brightness flash_to_minimum h st
         = (Raise ValueError, st') ∧
         flash_threads (self st') = flash_threads (self st) ∧
         flash_stop_events (self st') = flash_stop_events (self st).
Proof.
  intros Hbad.
  unfold _flash_device_thread, try_finally.
  unfold mbind at 1, M_bind at 1.
  destruct (FlashFacts.capture_run device_ids [] h st) as (evs0 & ->).
  unfold mbind at 1, M_bind at 1.
  unfold mark_flashing at 1, with_lock at 1.
  unfold mbind at 1, M_bind at 1, emit at 1, try_finally at 1.
  match goal with |- context [for_each device_ids ?body h ?s] =>
    destruct (id_loop_bad (λ id F, {[ id ]} ∪ F) device_ids h s Hbad) as [F1 HF1]
  end.
  rewrite HF1. unfold emit at 1.
  unfold flash_cleanup, with_lock.
  unfold mbind at 1, M_bind at 1, emit at 1, try_finally at 1.
  unfold mbind at 1, M_bind at 1.
  match goal with |- context [for_each device_ids ?body h ?s] =>
    destruct (id_loop_bad (λ id F, F ∖ {[ id ]}) device_ids h s Hbad) as [F2 HF2]
  end.
  rewrite HF2. unfold emit. eexists. split; [reflexivity|]. done.
Qed.

Lemma flash_thread_run thread_id device_ids flash_count
    flash_duration gap_duration flash_to_brightness flash_to_minimum h st :
  Forall parses device_ids →
  ∃ evs k,
    _flash_device_thread thread_id device_ids flash_count flash_duration
      gap_duration flash_to_brightness flash_to_minimum h st
    = (Ok (), {| self := after_flash thread_id device_ids (self st);
                 events := events st ++ evs; looks := looks st + k |}).
Proof.
  intros Hall.
  unfold _flash_device_thread, try_finally.
  unfold mbind at 1, M_bind at 1.
  destruct (FlashFacts.capture_run device_ids [] h st) as (evs0 & ->).
  unfold mbind at 1, M_bind at 1.
  rewrite (FlashFacts.mark_flashing_run _ _ _ Hall).
  unfold mbind at 1, M_bind at 1.
  match goal with |- context [for_break ?xs ?body h ?s] =>
    destruct (FlashFacts.safe_for_break xs body
                ltac:(intros; apply FlashFacts.safe_flash_once) h s)
      as ([] & evs1 & k & ->)
  end.
  rewrite FlashFacts.restore_all_run, (FlashFacts.flash_cleanup_run _ _ _ _ Hall).
  eexists _, k. f_equal.
  unfold advance, after_flash, set_flashing_devices. simpl.
  f_equal.
  - f_equal. set_solver.
  - rewrite <-!List.app_assoc. reflexivity.
  - lia.
Qed.

(** [flashLamps] never raises.  When it starts a job, the job has a
    positive flash count, a flash duration that is not [<= 0], a gap that is
    not [< 0], at least one device id and no empty one, and brightness
    bounds, where given, within 0..100; its id is [flash_] followed by the
    clock reading, and is registered in [flash_threads] and
    [flash_stop_events].  A call that starts no job leaves the plugin fields
    as they were. *)
Theorem flashLamps_validates props now h st :
  ∃ r st', flashLamps props now h st = (Ok r, st') ∧
    match r with
    | None => self st' = self st
    | Some j =>
        self st' = register (job_thread_id j) (self st) ∧
        job_thread_id j = "flash_" +:+ str_of_float now ∧
        0 < job_flash_count j ∧
        job_device_ids j ≠ [] ∧
        Forall (λ d, d ≠ "") (job_device_ids j) ∧
        py_le (job_flash_duration j) (Fin 0) = false ∧
        py_lt (job_gap_duration j) (Fin 0) = false ∧
        (∀ b, job_flash_to_brightness j = Some b → 0 ≤ b ≤ 100) ∧
        (∀ m, job_flash_to_minimum j = Some m → 0 ≤ m ≤ 100)
    end.
Proof.
  destruct (flashLamps_run props now h st) as (r & st' & Hrun & _ & Hr).
  exists r, st'. split; [done|]. by destruct r.
Qed.



(** A job that [flashLamps] started on a device id that is no integer
    ends with [ValueError], and its id stays in [flash_threads] and
    [flash_stop_events]. *)
Theorem flash_job_bad_id_stays props now h st j st1 h' :
  flashLamps props now h st = (Ok (Some j), st1) →
  ¬ Forall parses (job_device_ids j) →
  ∃ st2, run_job j h' st1 = (Raise ValueError, st2) ∧
    job_thread_id j ∈ flash_threads (self st2) ∧
    job_thread_id j ∈ flash_stop_events (self st2).
Proof.
  intros Hstart Hbad.
  destruct (flashLamps_run props now h st) as (r & st' & Hrun & _ & Hr).
  rewrite Hstart in Hrun. injection Hrun as <- <-. destruct Hr as [Hself _].
  unfold run_job.
  destruct (flash_thread_bad_ids (job_thread_id j) (job_device_ids j)
              (job_flash_count j) (job_flash_duration j) (job_gap_duration j)
              (job_flash_to_brightness j) (job_flash_to_minimum j) h' st1 Hbad)
    as (st2 & -> & Ht & Hs).
  exists st2. split; [done|]. rewrite Ht, Hs, Hself.
  unfold register, set_flash_threads, set_flash_stop_events. cbn.
  split; set_solver.
Qed.

Lemma flash_job_bad_id_stays_witness :
  let j := {| job_thread_id := "flash_1.0"; job_device_ids := ["lamp"];
              job_flash_count := 3;
              job_flash_duration := Fin 0.5; job_gap_duration := Fin 0.5;
              job_flash_to_brightness := None;
              job_flash_to_minimum := None |} in
  let st1 := (flashLamps named_lamp_props (Fin 1) (flash_host 1) flash_state).2 in
  ∃ st2, run_job j (flash_host 3) st1 = (Raise ValueError, st2) ∧
    job_thread_id j ∈ flash_threads (self st2) ∧
    job_thread_id j ∈ flash_stop_events (self st2).
Proof.
  intros j st1.
  apply (flash_job_bad_id_stays named_lamp_props (Fin 1) (flash_host 1)
           flash_state j st1 (flash_host 3)).
  - by vm_compute.
  - intros Hall. inversion Hall as [|? ? [id Hid] _]. by vm_compute in Hid.
Defined.

End FlashActionFacts.

(** ** Reading back what json.dumps wrote *)

Module DumpsFacts.
Import Py Json Dumps TextFacts ScaleFacts.

Local Set Warnings "-clear-no-such-hyp".

(** *** Integers as atoms *)

Lemma digits_fuel_head fuel n acc :
  (0 < n < 10 ^ N.of_nat fuel)%N →
  ∃ m D', (1 <= m < 10)%N ∧ digits_fuel fuel n acc = String (digit_char m) D'.
Proof.
  revert n acc. induction fuel as [|fuel IH]; intros n acc [Hpos Hn].
  - simpl in Hn. lia.
  - simpl. destruct (N.ltb_spec n 10) as [Hlt|Hge].
    + exists (n mod 10)%N, acc. rewrite N.mod_small by done. split; [lia|done].
    + apply IH. split.
      * apply N.div_str_pos. lia.
      * apply N.Div0.div_lt_upper_bound.
        replace (N.of_nat (S fuel)) with (N.succ (N.of_nat fuel)) in Hn by lia.
        rewrite N.pow_succ_r' in Hn. lia.
Qed.

Lemma str_of_N_head n :
  ∃ c D', str_of_N n = String c D' ∧ is_digit c = true ∧
          string_forall is_digit D' = true ∧ (c = "0"%char → D' = "").
Proof.
  destruct (N.eq_dec n 0%N) as [->|Hn].
  { exists "0"%char, "". by vm_compute. }
  destruct (str_of_N_spec n) as (Hdigits & _ & _).
  unfold str_of_N in *.
  destruct (digits_fuel_head (S (N.to_nat (N.log2 n))) n "") as (m & D' & Hm & HD).
  { split; [lia|apply N_lt_pow10_log2]. }
  rewrite HD in *. simpl in Hdigits. apply andb_true_iff in Hdigits as [Hc HD'].
  exists (digit_char m), D'. split_and!; [done|done|done|].
  intros Hzero. exfalso.
  assert (N_of_ascii (digit_char m) = 48%N) as H48 by (by rewrite Hzero).
  unfold digit_char in H48. rewrite N_ascii_embedding in H48 by lia. lia.
Qed.

Lemma json_number_digits c D' :
  is_digit c = true → string_forall is_digit D' = true →
  (c = "0"%char → D' = "") →
  json_number (String c D') = Some false ∧
  json_number (String "-" (String c D')) = Some false.
Proof.
  intros Hc HD' Hzero.
  destruct c as [[] [] [] [] [] [] [] []]; try discriminate Hc;
    try (rewrite (Hzero eq_refl); by vm_compute);
    (unfold json_number; simpl; rewrite scan_digits_all by done; done).
Qed.

Lemma atom_value_int z : atom_value (str_of_int z) = Some (PInt z).
Proof.
  pose proof (int_of_str_of_int z) as Hint.
  rewrite str_of_int_sign in Hint |- *.
  destruct (str_of_N_head (Z.abs_N z)) as (c & D' & E & Hc & HD' & Hzero).
  rewrite E in Hint |- *.
  destruct (json_number_digits c D' Hc HD' Hzero) as [Hpos Hneg].
  unfold atom_value.
  destruct (z <? 0); simpl sign_text in Hint |- *.
  - change ("-" +:+ String c D') with (String "-" (String c D')) in Hint |- *.
    rewrite Hneg, Hint. simpl.
    repeat (rewrite bool_decide_false;
            [|intros [=]; subst; discriminate Hc]). done.
  - rewrite app_nil_l in Hint |- *. rewrite Hpos, Hint. simpl.
    repeat (rewrite bool_decide_false;
            [|intros [=]; subst; discriminate Hc]). done.
Qed.

(** *** The lexer on the text of a value *)

Lemma start_atom c acc :
  is_atom_char c = true → start_char c acc = Some (LAtom (String c ""), acc).
Proof.
  intros H. destruct c as [[] [] [] [] [] [] [] []]; try discriminate H; reflexivity.
Qed.

Lemma lex_atom_chars a rest r acc :
  string_forall is_atom_char a = true →
  lex (a +:+ rest) (LAtom r) acc = lex rest (LAtom (String.rev a +:+ r)) acc.
Proof.
  revert r. induction a as [|c a IH]; intros r H; [done|].
  simpl in H. apply andb_true_iff in H as [Hc Ha].
  rewrite app_cons. simpl lex. rewrite Hc, IH by done.
  by rewrite rev_cons, app_assoc.
Qed.

Lemma lex_atom a rest acc :
  a ≠ "" → string_forall is_atom_char a = true → follows rest = true →
  lex (a +:+ rest) LStart acc = lex rest LStart (TAtom a :: acc).
Proof.
  intros Hne Ha Hrest. destruct a as [|c a']; [done|].
  pose proof Ha as Hall. simpl in Ha. apply andb_true_iff in Ha as [Hc Ha'].
  rewrite app_cons. simpl lex. rewrite (start_atom _ _ Hc).
  rewrite lex_atom_chars by done.
  rewrite <-rev_cons.
  destruct rest as [|c' r']; simpl.
  - by rewrite rev_involutive.
  - simpl in Hrest. apply negb_true_iff in Hrest. rewrite Hrest.
    by rewrite rev_involutive.
Qed.

Lemma lex_escape c t a acc :
  (N_of_ascii c <? 128)%N = true →
  lex (escape (N_of_ascii c) +:+ t) (LStr a None) acc
  = lex t (LStr (String c a) None) acc.
Proof.
  intros H. destruct c as [[] [] [] [] [] [] [] []]; try discriminate H; reflexivity.
Qed.

Lemma lex_string_body s t a acc :
  ascii_text s = true →
  lex (fold_right (λ cp t, escape cp +:+ t) t (code_points s 0 0))
    (LStr a None) acc
  = lex t (LStr (String.rev s +:+ a) None) acc.
Proof.
  revert a. induction s as [|c s IH]; intros a H; [done|].
  unfold ascii_text in H. simpl in H. apply andb_true_iff in H as [Hc Hs].
  cbn [code_points]. rewrite Hc. cbn [fold_right].
  rewrite lex_escape, IH by done. by rewrite rev_cons, app_assoc.
Qed.

Lemma fold_escape_app cps base rest :
  fold_right (λ cp t, escape cp +:+ t) base cps +:+ rest
  = fold_right (λ cp t, escape cp +:+ t) (base +:+ rest) cps.
Proof.
  induction cps as [|cp cps IH]; simpl; [done|]. by rewrite app_assoc, IH.
Qed.

Lemma lex_encode_string s rest acc :
  ascii_text s = true →
  lex (encode_string s +:+ rest) LStart acc = lex rest LStart (TString s :: acc).
Proof.
  intros Hs. unfold encode_string. rewrite app_cons, fold_escape_app.
  change (lex (String dquote ?x) LStart acc) with (lex x (LStr "" None) acc).
  rewrite lex_string_body by done. rewrite app_cons, app_nil_l, app_nil_r.
  change (lex (String dquote rest) (LStr ?a None) acc)
    with (lex rest LStart (TString (String.rev a) :: acc)).
  by rewrite rev_involutive.
Qed.

Lemma fold_join_app l p q :
  fold_left (λ acc y, acc +:+ ", " +:+ y) l (p +:+ q)
  = p +:+ fold_left (λ acc y, acc +:+ ", " +:+ y) l q.
Proof.
  revert q. induction l as [|y l IH]; intros q; [done|].
  simpl. by rewrite app_assoc, IH.
Qed.

Lemma join_comma_cons x y l :
  join_comma (x :: y :: l) = x +:+ ", " +:+ join_comma (y :: l).
Proof.
  unfold join_comma. simpl. rewrite fold_join_app. f_equal.
  change (", " +:+ y) with (", " +:+ y). apply (fold_join_app l ", " y).
Qed.

(** Induction on values, with the hypothesis for every item of a list and
    every value of a dict. *)
Lemma pyval_nested_ind (P : pyval → Prop) :
  P PNone → (∀ b, P (PBool b)) → (∀ z, P (PInt z)) → (∀ x, P (PFloat x)) →
  (∀ s, P (PStr s)) →
  (∀ l, Forall P l → P (PList l)) →
  (∀ d, Forall (λ kv, P kv.2) d → P (PDict d)) →
  ∀ v, P v.
Proof.
  intros HNone HBool HInt HFloat HStr HList HDict.
  fix IH 1.
  intros [|b|z|x|s|l|d];
    [exact HNone|apply HBool|apply HInt|apply HFloat|apply HStr| |].
  - apply HList. induction l as [|x l IHl]; constructor; [apply IH|exact IHl].
  - apply HDict. induction d as [|[k x] d IHd]; constructor; [apply IH|exact IHd].
Qed.

Lemma forallb_Forall_true {A} (f : A → bool) l :
  forallb f l = true → Forall (λ x, f x = true) l.
Proof.
  induction l as [|x l IH]; simpl; [by constructor|].
  intros [? ?]%andb_true_iff. constructor; auto.
Qed.

Lemma Forall_mp {A} (P Q : A → Prop) l :
  Forall (λ x, P x → Q x) l → Forall P l → Forall Q l.
Proof. induction 1; inversion 1; constructor; auto. Qed.

Lemma Forall2_map_same {A B C} (f : A → B) (g : A → C) (R : B → C → Prop) l :
  Forall (λ x, R (f x) (g x)) l → Forall2 R (map f l) (map g l).
Proof. induction 1; constructor; auto. Qed.

Lemma separated_cons (g g' : list token) gs :
  separated (g :: g' :: gs) = (g ++ TComma :: separated (g' :: gs))%list.
Proof. done. Qed.

(** A text that goes on with a closing bracket or brace. *)
Lemma lex_joined (texts : list string) (groups : list (list token)) t acc :
  follows t = true →
  Forall2 (λ text group, ∀ rest acc, follows rest = true →
             lex (text +:+ rest) LStart acc
             = lex rest LStart (rev group ++ acc)%list) texts groups →
  lex (join_comma texts +:+ t) LStart acc
  = lex t LStart (rev (separated groups) ++ acc)%list.
Proof.
  intros Ht Hall. revert acc.
  induction Hall as [|text group texts groups H1 Hrest IH]; intros acc; [done|].
  destruct Hrest as [|text' group' texts' groups' H2 Hrest'].
  - simpl. rewrite List.app_nil_r. by apply H1.
  - rewrite join_comma_cons, separated_cons, !app_assoc.
    rewrite H1 by done.
    change (lex (", " +:+ ?x) LStart ?a) with (lex x LStart (TComma :: a)).
    rewrite IH. rewrite List.rev_app_distr. simpl. by rewrite <-!List.app_assoc.
Qed.

Lemma lex_dumps v :
  simple v = true →
  ∀ rest acc, follows rest = true →
    lex (dumps v +:+ rest) LStart acc
    = lex rest LStart (rev (tokens v) ++ acc)%list.
Proof.
  induction v as [|b|z|x|s|l IH|d IH] using pyval_nested_ind;
    intros Hsimple rest acc Hrest.
  - by apply lex_atom.
  - destruct b; by apply lex_atom.
  - apply lex_atom; [| |done].
    + simpl. destruct (str_of_N_head (Z.abs_N z)) as (c & D' & E & _).
      rewrite str_of_int_sign, E. by destruct (z <? 0).
    + simpl. rewrite str_of_int_sign, string_forall_app.
      apply andb_true_iff. split; [by destruct (z <? 0)|].
      destruct (str_of_N_spec (Z.abs_N z)) as (Hdigits & _).
      eapply string_forall_impl; [|exact Hdigits].
      intros c Hc. destruct c as [[] [] [] [] [] [] [] []]; try discriminate Hc; reflexivity.
  - done.
  - simpl. by apply lex_encode_string.
  - cbn [dumps tokens]. rewrite !app_assoc.
    change (lex ("[" +:+ ?x) LStart acc) with (lex x LStart (TLBracket :: acc)).
    rewrite (lex_joined (map dumps l) (map tokens l)); [| done |].
    + change (lex ("]" +:+ rest) LStart ?a) with (lex rest LStart (TRBracket :: a)).
      f_equal. simpl. rewrite List.rev_app_distr. simpl. by rewrite <-List.app_assoc.
    + simpl in Hsimple. apply forallb_Forall_true in Hsimple.
      apply Forall2_map_same. exact (Forall_mp _ _ _ IH Hsimple).
  - cbn [dumps tokens]. rewrite !app_assoc.
    change (lex ("{" +:+ ?x) LStart acc) with (lex x LStart (TLBrace :: acc)).
    rewrite (lex_joined _ (map (λ kv, TString kv.1 :: TColon :: tokens kv.2) d));
      [| done |].
    + change (lex ("}" +:+ rest) LStart ?a) with (lex rest LStart (TRBrace :: a)).
      f_equal. simpl. rewrite List.rev_app_distr. simpl. by rewrite <-List.app_assoc.
    + simpl in Hsimple. apply andb_true_iff in Hsimple as [Hsimple _].
      apply forallb_Forall_true in Hsimple.
      apply Forall2_map_same.
      eapply Forall_mp; [|exact Hsimple]. eapply Forall_impl; [exact IH|].
      intros [k x] Hx [Hk Hsx]%andb_true_iff rest' acc' Hrest'.
      cbn [fst snd] in *.
      rewrite !app_assoc, lex_encode_string by done.
      change (lex (": " +:+ ?y) LStart ?a) with (lex y LStart (TColon :: a)).
      rewrite Hx by done. simpl. by rewrite <-!List.app_assoc.
Qed.

(** *** The parser on the tokens of a value *)

Lemma expects_value stack : expects (PValue stack) stack.
Proof. done. Qed.

Lemma expects_first rest : expects (PValueOrEnd rest) (FArr [] :: rest).
Proof. by intros []. Qed.

Lemma parse_items l ts stack :
  Forall parses_to l →
  ∀ elems x,
    parse_tokens (flat_map (λ g, TComma :: g) (map tokens l)
                  ++ TRBracket :: ts) (PAfter x (FArr elems :: stack))
    = parse_tokens ts (PAfter (PList (rev elems ++ x :: l)) stack).
Proof.
  induction 1 as [|y l Hy _ IH]; intros elems x; [done|].
  cbn [map flat_map]. rewrite <-!app_comm_cons, <-List.app_assoc.
  cbn [parse_tokens parse_step].
  rewrite (Hy _ _ _ (expects_value _)), IH. simpl.
  by rewrite <-List.app_assoc.
Qed.

Lemma parse_entries d ts stack :
  Forall (λ kv, parses_to kv.2) d →
  ∀ acc k x,
    parse_tokens
      (flat_map (λ g, TComma :: g)
         (map (λ kv, TString kv.1 :: TColon :: tokens kv.2) d)
       ++ TRBrace :: ts) (PAfter x (FObj acc k :: stack))
    = parse_tokens ts (PAfter (PDict (set_all d (dict_set k x acc))) stack).
Proof.
  induction 1 as [|[k' y] d Hy _ IH]; intros acc k x; [done|].
  cbn [map flat_map fst snd]. rewrite <-!app_comm_cons, <-List.app_assoc.
  cbn [parse_tokens parse_step].
  by rewrite (Hy _ _ _ (expects_value _)), IH.
Qed.

Lemma dict_set_fresh {V} k (v : V) d :
  k ∉ d.*1 → dict_set k v d = (d ++ [(k, v)])%list.
Proof.
  induction d as [|[k' v'] d IH]; simpl; [done|].
  intros Hk. apply not_elem_of_cons in Hk as [Hne Hk].
  rewrite bool_decide_false by done. by rewrite IH.
Qed.

Lemma set_all_fresh d acc :
  NoDup (acc.*1 ++ d.*1) → set_all d acc = (acc ++ d)%list.
Proof.
  revert acc. induction d as [|[k v] d IH]; intros acc Hnodup.
  - by rewrite List.app_nil_r.
  - unfold set_all in *. simpl. rewrite dict_set_fresh.
    + rewrite IH; [by rewrite <-List.app_assoc|].
      by rewrite fmap_app, <-List.app_assoc.
    + simpl in Hnodup. apply NoDup_app in Hnodup as (_ & Hdisj & _).
      intros Hin. apply (Hdisj k Hin). left.
Qed.

Lemma parse_value v : simple v = true → parses_to v.
Proof.
  induction v as [|b|z|x|s|l IH|d IH] using pyval_nested_ind;
    intros Hsimple ts st stack Hst.
  - simpl. by rewrite Hst.
  - destruct b; simpl; by rewrite Hst.
  - simpl. rewrite Hst by done. simpl. by rewrite atom_value_int.
  - done.
  - simpl. by rewrite Hst.
  - simpl in Hsimple. apply forallb_Forall_true in Hsimple.
    pose proof (Forall_mp _ _ _ IH Hsimple) as Hall. clear IH Hsimple.
    cbn [tokens]. rewrite <-app_comm_cons. cbn [parse_tokens].
    rewrite Hst by done. cbn [value_token].
    destruct Hall as [|x l Hx Hl]; [done|].
    cbn [map separated]. rewrite <-!List.app_assoc.
    change ([TRBracket] ++ ts)%list with (TRBracket :: ts).
    rewrite (Hx _ _ _ (expects_first _)).
    by rewrite (parse_items l ts stack Hl [] x).
  - simpl in Hsimple. apply andb_true_iff in Hsimple as [Hsimple Hnodup].
    apply bool_decide_eq_true in Hnodup.
    apply forallb_Forall_true in Hsimple.
    assert (Forall (λ kv, parses_to kv.2) d) as Hall.
    { eapply Forall_mp; [|exact Hsimple]. eapply Forall_impl; [exact IH|].
      intros [k x] Hx [_ ?]%andb_true_iff. by apply Hx. }
    clear IH Hsimple.
    cbn [tokens]. rewrite <-app_comm_cons. cbn [parse_tokens].
    rewrite Hst by done. cbn [value_token].
    destruct Hall as [|[k x] d Hx Hd]; [done|].
    cbn [map separated fst snd]. rewrite <-!app_comm_cons, <-!List.app_assoc.
    change ([TRBrace] ++ ts)%list with (TRBrace :: ts).
    cbn [parse_tokens parse_step].
    rewrite (Hx _ _ _ (expects_value _)).
    cbn [snd]. rewrite (parse_entries d ts stack Hd [] k x).
    change (dict_set k x []) with [(k, x)].
    by rewrite (set_all_fresh d [(k, x)]).
Qed.

(** Reading back what was written: for a value without floats, with ASCII
    text and without a repeated key, [json.loads(json.dumps(v))] is [v]. *)
Lemma loads_dumps v : simple v = true → loads (dumps v) = Ok v.
Proof.
  intros Hsimple. unfold loads.
  pose proof (lex_dumps v Hsimple "" [] eq_refl) as Hlex.
  rewrite app_nil_r in Hlex. rewrite Hlex. simpl.
  rewrite List.app_nil_r, List.rev_involutive.
  pose proof (parse_value v Hsimple [] (PValue []) [] (expects_value _)) as Hparse.
  rewrite List.app_nil_r in Hparse. by rewrite Hparse.
Qed.

End DumpsFacts.

(** ** Saving a scene and checking it *)

Module SaveFacts.
Import Py Json Indigo Plugin Scene Lifecycle Flash Trace FlashAction Dumps Save.
Import TextFacts ScaleFacts FlashFacts TraceFacts SnapshotFacts DumpsFacts.

Local Set Warnings "-clear-no-such-hyp".

(** *** Equality of a value with itself *)

Lemma dict_get_NoDup {V} k (v : V) d :
  NoDup d.*1 → (k, v) ∈ d → dict_get k d = Some v.
Proof.
  induction d as [|[k' v'] d IH]; intros Hnodup Hin; [by apply elem_of_nil in Hin|].
  simpl in *. apply NoDup_cons in Hnodup as [Hk' Hnodup].
  apply elem_of_cons in Hin as [[= -> ->]|Hin].
  - by rewrite bool_decide_true.
  - rewrite bool_decide_false; [by apply IH|].
    intros ->. apply Hk'. apply list_elem_of_fmap. by exists (k', v).
Qed.

Lemma py_eq_simple v : simple v = true → py_eq v v = true.
Proof.
  induction v as [|b|z|x|s|l IH|d IH] using pyval_nested_ind; intros Hsimple.
  - done.
  - apply py_eq_bool.
  - apply py_eq_int.
  - done.
  - apply py_eq_str.
  - simpl in Hsimple. apply forallb_Forall_true in Hsimple.
    pose proof (Forall_mp _ _ _ IH Hsimple) as Hall. clear IH Hsimple.
    simpl. induction Hall as [|x l Hx _ IHl]; [done|]. by rewrite Hx, IHl.
  - simpl in Hsimple. apply andb_true_iff in Hsimple as [Hsimple Hnodup].
    apply bool_decide_eq_true in Hnodup.
    apply forallb_Forall_true in Hsimple.
    assert (Forall (λ kv, py_eq kv.2 kv.2 = true) d) as Hall.
    { eapply Forall_mp; [|exact Hsimple]. eapply Forall_impl; [exact IH|].
      intros [k x] Hx [_ ?]%andb_true_iff. by apply Hx. }
    clear IH Hsimple. simpl. rewrite bool_decide_true by done. simpl.
    assert (∀ k v, (k, v) ∈ d → dict_get k d = Some v ∧ py_eq v v = true) as Hd.
    { intros k v Hin. split; [by apply dict_get_NoDup|].
      rewrite Forall_forall in Hall. apply (Hall (k, v) Hin). }
    clear Hall Hnodup. revert Hd. generalize d at 1 4 as d1.
    induction d1 as [|[k v] d1 IHd]; intros Hd; [done|].
    destruct (Hd k v) as [-> ->]; [left|]. simpl. apply IHd.
    intros k' v' Hin. apply Hd. by right.
Qed.

(** *** The state of a device as a JSON object *)

Lemma scene_state_keys dev h st state :
  _get_device_scene_state dev h st = (Ok state, st) →
  NoDup state.*1 ∧ Forall (λ kv, ascii_text kv.1 = true) state.
Proof.
  unfold _get_device_scene_state, attr, mbind, M_bind, mret, M_ret, raise.
  intros Hstate.
  repeat case_bool_decide;
    repeat match goal with
           | H : context [match ?a with Some _ => _ | None => _ end] |- _ =>
               destruct a eqn:?; simpl in H
           | H : (Raise _, _) = (Ok _, _) |- _ => discriminate H
           | H : (Ok _, _) = (Ok _, _) |- _ => injection H as <-
           | p : (_ * _)%type |- _ => destruct p
           end; try done;
    (split; [|by repeat constructor]);
    cbn; repeat (constructor; [set_solver|]); constructor.
Qed.

Lemma simple_state dev h st state :
  _get_device_scene_state dev h st = (Ok state, st) →
  Forall (λ kv, simple kv.2 = true) state →
  simple (PDict state) = true.
Proof.
  intros Hstate Hvalues.
  destruct (scene_state_keys dev h st state Hstate) as [Hnodup Hkeys].
  simpl. apply andb_true_iff. split; [|by apply bool_decide_eq_true].
  apply forallb_forall. intros kv Hin%list_elem_of_In.
  rewrite Forall_forall in Hvalues, Hkeys.
  by rewrite (Hkeys kv Hin), (Hvalues kv Hin).
Qed.



(** *** Computations that return *)

Section Yields.
Context {A B : Type} (h : Host) (P : Event → Prop).

Lemma yields_ret (Q : A → Prop) a : Q a → yields h P Q (mret a).
Proof. intros Ha st. exists a, []. by rewrite advance_nil. Qed.

Lemma yields_bind (Q1 : A → Prop) (Q2 : B → Prop) (m : M A) (k : A → M B) :
  yields h P Q1 m → (∀ a, Q1 a → yields h P Q2 (k a)) →
  yields h P Q2 (m ≫= k).
Proof.
  intros Hm Hk st. destruct (Hm st) as (a & evs1 & Hrun1 & Hevs1 & Ha).
  destruct (Hk a Ha (advance evs1 0 st)) as (b & evs2 & Hrun2 & Hevs2 & Hb).
  exists b, (evs1 ++ evs2)%list. unfold mbind, M_bind.
  rewrite Hrun1, Hrun2, advance_advance. split_and!; [done| |done].
  by apply Forall_app.
Qed.

Lemma yields_impl (Q1 Q2 : A → Prop) (m : M A) :
  (∀ a, Q1 a → Q2 a) → yields h P Q1 m → yields h P Q2 m.
Proof.
  intros HQ Hm st. destruct (Hm st) as (a & evs & ? & ? & ?).
  exists a, evs. auto.
Qed.

Lemma returns_yields (m : M A) : returns h P m → yields h P (λ _, True) m.
Proof.
  intros Hm st. destruct (Hm st) as (a & evs & ? & ?). by exists a, evs.
Qed.

Lemma yields_try (Q : A → Prop) (body : M A) catches handler :
  yields h P Q body → yields h P Q (try_catch body catches handler).
Proof.
  intros Hm st. destruct (Hm st) as (a & evs & Hrun & ? & ?).
  exists a, evs. unfold try_catch. by rewrite Hrun.
Qed.

End Yields.

Lemma yields_log h (P : Event → Prop) level msg :
  P (Log level msg None) → yields h P (λ _, True) (log level msg).
Proof. intros. by apply returns_yields, returns_log. Qed.

Lemma returns_for_fold {A S} h (P : Event → Prop) (xs : list A)
    (body : S → A → M S) :
  (∀ s x, returns h P (body s x)) → ∀ s, returns h P (for_fold xs body s).
Proof.
  intros Hbody. induction xs as [|x xs IH]; intros s; simpl.
  - apply returns_ret.
  - apply returns_bind; [apply Hbody|apply IH].
Qed.

Section Callback.
Variable hvac_mode_str fan_mode_str : Z → string.

Lemma emits_log_saved h dev state :
  emits h is_log (log_saved hvac_mode_str fan_mode_str dev state).
Proof.
  unfold log_saved.
  repeat first
    [ apply emits_lift_bind; intros ? _
    | apply emits_bind; [apply emits_attr|intros ?]
    | apply returns_emits, returns_log; exact I
    | apply emits_ret
    | match goal with
      | |- emits _ _ (if ?b then _ else _) => destruct b
      end ].
Qed.

Lemma returns_save_device h acc item :
  returns h is_log (save_device hvac_mode_str fan_mode_str acc item).
Proof.
  unfold save_device. destruct (skipped _); [apply returns_ret|].
  apply returns_bind.
  - apply returns_try_catch.
    + apply emits_lift_bind. intros id _. apply emits_get_device. intros dev _.
      apply emits_bind; [apply emits_get_device_scene_state|].
      intros state. apply emits_ret.
    + intros e. apply returns_bind; [by apply returns_log_exc|].
      intros _. apply returns_ret.
  - intros [[dev [|kv state]]|]; try apply returns_ret.
    apply returns_bind; [|intros _; apply returns_ret].
    apply returns_try_catch; [apply emits_log_saved|].
    intros e. by apply returns_log_exc.
Qed.

Lemma returns_save_variable h acc item :
  returns h is_log (save_variable acc item).
Proof.
  unfold save_variable. destruct (skipped _); [apply returns_ret|].
  apply returns_bind.
  - apply returns_try_catch.
    + apply emits_lift_bind. intros id _. apply emits_get_variable. intros var _.
      apply emits_ret.
    + intros e. apply returns_bind; [by apply returns_log_exc|].
      intros _. apply returns_ret.
  - intros [var|]; [|apply returns_ret].
    apply returns_bind; [|intros _; apply returns_ret].
    apply returns_try_catch; [by apply returns_emits, returns_log|].
    intros e. by apply returns_log_exc.
Qed.

Lemma saveSceneState_yields h valuesDict
    (QD QV : list (string * pyval) → Prop) :
  yields h is_log QD (device_part hvac_mode_str fan_mode_str valuesDict) →
  (∀ saved, QD saved → yields h is_log QV (variable_part valuesDict saved)) →
  yields h is_log (λ values, ∃ saved, QV saved ∧ values = stored valuesDict saved)
    (saveSceneState hvac_mode_str fan_mode_str valuesDict).
Proof.
  intros HD HV. unfold saveSceneState. apply yields_try.
  eapply yields_bind; [by apply yields_log|]. intros _ _.
  eapply yields_bind; [by apply yields_log|]. intros _ _.
  eapply yields_bind; [exact HD|]. intros saved1 H1.
  eapply yields_bind; [by apply yields_log|]. intros _ _.
  eapply yields_bind; [exact (HV saved1 H1)|]. intros saved H2.
  eapply yields_bind
    with (Q1 := λ values, values = stored valuesDict saved).
  - destruct saved as [|item saved].
    + eapply yields_bind; [by apply yields_log|]. intros _ _.
      by apply yields_ret.
    + eapply yields_bind; [by apply yields_log|]. intros _ _.
      by apply yields_ret.
  - intros values ->.
    eapply yields_bind; [by apply yields_log|]. intros _ _.
    apply yields_ret. by exists saved.
Qed.

(** *** Saving what the host holds *)

Lemma ascii_text_str_of_int id : ascii_text (str_of_int id) = true.
Proof.
  unfold ascii_text. rewrite str_of_int_sign, string_forall_app.
  apply andb_true_iff. split; [by destruct (id <? 0)|].
  destruct (str_of_N_spec (Z.abs_N id)) as (Hdigits & _).
  eapply string_forall_impl; [|exact Hdigits].
  intros c Hc%is_digit_range. apply N.ltb_lt. lia.
Qed.

Lemma str_of_int_nonempty id : str_of_int id ≠ "".
Proof.
  rewrite str_of_int_sign. destruct (str_of_N_spec (Z.abs_N id)) as (_ & _ & Hne).
  destruct (id <? 0); [done|]. by rewrite app_nil_l.
Qed.

Lemma skipped_id id : skipped (PStr (str_of_int id)) = false.
Proof.
  unfold skipped. simpl.
  by rewrite !bool_decide_false by apply str_of_int_nonempty.
Qed.

Lemma dict_set_keys {V} k (v : V) d :
  NoDup d.*1 → NoDup (dict_set k v d).*1.
Proof.
  induction d as [|[k' v'] d IH]; simpl.
  - intros _. apply NoDup_singleton.
  - intros [Hk' Hd]%NoDup_cons. case_bool_decide as Hk; simpl.
    + subst k'. by apply NoDup_cons.
    + apply NoDup_cons. split; [|by apply IH].
      intros ([k2 v2] & Heq & Hin)%list_elem_of_fmap. simpl in Heq. subst k2.
      assert (dict_get k' (dict_set k v d) = dict_get k' d) as Hget.
      { rewrite dict_get_set. by rewrite bool_decide_false by done. }
      apply Hk'. clear -Hin Hk.
      induction d as [|[k3 v3] d IHd]; simpl in Hin.
      * apply list_elem_of_singleton in Hin as [= -> _]. done.
      * case_bool_decide; simpl in *.
        -- subst. apply elem_of_cons in Hin as [[= -> _]|Hin]; [done|].
           right. apply list_elem_of_fmap. by exists (k', v2).
        -- apply elem_of_cons in Hin as [[= -> _]|Hin]; [by left|].
           right. by apply IHd.
Qed.

Lemma dict_set_nonempty {V} k (v : V) d : dict_set k v d ≠ [].
Proof. destruct d as [|[k' v'] d]; simpl; [done|]. by case_bool_decide. Qed.

Lemma snapshot_ok_set h key v saved :
  storable h (key, v) → snapshot_ok h saved →
  snapshot_ok h (dict_set key v saved) ∧ dict_set key v saved ≠ [].
Proof.
  intros Hitem [Hnodup Hall]. split; [|apply dict_set_nonempty].
  split; [by apply dict_set_keys|by apply dict_set_Forall].
Qed.

Lemma save_device_run h saved id :
  saveable_device h id → snapshot_ok h saved →
  yields h is_log (λ saved', snapshot_ok h saved' ∧ saved' ≠ [])
    (save_device hvac_mode_str fan_mode_str saved (PStr (str_of_int id))).
Proof.
  intros (dev & state & Hdev & Hstate & Hne & Hvalues) Hsaved.
  unfold save_device. cbn [first_or_none]. rewrite skipped_id.
  eapply yields_bind with (Q1 := λ found, found = Some (dev, state)).
  - intros st. exists (Some (dev, state)), [].
    unfold try_catch, mbind, M_bind, lift, get_device. simpl py_int.
    rewrite int_of_str_of_int, Hdev, Hstate. by rewrite advance_nil.
  - intros found ->. destruct state as [|kv rest]; [done|].
    set (state := kv :: rest) in *. cbv iota beta.
    eapply yields_bind.
    { apply returns_yields, returns_try_catch; [apply emits_log_saved|].
      intros e. by apply returns_log_exc. }
    intros _ _. apply yields_ret. apply snapshot_ok_set; [|done].
    split_and!.
    + left. exists id, dev, state. split_and!; try done.
      eapply Forall_impl; [exact Hvalues|]. intros kv'. apply py_eq_simple.
    + cbn [fst py_str]. apply (ascii_text_str_of_int id).
    + cbn [snd]. by eapply (simple_state dev h initial_state), Hvalues.
Qed.

Lemma save_variable_run h saved id :
  saveable_variable h id → snapshot_ok h saved →
  yields h is_log (λ saved', snapshot_ok h saved' ∧ saved' ≠ [])
    (save_variable saved (PStr (str_of_int id))).
Proof.
  intros (var & Hvar & Hascii) Hsaved.
  unfold save_variable. cbn [first_or_none]. rewrite skipped_id.
  eapply yields_bind with (Q1 := λ found, found = Some var).
  - intros st. exists (Some var), [].
    unfold try_catch, mbind, M_bind, lift, get_variable. simpl py_int.
    rewrite int_of_str_of_int, Hvar. by rewrite advance_nil.
  - intros found ->.
    eapply yields_bind.
    { apply returns_yields, returns_try_catch;
        [by apply returns_emits, returns_log|].
      intros e. by apply returns_log_exc. }
    intros _ _. apply yields_ret. apply snapshot_ok_set; [|done].
    split_and!.
    + right. exists id, var, (PStr (var_value var)). by split_and!.
    + cbn [fst py_str]. apply (ascii_text_str_of_int id).
    + cbn [snd]. simpl. by rewrite Hascii.
Qed.

Lemma save_loop {A} h (body : list (string * pyval) → A → M (list (string * pyval)))
    (xs : list A) :
  (∀ saved x, x ∈ xs → snapshot_ok h saved →
     yields h is_log (λ saved', snapshot_ok h saved' ∧ saved' ≠ []) (body saved x)) →
  ∀ saved, snapshot_ok h saved →
    yields h is_log
      (λ saved', snapshot_ok h saved' ∧ (xs ≠ [] ∨ saved ≠ [] → saved' ≠ []))
      (for_fold xs body saved).
Proof.
  induction xs as [|x xs IH]; intros Hbody saved Hsaved; simpl.
  - apply yields_ret. split; [done|]. by intros [|].
  - eapply yields_bind; [apply Hbody; [left|done]|].
    intros saved1 [Hok1 Hne1].
    eapply yields_impl; [|apply IH; [|done]].
    + intros saved' [Hok' Hne']. split; [done|]. intros _. apply Hne'. by right.
    + intros saved2 y Hy. apply Hbody. by right.
Qed.

Lemma device_part_run h valuesDict dev_ids :
  valuesDict !! "sceneDevices" = Some (id_list dev_ids) →
  Forall (saveable_device h) dev_ids →
  yields h is_log
    (λ saved, snapshot_ok h saved ∧ (dev_ids ≠ [] → saved ≠ []))
    (device_part hvac_mode_str fan_mode_str valuesDict).
Proof.
  intros Hlist Hall. unfold device_part. rewrite Hlist.
  cbv [default from_option Datatypes.id id_list].
  destruct dev_ids as [|id ids].
  { apply yields_ret. split; [|done]. split; constructor. }
  cbn [map py_truthy as_list]. rewrite bool_decide_false by done. cbn [negb].
  change (?x :: map ?f ids) with (map f (id :: ids)).
  eapply yields_impl; [|apply save_loop].
  - intros saved [Hok Hne]. split; [done|]. intros _. apply Hne. by left.
  - intros saved x Hx Hsaved.
    apply list_elem_of_In, in_map_iff in Hx as (id' & <- & Hid'%list_elem_of_In).
    apply save_device_run; [|done].
    rewrite Forall_forall in Hall. by apply Hall.
  - split; constructor.
Qed.

Lemma variable_part_run h valuesDict var_ids saved :
  valuesDict !! "sceneVariables" = Some (id_list var_ids) →
  Forall (saveable_variable h) var_ids →
  snapshot_ok h saved →
  yields h is_log
    (λ saved', snapshot_ok h saved' ∧ (var_ids ≠ [] ∨ saved ≠ [] → saved' ≠ []))
    (variable_part valuesDict saved).
Proof.
  intros Hlist Hall Hsaved. unfold variable_part. rewrite Hlist.
  cbv [default from_option Datatypes.id id_list].
  destruct var_ids as [|id ids].
  { apply yields_ret. split; [done|]. by intros [|]. }
  cbn [map py_truthy as_list]. rewrite bool_decide_false by done. cbn [negb].
  change (?x :: map ?f ids) with (map f (id :: ids)).
  eapply yields_impl; [|apply save_loop; [|done]].
  - intros saved' [Hok Hne]. split; [done|]. intros _. apply Hne. by left.
  - intros saved0 x Hx Hsaved0.
    apply list_elem_of_In, in_map_iff in Hx as (id' & <- & Hid'%list_elem_of_In).
    apply save_variable_run; [|done].
    rewrite Forall_forall in Hall. by apply Hall.
Qed.

Lemma snapshot_reads_back h saved :
  snapshot_ok h saved →
  Json.loads (dumps (PDict saved)) = Ok (PDict saved) ∧
  Forall (current h) saved.
Proof.
  intros [Hnodup Hall]. split.
  - apply loads_dumps. simpl. apply andb_true_iff.
    split; [|by apply bool_decide_eq_true].
    apply forallb_forall. intros kv Hin%list_elem_of_In.
    rewrite Forall_forall in Hall. destruct (Hall kv Hin) as (_ & -> & ->). done.
  - eapply Forall_impl; [exact Hall|]. by intros kv (? & _).
Qed.

Lemma returns_device_part h valuesDict :
  returns h is_log (device_part hvac_mode_str fan_mode_str valuesDict).
Proof.
  unfold device_part. destruct (py_truthy _); [|apply returns_ret].
  apply returns_for_fold. intros. apply returns_save_device.
Qed.

Lemma returns_variable_part h valuesDict saved :
  returns h is_log (variable_part valuesDict saved).
Proof.
  unfold variable_part. destruct (py_truthy _); [|apply returns_ret].
  apply returns_for_fold. intros. apply returns_save_variable.
Qed.

(** [saveSceneState] never raises, whatever the dialog holds and
    whatever the host answers.  It sends no command to the host, keeps the
    plugin fields, and returns the dialog values as they came in or with
    the one entry [savedStates] set to a text; every event it adds is a log
    line. *)
Theorem saveSceneState_effects valuesDict h st :
  ∃ values logs,
    saveSceneState hvac_mode_str fan_mode_str valuesDict h st
    = (Ok values, advance logs 0 st) ∧
    Forall is_log logs ∧
    (values = valuesDict ∨
     ∃ text, values = <["savedStates" := PStr text]> valuesDict).
Proof.
  destruct (saveSceneState_yields h valuesDict (λ _, True) (λ _, True)
              (returns_yields _ _ _ (returns_device_part h valuesDict))
              (λ saved _, returns_yields _ _ _
                            (returns_variable_part h valuesDict saved)) st)
    as (values & logs & Hrun & Hlogs & saved & _ & ->).
  exists (stored valuesDict saved), logs. split_and!; [done|done|].
  destruct saved; [by left|right]. by eexists.
Qed.

(** Saving a scene and checking it on the same host gives a match.
    When the dialog lists devices and variables by their ids, every listed
    device is one whose state can be read (without a float in it) and
    every listed variable exists with an ASCII value, and something is
    listed, then [saveSceneState] stores a snapshot text under
    [savedStates], and for a scene device that carries this text
    [_check_scene_match] returns True. *)
Theorem saved_scene_matches valuesDict dev_ids var_ids h st :
  valuesDict !! "sceneDevices" = Some (id_list dev_ids) →
  valuesDict !! "sceneVariables" = Some (id_list var_ids) →
  Forall (saveable_device h) dev_ids →
  Forall (saveable_variable h) var_ids →
  dev_ids ≠ [] ∨ var_ids ≠ [] →
  ∃ text logs,
    saveSceneState hvac_mode_str fan_mode_str valuesDict h st
    = (Ok (<["savedStates" := PStr text]> valuesDict), advance logs 0 st) ∧
    Forall is_log logs ∧
    ∀ scene_dev st',
      props_get scene_dev "savedStates" (PStr "") = PStr text →
      ∃ logs',
        _check_scene_match scene_dev h st' = (Ok true, advance logs' 0 st') ∧
        Forall is_log logs'.
Proof.
  intros Hdevs Hvars Hdev_ok Hvar_ok Hsome.
  destruct (saveSceneState_yields h valuesDict
              (λ saved, snapshot_ok h saved ∧ (dev_ids ≠ [] → saved ≠ []))
              (λ saved, snapshot_ok h saved ∧ saved ≠ [])
              (device_part_run h valuesDict dev_ids Hdevs Hdev_ok)) with (st := st)
    as (values & logs & Hrun & Hlogs & saved & [Hok Hne] & ->).
  { intros saved [Hok Hne].
    eapply yields_impl;
      [|exact (variable_part_run h valuesDict var_ids saved Hvars Hvar_ok Hok)].
    intros saved' [Hok' Hne']. split; [done|]. apply Hne'.
    destruct Hsome as [?|?]; [right; by apply Hne|by left]. }
  exists (dumps (PDict saved)), logs. split_and!; [|done|].
  - rewrite Hrun. by destruct saved.
  - intros scene_dev st' Hprops.
    destruct (snapshot_reads_back h saved Hok) as [Hloads Hcurrent].
    apply (check_scene_match_items scene_dev saved); [|done].
    by rewrite Hprops.
Qed.

End Callback.

Lemma saved_scene_matches_witness :
  ∃ text logs,
    saveSceneState (λ _, "") (λ _, "") example_values example_host initial_state
    = (Ok (<["savedStates" := PStr text]> example_values),
       advance logs 0 initial_state) ∧
    Forall is_log logs ∧
    ∀ scene_dev st',
      props_get scene_dev "savedStates" (PStr "") = PStr text →
      ∃ logs',
        _check_scene_match scene_dev example_host st'
        = (Ok true, advance logs' 0 st') ∧
        Forall is_log logs'.
Proof.
  apply (saved_scene_matches (λ _, "") (λ _, "") example_values [12] [7]
           example_host initial_state).
  - reflexivity.
  - reflexivity.
  - constructor; [|constructor].
    exists example_dimmer,
      [("type", PStr "dimmer"); ("brightness", PInt 50); ("onState", PBool true)].
    split_and!; [reflexivity|reflexivity|discriminate|by repeat constructor].
  - constructor; [|constructor].
    by exists {| var_id := 7; var_name := "mode"; var_value := "ON" |}.
  - left. discriminate.
Defined.

End SaveFacts.
